(** * Jewelry metal recolouring: the colour-science core

    A shallow embedding of the pixel pipeline of the repository
    (colorSpaceUtils.ts, metalDetector.ts, colorConverter.ts,
    imageProcessing.ts, imageEnhancer.ts) and the properties its
    specification states about it.

    JavaScript numbers are IEEE-754 binary64 values; they are embedded as
    Rocq's primitive [float]s, so that [+], [-], [*], [/], [Math.sqrt] and the
    comparisons are the very operations the program runs.  Typed arrays
    ([Uint8ClampedArray], [Uint8Array]) are lists of integers in [0,255],
    read with list lookup and written with list insert: a write outside the
    array does nothing, and a read outside it yields [undefined]. *)

From Stdlib Require Import ZArith Floats Bool Lia Sorted Permutation.
From Stdlib Require Uint63.
From stdpp Require Import base list.

Set Warnings "-inexact-float".

(** ** The JavaScript number layer *)

Module JS.

Local Open Scope float_scope.

(** An integer read from a typed array, as a number (exact below 2^53). *)
Definition ofZ (z : Z) : float :=
  if (0 <=? z)%Z then of_uint63 (Uint63.of_Z z)
  else - of_uint63 (Uint63.of_Z (- z)).

Definition ofNat (n : nat) : float := ofZ (Z.of_nat n).

(** [x > y], [x >= y]: false as soon as one side is NaN. *)
Definition gtb (x y : float) : bool := y <? x.
Definition geb (x y : float) : bool := y <=? x.

(** [x === y] on numbers. *)
Definition strict_eq (x y : float) : bool := x =? y.

Definition is_neg_zero (x : float) : bool := (x =? 0) && (1 / x <? 0).

Definition two52 : float := 4503599627370496.

(** The nearest integer (ties to even) of a number of magnitude below 2^52:
    adding 2^52 moves the number where the spacing of binary64 is 1. *)
Definition rint (x : float) : float :=
  if x <? 0 then (x - two52) + two52 else (x + two52) - two52.

(** [Math.floor]. *)
Definition Math_floor (x : float) : float :=
  if negb (is_finite x) || (two52 <=? abs x) || (x =? 0) then x
  else
    let t := rint x in
    if x <? t then t - 1 else t.

(** [Math.round]: the nearest integer, ties towards plus infinity. *)
Definition Math_round (x : float) : float :=
  if negb (is_finite x) || (two52 <=? abs x) || (x =? 0) then x
  else
    let f := Math_floor x in
    let n := if 0.5 <=? x - f then f + 1 else f in
    if n =? 0 then (if x <? 0 then neg_zero else 0) else n.

(** [Math.max] and [Math.min] of two numbers. *)
Definition Math_max (x y : float) : float :=
  if is_nan x || is_nan y then nan
  else if x =? y then (if is_neg_zero x then y else x)
  else if x <? y then y else x.

Definition Math_min (x y : float) : float :=
  if is_nan x || is_nan y then nan
  else if x =? y then (if is_neg_zero x then x else y)
  else if x <? y then x else y.

Definition Math_abs (x : float) : float := abs x.
Definition Math_sqrt (x : float) : float := sqrt x.

(** The machine integer an integral number in [0, 2^52) denotes, read off
    the significand of [x + 2^52]. *)
Definition two52_int : Uint63.int :=
  Eval vm_compute in Uint63.of_Z 4503599627370496.

Definition toInt (x : float) : Uint63.int :=
  Uint63.sub (normfr_mantissa (fst (frshiftexp (x + two52))))
             two52_int.

(** The value a finite number denotes, as [m * 2^e]. *)
Definition decode (x : float) : Z * Z :=
  match Prim2SF x with
  | S754_finite s m e => (if s then Z.neg m else Z.pos m, e)
  | _ => (0%Z, 0%Z)
  end.

(** The integer part, rounded towards minus infinity, of a finite number. *)
Definition floorZ (x : float) : Z :=
  let '(m, e) := decode x in
  if (0 <=? e)%Z then Z.shiftl m e else Z.shiftr m (- e).

(** The remainder operator [x % y]: exact, with the sign of the dividend. *)
Definition rem (x y : float) : float :=
  if is_nan x || is_nan y || is_infinity x || (y =? 0) then nan
  else if is_infinity y then x
  else if x =? 0 then x
  else
    let '(mx, ex) := decode x in
    let '(my, ey) := decode y in
    let e := Z.min ex ey in
    let q := Z.rem (Z.shiftl mx (ex - e)) (Z.shiftl my (ey - e)) in
    if (q =? 0)%Z then (if x <? 0 then neg_zero else 0)
    else Z.ldexp (ofZ q) e.

(** Storing a number into a [Uint8ClampedArray]: NaN becomes 0, the value is
    clamped to [0,255] and rounded to the nearest integer, ties to even. *)
Definition toUint8Clamp (x : float) : Z :=
  if is_nan x then 0%Z
  else if x <=? 0 then 0%Z
  else if 255 <=? x then 255%Z
  else Uint63.to_Z (toInt (rint x)).

(** *** [Math.pow]

    ECMAScript leaves [Math.pow] implementation-approximated.  The model
    below returns what the standard fixes on the special cases, multiplies
    for the exponents 2 (as the engines derived from fdlibm do) and 3, and
    otherwise evaluates [exp (y * ln x)] from the series of both functions
    after range reduction: on the arguments of the colour conversions it is
    within a few units in the last place of the true power. *)

Definition ln2_hi : float := 0x1.62e42fee00000p-1.
Definition ln2_lo : float := 0x1.a39ef35793c76p-33.
Definition ln2 : float := 0x1.62e42fefa39efp-1.
Definition sqrt_half : float := 0x1.6a09e667f3bcdp-1.

(** [ln m] for [m] between [sqrt (1/2)] and [sqrt 2], from
    [ln m = 2 atanh ((m-1)/(m+1))]. *)
Definition ln_reduced (m : float) : float :=
  let z := (m - 1) / (m + 1) in
  let w := z * z in
  let s := 1 / 23 in
  let s := 1 / 21 + w * s in
  let s := 1 / 19 + w * s in
  let s := 1 / 17 + w * s in
  let s := 1 / 15 + w * s in
  let s := 1 / 13 + w * s in
  let s := 1 / 11 + w * s in
  let s := 1 / 9 + w * s in
  let s := 1 / 7 + w * s in
  let s := 1 / 5 + w * s in
  let s := 1 / 3 + w * s in
  2 * z + 2 * z * (w * s).

(** [ln x] for finite [x > 0]: [x = m * 2^e] with [m] in [[1/2, 1)]. *)
Definition ln (x : float) : float :=
  let '(m, e) := frshiftexp x in
  let k := of_uint63 e - 2101 in
  let '(m, k) := if m <? sqrt_half then (2 * m, k - 1) else (m, k) in
  k * ln2_hi + (ln_reduced m + k * ln2_lo).

(** [exp r] for [|r| <= ln 2 / 2], by Horner's rule on the Taylor series. *)
Definition exp_reduced (r : float) : float :=
  let s := 1 + r / 17 in
  let s := 1 + r / 16 * s in
  let s := 1 + r / 15 * s in
  let s := 1 + r / 14 * s in
  let s := 1 + r / 13 * s in
  let s := 1 + r / 12 * s in
  let s := 1 + r / 11 * s in
  let s := 1 + r / 10 * s in
  let s := 1 + r / 9 * s in
  let s := 1 + r / 8 * s in
  let s := 1 + r / 7 * s in
  let s := 1 + r / 6 * s in
  let s := 1 + r / 5 * s in
  let s := 1 + r / 4 * s in
  let s := 1 + r / 3 * s in
  let s := 1 + r / 2 * s in
  1 + r * s.

(** [exp t] for finite [t]: [t = k ln 2 + r], and the result is
    [exp r * 2^k]. *)
Definition exp (t : float) : float :=
  if 709.78 <? t then infinity
  else if t <? -745.2 then 0
  else
    let k := rint (t / ln2) in
    let r := (t - k * ln2_hi) - k * ln2_lo in
    ldshiftexp (exp_reduced r) (toInt (k + 2101)).

Definition is_integral (y : float) : bool :=
  is_finite y && (Math_floor y =? y).

Definition is_odd_integral (y : float) : bool :=
  is_integral y && (abs y <? 9007199254740992) && Z.odd (floorZ y).

Definition Math_pow (x y : float) : float :=
  if is_nan y then nan
  else if y =? 0 then 1
  else if is_nan x then nan
  else if y =? 2 then x * x
  else if y =? 3 then x * x * x
  else if x =? 0 then
    (if 0 <? y then (if is_neg_zero x && is_odd_integral y then neg_zero else 0)
     else (if is_neg_zero x && is_odd_integral y then neg_infinity else infinity))
  else if is_infinity y then
    (if abs x =? 1 then nan
     else if (1 <? abs x) then (if 0 <? y then infinity else 0)
     else (if 0 <? y then 0 else infinity))
  else if is_infinity x then
    (if x <? 0 then
       (if 0 <? y then (if is_odd_integral y then neg_infinity else infinity)
        else (if is_odd_integral y then neg_zero else 0))
     else (if 0 <? y then infinity else 0))
  else if x <? 0 then
    (if is_integral y then
       let p := exp (y * ln (abs x)) in
       if is_odd_integral y then - p else p
     else nan)
  else exp (y * ln x).

End JS.

(** ** colorSpaceUtils.ts: RGB, CIE-XYZ and Lab *)

Module ColorSpace.

Import JS.
Local Open Scope float_scope.

Record Xyz := mkXyz { x : float; y : float; z : float }.
Record Lab := mkLab { l : float; a : float; b : float }.
Record Rgb := mkRgb { r : float; g : float; bl : float }.

(** [rgbToXyz]: sRGB to linear RGB (threshold 0.04045), then the D65 matrix. *)
Definition rgbToXyz (r g b : float) : Xyz :=
  let rNorm := r / 255 in
  let gNorm := g / 255 in
  let bNorm := b / 255 in
  let applyGamma (value : float) : float :=
    if gtb value 0.04045
    then Math_pow ((value + 0.055) / 1.055) 2.4
    else value / 12.92 in
  let rNorm := applyGamma rNorm in
  let gNorm := applyGamma gNorm in
  let bNorm := applyGamma bNorm in
  let rNorm := rNorm * 100 in
  let gNorm := gNorm * 100 in
  let bNorm := bNorm * 100 in
  let x := rNorm * 0.4124 + gNorm * 0.3576 + bNorm * 0.1805 in
  let y := rNorm * 0.2126 + gNorm * 0.7152 + bNorm * 0.0722 in
  let z := rNorm * 0.0193 + gNorm * 0.1192 + bNorm * 0.9505 in
  mkXyz x y z.

(** [xyzToLab]: cube-root compression against the D65 white point. *)
Definition xyzToLab (x y z : float) : Lab :=
  let xRef := 95.047 in
  let yRef := 100.0 in
  let zRef := 108.883 in
  let xNorm := x / xRef in
  let yNorm := y / yRef in
  let zNorm := z / zRef in
  let applyTransform (value : float) : float :=
    if gtb value 0.008856
    then Math_pow value (1 / 3)
    else (7.787 * value) + (16 / 116) in
  let xNorm := applyTransform xNorm in
  let yNorm := applyTransform yNorm in
  let zNorm := applyTransform zNorm in
  let l := (116 * yNorm) - 16 in
  let a := 500 * (xNorm - yNorm) in
  let b := 200 * (yNorm - zNorm) in
  mkLab l a b.

Definition rgbToLab (r g b : float) : Lab :=
  let xyz := rgbToXyz r g b in
  xyzToLab (x xyz) (y xyz) (z xyz).

(** [labToXyz]. *)
Definition labToXyz (l a b : float) : Xyz :=
  let xRef := 95.047 in
  let yRef := 100.0 in
  let zRef := 108.883 in
  let y := (l + 16) / 116 in
  let x := a / 500 + y in
  let z := y - b / 200 in
  let applyInverseTransform (value : float) : float :=
    let pow3 := Math_pow value 3 in
    if gtb pow3 0.008856
    then pow3
    else (value - 16 / 116) / 7.787 in
  let x := xRef * applyInverseTransform x in
  let y := yRef * applyInverseTransform y in
  let z := zRef * applyInverseTransform z in
  mkXyz x y z.

(** [xyzToRgb]: inverse matrix, gamma compression, clamp to [0,1], scale and
    round to integers. *)
Definition xyzToRgb (x y z : float) : Rgb :=
  let x := x / 100 in
  let y := y / 100 in
  let z := z / 100 in
  let r := x * 3.2406 + y * -1.5372 + z * -0.4986 in
  let g := x * -0.9689 + y * 1.8758 + z * 0.0415 in
  let b := x * 0.0557 + y * -0.2040 + z * 1.0570 in
  let applyGamma (value : float) : float :=
    if gtb value 0.0031308
    then 1.055 * Math_pow value (1 / 2.4) - 0.055
    else 12.92 * value in
  let r := applyGamma r in
  let g := applyGamma g in
  let b := applyGamma b in
  let r := Math_max 0 (Math_min 1 r) in
  let g := Math_max 0 (Math_min 1 g) in
  let b := Math_max 0 (Math_min 1 b) in
  mkRgb (Math_round (r * 255)) (Math_round (g * 255)) (Math_round (b * 255)).

Definition labToRgb (l a b : float) : Rgb :=
  let xyz := labToXyz l a b in
  xyzToRgb (x xyz) (y xyz) (z xyz).

End ColorSpace.

(** ** Loops and typed arrays *)

Module Loop.

(** [for (let i = lo; i < hi; i++) body], threading the mutated state. *)
Definition for_range {S : Type} (lo hi : nat) (body : nat -> S -> S) (s : S) : S :=
  fold_left (fun s i => body i s) (seq lo (hi - lo)) s.

(** The same loop when the body may throw: [None] is the exception, which
    leaves the loop at once. *)
Fixpoint forM {K S : Type} (ks : list K) (body : K -> S -> option S) (s : S)
  : option S :=
  match ks with
  | [] => Some s
  | k :: ks' =>
      match body k s with
      | Some s' => forM ks' body s'
      | None => None
      end
  end.

(** The loops over the interior of a [width] x [height] image:
    [for (let y = 1; y < height - 1; y++) for (let x = 1; x < width - 1; x++)]. *)
Definition for_interior {S : Type} (width height : nat)
    (body : nat -> nat -> S -> S) (s : S) : S :=
  for_range 1 (height - 1) (fun y => for_range 1 (width - 1) (body y)) s.

(** The values [0, 4, 8, ...] below [n]: the indices
    [for (let i = 0; i < n; i += 4)] visits. *)
Definition steps4 (n : nat) : list nat :=
  map (fun p => 4 * p) (seq 0 ((n + 3) / 4)).

End Loop.

Module TypedArray.

Import JS.

(** [arr[i]] read as a number: [undefined] outside the array, which every
    arithmetic operation and comparison turns into NaN. *)
Definition get (arr : list Z) (i : nat) : float :=
  match arr !! i with
  | Some v => ofZ v
  | None => nan
  end.

(** A read of the pixel array at an index known to the loops to be inside
    it. *)
Definition at_ (arr : list Z) (i : nat) : Z := default 0%Z (arr !! i).

(** [x > 0] for an element of a [Uint8Array] that may be [undefined]. *)
Definition positive (v : option Z) : bool :=
  match v with
  | Some m => (0 <? m)%Z
  | None => false
  end.

(** [new Uint8Array(n)]: [n] zeroes. *)
Definition zeros (n : nat) : list Z := replicate n 0%Z.

(** [arr[i] = r; arr[i+1] = g; arr[i+2] = b]. *)
Definition set3 (i : nat) (r g b : Z) (arr : list Z) : list Z :=
  <[i + 2 := b]> (<[i + 1 := g]> (<[i := r]> arr)).

(** [for (let c = 0; c < 3; c++) output[idx + c] = value(c)]. *)
Definition setChannels (idx : nat) (value : nat -> Z) (output : list Z)
  : list Z :=
  Loop.for_range 0 3 (fun c output => <[idx + c := value c]> output) output.

(** The byte offset of the pixel [(x, y)]: [(y * width + x) * 4]. *)
Definition offset (width x y : nat) : nat := (y * width + x) * 4.

End TypedArray.

(** [MetalColor] of types/index.ts. *)
Inductive MetalColor := yellow | rose.

Definition MetalColor_eqb (c1 c2 : MetalColor) : bool :=
  match c1, c2 with
  | yellow, yellow | rose, rose => true
  | _, _ => false
  end.

(** ** colorConverter.ts: the anchor-interpolation colour transfer *)

Module ColorConverter.

Import JS ColorSpace Loop TypedArray.
Local Open Scope float_scope.

Record ColorReference := mkRef { source : Lab; target : Lab }.

Definition YELLOW_TO_ROSE_REFS : list ColorReference :=
  [ mkRef (mkLab 83 10 45) (mkLab 80 20 25);
    mkRef (mkLab 76 7 40) (mkLab 70 18 22);
    mkRef (mkLab 65 6 35) (mkLab 60 16 18) ].

Definition ROSE_TO_YELLOW_REFS : list ColorReference :=
  [ mkRef (mkLab 80 20 25) (mkLab 83 10 45);
    mkRef (mkLab 70 18 22) (mkLab 76 7 40);
    mkRef (mkLab 60 16 18) (mkLab 65 6 35) ].

Definition labDistance (lab1 lab2 : Lab) : float :=
  Math_sqrt
    (Math_pow (l lab1 - l lab2) 2 +
     Math_pow (a lab1 - a lab2) 2 +
     Math_pow (b lab1 - b lab2) 2).

(** The body of the loop of [transformLabColor] that accumulates the
    weighted target. *)
Definition accumulate (weightSum : float) (acc : Lab)
    (rw : ColorReference * float) : Lab :=
  let weight := snd rw / weightSum in
  mkLab (l acc + l (target (fst rw)) * weight)
        (a acc + a (target (fst rw)) * weight)
        (b acc + b (target (fst rw)) * weight).

(** [transformLabColor].  [None] is the TypeError of [references[0].target]
    on an empty palette. *)
Definition transformLabColor (lab : Lab) (references : list ColorReference)
    (reflectionStrength : float) : option Lab :=
  let distances := map (fun ref => labDistance lab (source ref)) references in
  let totalDistance := fold_left (fun sum d => sum + d) distances 0 in
  if strict_eq totalDistance 0 then
    match references !! 0%nat with
    | Some ref0 => Some (target ref0)
    | None => None
    end
  else
    let weights := map (fun d => 1 / (d + 0.0001)) distances in
    let weightSum := fold_left (fun sum w => sum + w) weights 0 in
    let t := fold_left (accumulate weightSum) (zip references weights)
                       (mkLab 0 0 0) in
    let targetL :=
      if gtb reflectionStrength 0 then
        let preservationFactor := reflectionStrength / 255 in
        l lab * preservationFactor + l t * (1 - preservationFactor)
      else l t in
    Some (mkLab targetL (a t) (b t)).

(** The palette [transformMetalColor] selects. *)
Definition colorRefs (sourceColor targetColor : MetalColor)
  : list ColorReference :=
  if MetalColor_eqb sourceColor yellow && MetalColor_eqb targetColor rose
  then YELLOW_TO_ROSE_REFS
  else ROSE_TO_YELLOW_REFS.

(** One round of the pixel loop of [transformMetalColor], at byte offset
    [i]. *)
Definition transformPixel (refs : list ColorReference)
    (metalMask reflectionMap : list Z) (i : nat) (data : list Z)
  : option (list Z) :=
  let pixelIndex := (i / 4)%nat in
  if positive (metalMask !! pixelIndex) then
    let r := get data i in
    let g := get data (i + 1) in
    let b := get data (i + 2) in
    let lab := rgbToLab r g b in
    let reflectionStrength := get reflectionMap pixelIndex in
    match transformLabColor lab refs reflectionStrength with
    | Some transformedLab =>
        let transformedRgb :=
          labToRgb (l transformedLab) (a transformedLab)
                   (ColorSpace.b transformedLab) in
        Some (set3 i (toUint8Clamp (ColorSpace.r transformedRgb))
                     (toUint8Clamp (ColorSpace.g transformedRgb))
                     (toUint8Clamp (bl transformedRgb)) data)
    | None => None
    end
  else Some data.

(** [transformMetalColor] on the decoded pixel buffer. *)
Definition transformMetalColor (data : list Z)
    (sourceColor targetColor : MetalColor) (metalMask reflectionMap : list Z)
  : option (list Z) :=
  forM (steps4 (length data))
       (transformPixel (colorRefs sourceColor targetColor)
                       metalMask reflectionMap)
       data.

End ColorConverter.

(** A decoded image: [ImageData] of the canvas API. *)
Record ImageData := mkImageData {
  data : list Z;
  width : nat;
  height : nat
}.

(** The errors the promises of the pipeline are rejected with. *)
Inductive Failure :=
  | FailedToLoadImage        (* new Error('Failed to load image') *)
  | CouldNotGetCanvasContext (* new Error('Could not get canvas context') *)
  | NoMetalDetected          (* new Error('No metal detected in the image') *).

(** How a promise settles. *)
Inductive Outcome (A : Type) :=
  | resolve (v : A)
  | reject (e : Failure).
Arguments resolve {A} v.
Arguments reject {A} e.

(** ** metalDetector.ts: clustering, classification, reflections *)

Module MetalDetector.

Import JS ColorSpace Loop TypedArray.
Local Open Scope float_scope.

Definition YELLOW_GOLD_LAB_REFS : list Lab :=
  [ mkLab 83 10 45; mkLab 76 7 40; mkLab 70 6 35 ].

Definition ROSE_GOLD_LAB_REFS : list Lab :=
  [ mkLab 75 20 25; mkLab 68 18 20; mkLab 60 16 18 ].

Record Point := mkPoint { lab : Lab; index : nat }.
Record Cluster := mkCluster { center : Lab; points : list Point }.

Record DetectionResult := mkDetectionResult {
  detectedColor : MetalColor;
  metalMask : list Z;
  reflectionMap : list Z;
  labValues : list Lab
}.

(** [{...labColors[i]}]: the spread of [undefined] is an object without
    fields, whose [l], [a], [b] are NaN in every computation. *)
Definition spread (c : option Lab) : Lab :=
  match c with
  | Some c => c
  | None => mkLab nan nan nan
  end.

Definition labDistance (color1 color2 : Lab) : float :=
  Math_sqrt
    (Math_pow (l color1 - l color2) 2 +
     Math_pow (a color1 - a color2) 2 +
     Math_pow (b color1 - b color2) 2).

(** The inner [clusters.forEach] of the assignment: the running minimum and
    the index that reached it. *)
Definition nearestCluster (lab : Lab) (clusters : list Cluster) : nat :=
  snd (fold_left
         (fun (st : float * nat) (ic : nat * Cluster) =>
            let distance := labDistance lab (center (snd ic)) in
            if distance <? fst st then (distance, fst ic) else st)
         (imap (fun i c => (i, c)) clusters)
         (infinity, 0%nat)).

(** [clusters[nearestClusterIndex].points.push({ lab, index })]. *)
Definition assignPoint (clusters : list Cluster) (il : nat * Lab)
  : list Cluster :=
  let nearestClusterIndex := nearestCluster (snd il) clusters in
  alter (fun c => mkCluster (center c)
                            (points c ++ [mkPoint (snd il) (fst il)]))
        nearestClusterIndex clusters.

(** The centre update of one cluster. *)
Definition updateCenter (cluster : Cluster) : Cluster :=
  match points cluster with
  | [] => cluster
  | _ =>
      let newCenter :=
        fold_left
          (fun (c : Lab) (point : Point) =>
             mkLab (l c + l (lab point)) (a c + a (lab point))
                   (b c + b (lab point)))
          (points cluster) (mkLab 0 0 0) in
      let n := ofNat (length (points cluster)) in
      mkCluster (mkLab (l newCenter / n) (a newCenter / n) (b newCenter / n))
                (points cluster)
  end.

(** One round of k-means: reset, assign every colour, update the centres. *)
Definition kMeansIteration (labColors : list Lab) (clusters : list Cluster)
  : list Cluster :=
  let clusters := map (fun c => mkCluster (center c) []) clusters in
  let clusters :=
    fold_left assignPoint (imap (fun i c => (i, c)) labColors) clusters in
  map updateCenter clusters.

(** The initial centres: [k] colours spread through the data. *)
Definition initialCenters (labColors : list Lab) (k : nat) : list Lab :=
  let step := (length labColors / k)%nat in
  map (fun i => spread (labColors !! (i * step)%nat)) (seq 0 k).

(** [kMeansLabClustering] (for [k > 0], as its one caller has it). *)
Definition kMeansLabClustering (labColors : list Lab) (k : nat)
    (maxIterations : nat) : list Cluster :=
  let clusters := map (fun c => mkCluster c []) (initialCenters labColors k) in
  for_range 0 maxIterations (fun _ => kMeansIteration labColors) clusters.

Inductive ClusterType := metal (c : MetalColor) | non_metal.

Record Classification := mkClassification {
  type : ClusterType;
  confidence : float
}.

Definition refDistance (center ref : Lab) : float :=
  Math_sqrt
    (Math_pow (l center - l ref) 2 +
     Math_pow (a center - a ref) 2 +
     Math_pow (b center - b ref) 2).

Definition minDistance (center : Lab) (refs : list Lab) : float :=
  fold_left (fun m ref => Math_min m (refDistance center ref)) refs infinity.

(** [classifyCluster]. *)
Definition classifyCluster (cluster : Cluster) : Classification :=
  let minYellowDist := minDistance (center cluster) YELLOW_GOLD_LAB_REFS in
  let minRoseDist := minDistance (center cluster) ROSE_GOLD_LAB_REFS in
  if gtb minYellowDist 30 && gtb minRoseDist 30 then
    mkClassification non_metal 0.9
  else
    let totalDist := minYellowDist + minRoseDist in
    let confidence := 1 - (Math_min minYellowDist minRoseDist / totalDist) in
    mkClassification
      (metal (if minYellowDist <? minRoseDist then yellow else rose))
      confidence.

(** One round of the pixel loop of [detectReflections]. *)
Definition reflectionAt (imageData : list Z) (width : nat) (metalMask : list Z)
    (i j : nat) (reflectionMap : list Z) : list Z :=
  let idx := ((i * width + j) * 4)%nat in
  let pixelIndex := (i * width + j)%nat in
  if TypedArray.positive (metalMask !! pixelIndex) then
    let r := get imageData idx in
    let g := get imageData (idx + 1) in
    let b := get imageData (idx + 2) in
    let luminance := 0.299 * r + 0.587 * g + 0.114 * b in
    if gtb luminance 200 then <[pixelIndex := 255%Z]> reflectionMap
    else if gtb luminance 170 then <[pixelIndex := 200%Z]> reflectionMap
    else if gtb luminance 140 then <[pixelIndex := 150%Z]> reflectionMap
    else <[pixelIndex := 0%Z]> reflectionMap
  else reflectionMap.

(** [detectReflections]. *)
Definition detectReflections (imageData : list Z) (width height : nat)
    (metalMask : list Z) : list Z :=
  for_range 0 height
    (fun i => for_range 0 width (reflectionAt imageData width metalMask i))
    (zeros (width * height)).

(** A classified cluster: [{...cluster, classification}]. *)
Definition Classified : Type := Cluster * Classification.

Definition isMetalCluster (c : Classified) : bool :=
  match type (snd c) with
  | non_metal => false
  | metal _ => gtb (confidence (snd c)) 0.5
  end.

(** [sort((a, b) => b.points.length - a.points.length)]: descending by
    size; the sort is stable, so equal sizes keep their order. *)
Fixpoint insertBySize (c : Classified) (sorted : list Classified)
  : list Classified :=
  match sorted with
  | [] => [c]
  | d :: rest =>
      if (length (points (fst d)) <=? length (points (fst c)))%nat
      then c :: d :: rest
      else d :: insertBySize c rest
  end.

Definition sortBySize (cs : list Classified) : list Classified :=
  foldr insertBySize [] cs.

(** The Lab colour of every pixel of the buffer. *)
Definition labColorsOf (data : list Z) : list Lab :=
  map (fun i => rgbToLab (get data i) (get data (i + 1)) (get data (i + 2)))
      (steps4 (length data)).

Definition classifiedClusters (imageData : ImageData) : list Classified :=
  map (fun cluster => (cluster, classifyCluster cluster))
      (kMeansLabClustering (labColorsOf (data imageData)) 6 10).

Definition metalClusters (imageData : ImageData) : list Classified :=
  sortBySize (filter (fun c => isMetalCluster c = true)
                     (classifiedClusters imageData)).

(** The mask loop: [metalMask[point.index] = 255] for every point of every
    metal cluster. *)
Definition markCluster (mask : list Z) (cluster : Classified) : list Z :=
  fold_left (fun mask point => <[index point := 255%Z]> mask)
            (points (fst cluster)) mask.

(** [detectMetalType] on the decoded image.  The dominant cluster has passed
    the filter, so its type is a metal: the last branch of the cast
    [classification.type as MetalColor] is never taken. *)
Definition detectMetalType (imageData : ImageData) : Outcome DetectionResult :=
  match metalClusters imageData with
  | [] => reject NoMetalDetected
  | dominantCluster :: _ =>
      let detectedColor :=
        match type (snd dominantCluster) with
        | metal c => c
        | non_metal => rose
        end in
      let metalMask :=
        fold_left markCluster (metalClusters imageData)
                  (zeros (width imageData * height imageData)) in
      let reflectionMap :=
        detectReflections (data imageData) (width imageData)
                          (height imageData) metalMask in
      resolve (mkDetectionResult detectedColor metalMask reflectionMap
                 (map lab (points (fst dominantCluster))))
  end.

End MetalDetector.

(** ** imageEnhancer.ts: artifact removal and enhancement *)

Module ImageEnhancer.

Import JS Loop TypedArray.
Local Open Scope float_scope.

(** [values.sort((a, b) => a - b)]: ascending numeric order. *)
Fixpoint insertSorted (v : Z) (sorted : list Z) : list Z :=
  match sorted with
  | [] => [v]
  | w :: rest => if (v <=? w)%Z then v :: w :: rest else w :: insertSorted v rest
  end.

Definition sortNumeric (values : list Z) : list Z :=
  foldr insertSorted [] values.

(** The colour distance of the pixel at [idx] to the one at [neighborIdx],
    when that index lies inside the array. *)
Definition neighborDistance (data : list Z) (idx : nat) (neighborIdx : Z)
  : option float :=
  if (0 <=? neighborIdx)%Z && (neighborIdx <? Z.of_nat (length data))%Z then
    let n := Z.to_nat neighborIdx in
    let r := get data idx in
    let g := get data (idx + 1) in
    let b := get data (idx + 2) in
    let nr := get data n in
    let ng := get data (n + 1) in
    let nb := get data (n + 2) in
    Some (Math_sqrt (Math_pow (r - nr) 2 + Math_pow (g - ng) 2 +
                     Math_pow (b - nb) 2))
  else None.

(** [isArtifact]: the mean colour distance to the 4-connected neighbours
    exceeds 40. *)
Definition isArtifact (data : list Z) (idx : nat) (width : nat) : bool :=
  let neighbors : list Z :=
    [ (Z.of_nat idx - Z.of_nat width * 4)%Z;
      (Z.of_nat idx + Z.of_nat width * 4)%Z;
      (Z.of_nat idx - 4)%Z;
      (Z.of_nat idx + 4)%Z ] in
  let '(variance, neighborCount) :=
    fold_left
      (fun (st : float * nat) neighborIdx =>
         match neighborDistance data idx neighborIdx with
         | Some colorDist => (fst st + colorDist, S (snd st))
         | None => st
         end)
      neighbors (0, 0%nat) in
  let variance :=
    if (0 <? neighborCount)%nat then variance / ofNat neighborCount else 0 in
  gtb variance 40.

(** The 3x3 neighbourhood of channel [c] around [(x, y)], row by row, with
    [dy] and [dx] counted from 0 instead of -1.  The loops gather it on
    interior pixels only, where the nine reads are inside the array. *)
Definition neighborhood (data : list Z) (width x y c : nat) : list Z :=
  flat_map
    (fun dy =>
       map (fun dx => at_ data (((y + dy - 1) * width + (x + dx - 1)) * 4 + c))
           (seq 0 3))
    (seq 0 3).

(** [values[4]] after the sort: the middle of the nine. *)
Definition median (data : list Z) (width x y c : nat) : Z :=
  at_ (sortNumeric (neighborhood data width x y c)) 4.

(** The body of the loops of [removeArtifacts] at [(x, y)]. *)
Definition filterPixel (data : list Z) (width y x : nat) (output : list Z)
  : list Z :=
  let idx := offset width x y in
  if isArtifact data idx width then
    setChannels idx (median data width x y) output
  else output.

(** [removeArtifacts]. *)
Definition removeArtifacts (imageData : ImageData) : ImageData :=
  let output := data imageData in
  let output :=
    for_interior (width imageData) (height imageData)
      (filterPixel (data imageData) (width imageData)) output in
  mkImageData output (width imageData) (height imageData).

(** The sharpened value of one channel of an interior pixel:
    [centerValue + sum * 0.3], rounded and clamped, as it is stored. *)
Definition sharpened (data : list Z) (width x y c : nat) : Z :=
  let idx := offset width x y in
  let centerValue := get data (idx + c) in
  let sum :=
    - get data (((y - 1) * width + x) * 4 + c) +
    - get data ((y * width + (x - 1)) * 4 + c) +
    4 * centerValue +
    - get data ((y * width + (x + 1)) * 4 + c) +
    - get data (((y + 1) * width + x) * 4 + c) in
  let sharpened := centerValue + (sum * 0.3) in
  toUint8Clamp (Math_max 0 (Math_min 255 (Math_round sharpened))).

(** The body of the loops of [enhanceImageStandard] at [(x, y)]. *)
Definition sharpenPixel (data : list Z) (width y x : nat) (output : list Z)
  : list Z :=
  setChannels (offset width x y) (sharpened data width x y) output.

(** [enhanceImageStandard]: the sharpening used when the model is not
    available. *)
Definition enhanceImageStandard (imageData : ImageData) : ImageData :=
  let output := data imageData in
  let output :=
    for_interior (width imageData) (height imageData)
      (sharpenPixel (data imageData) (width imageData)) output in
  mkImageData output (width imageData) (height imageData).

(** The environment of [enhanceImage]: the ESRGAN model, which yields an
    image or fails (TensorFlow missing, the model not loading, the
    prediction throwing), and whether the second canvas gives a context. *)
Record Environment := mkEnvironment {
  esrgan : ImageData -> option ImageData;
  enhancedContext : bool
}.

(** [applySuperResolution]: every failure inside the [try] ends in the
    [catch], which returns the standard enhancement. *)
Definition applySuperResolution (env : Environment) (imageData : ImageData)
  : ImageData :=
  match esrgan env imageData with
  | Some result => result
  | None => enhanceImageStandard imageData
  end.

(** [ctx.putImageData(imageData, 0, 0)] on a canvas: the part of the image
    that fits replaces the canvas pixels. *)
Definition putImageData (canvas imageData : ImageData) : ImageData :=
  let pixel (p : nat) : list Z :=
    let x := (p `mod` width canvas)%nat in
    let y := (p / width canvas)%nat in
    let src := if (x <? width imageData)%nat && (y <? height imageData)%nat
               then (data imageData, ((y * width imageData + x) * 4)%nat)
               else (data canvas, (p * 4)%nat) in
    map (fun c => at_ (fst src) (snd src + c)) (seq 0 4) in
  mkImageData (flat_map pixel (seq 0 (width canvas * height canvas)))
              (width canvas) (height canvas).

(** [enhanceImage] on the decoded image: the pixels that are encoded into
    the data URL the promise resolves with. *)
Definition enhanceImage (env : Environment) (original : ImageData)
  : Outcome ImageData :=
  let imageData := removeArtifacts original in
  let imageData := applySuperResolution env imageData in
  if enhancedContext env then resolve imageData
  else resolve (putImageData original imageData).

End ImageEnhancer.

(** ** imageProcessing.ts: the direct HSV colour transfer *)

Module ImageProcessing.

Import JS.
Local Open Scope float_scope.

Record Hsv := mkHsv { h : float; s : float; v : float }.
Record RgbColor := mkRgbColor { r : float; g : float; b : float }.

(** [rgbToHsv]. *)
Definition rgbToHsv (r g b : float) : Hsv :=
  let rNorm := r / 255 in
  let gNorm := g / 255 in
  let bNorm := b / 255 in
  let max := Math_max (Math_max rNorm gNorm) bNorm in
  let min := Math_min (Math_min rNorm gNorm) bNorm in
  let delta := max - min in
  let h :=
    if negb (strict_eq delta 0) then
      if strict_eq max rNorm then 60 * rem ((gNorm - bNorm) / delta) 6
      else if strict_eq max gNorm then 60 * ((bNorm - rNorm) / delta + 2)
      else 60 * ((rNorm - gNorm) / delta + 4)
    else 0 in
  let h := if h <? 0 then h + 360 else h in
  let s := if strict_eq max 0 then 0 else delta / max in
  let v := max in
  mkHsv h s v.

(** [hsvToRgb]. *)
Definition hsvToRgb (h s v : float) : RgbColor :=
  let c := v * s in
  let x := c * (1 - Math_abs (rem (h / 60) 2 - 1)) in
  let m := v - c in
  let '(rTemp, gTemp, bTemp) :=
    if geb h 0 && (h <? 60) then (c, x, 0)
    else if geb h 60 && (h <? 120) then (x, c, 0)
    else if geb h 120 && (h <? 180) then (0, c, x)
    else if geb h 180 && (h <? 240) then (0, x, c)
    else if geb h 240 && (h <? 300) then (x, 0, c)
    else (c, 0, x) in
  mkRgbColor (Math_round ((rTemp + m) * 255))
             (Math_round ((gTemp + m) * 255))
             (Math_round ((bTemp + m) * 255)).

(** The two detections at the head of [transformGoldColor]. *)
Definition isCurrentlyYellow (hsv : Hsv) : bool :=
  (geb (h hsv) 30 && (h hsv <=? 60)) ||
  (geb (s hsv) 0.3 && (s hsv <=? 0.95) && geb (v hsv) 0.6).

Definition isCurrentlyRose (hsv : Hsv) : bool :=
  (geb (h hsv) 345 || (h hsv <=? 20)) ||
  (geb (h hsv) 15 && (h hsv <=? 30) && geb (s hsv) 0.4).

(** [transformGoldColor].  [random] is the number [Math.random()] returns
    when this invocation calls it: a value in [[0, 1)] the runtime draws
    afresh at every call. *)
Definition transformGoldColor (random : float) (r g b : float)
    (targetColor : MetalColor) : RgbColor :=
  let hsv := rgbToHsv r g b in
  let initialLuminance := 0.299 * r + 0.587 * g + 0.114 * b in
  let goldConfidence :=
    Math_min (s hsv * 1.5) 1.0 * Math_min (v hsv * 1.2) 1.0 in
  let hsv :=
    match targetColor with
    | yellow =>
        let h' :=
          if isCurrentlyRose hsv then 45 + (random * 5 - 2.5)
          else h hsv * 0.2 + 36 in
        let s' := s hsv * (0.7 + 0.3 * goldConfidence) + 0.1 in
        let s' := Math_max 0.3 (Math_min 0.95 s') in
        let v' := v hsv * 0.85 + 0.15 in
        let v' := Math_max 0.5 (Math_min 0.95 v') in
        mkHsv h' s' v'
    | rose =>
        let h' :=
          if isCurrentlyYellow hsv then 5 + (random * 5 - 2.5)
          else if gtb (h hsv) 180 then 358
               else Math_max 0 (Math_min 15 (h hsv)) in
        let s' := s hsv * (0.8 + 0.2 * goldConfidence) in
        let s' := Math_max 0.25 (Math_min 0.85 s') in
        let v' := v hsv * 0.9 + 0.05 in
        let v' := Math_max 0.4 (Math_min 0.9 v') in
        mkHsv h' s' v'
    end in
  let '(mkRgbColor newR newG newB) := hsvToRgb (h hsv) (s hsv) (v hsv) in
  let newLuminance := 0.299 * newR + 0.587 * newG + 0.114 * newB in
  let luminanceRatio := initialLuminance / Math_max 1 newLuminance in
  let luminanceFactor := Math_max 0.7 (Math_min 1.3 luminanceRatio) in
  mkRgbColor
    (Math_min 255 (Math_max 0 (Math_round (newR * luminanceFactor))))
    (Math_min 255 (Math_max 0 (Math_round (newG * luminanceFactor))))
    (Math_min 255 (Math_max 0 (Math_round (newB * luminanceFactor)))).

(** Whether [transformGoldColor] reaches one of its two calls of
    [Math.random()]. *)
Definition drawsRandom (r g b : float) (targetColor : MetalColor) : bool :=
  match targetColor with
  | yellow => isCurrentlyRose (rgbToHsv r g b)
  | rose => isCurrentlyYellow (rgbToHsv r g b)
  end.

End ImageProcessing.

(** ** imageProcessing.ts: the pixel loops of the direct HSV transfer *)

Module HsvTransfer.

Import JS Loop TypedArray ImageProcessing.
Local Open Scope float_scope.

(** [isGoldColor]. *)
Definition isGoldColor (hsv : Hsv) : bool :=
  let isYellowGold :=
    (geb (h hsv) 30 && (h hsv <=? 55)) &&
    geb (s hsv) 0.3 && (s hsv <=? 0.95) &&
    geb (v hsv) 0.4 in
  let isRoseGold :=
    ((geb (h hsv) 345 || (h hsv <=? 20)) &&
     geb (s hsv) 0.25 && (s hsv <=? 0.9) &&
     geb (v hsv) 0.4) ||
    (geb (h hsv) 15 && (h hsv <=? 30) &&
     geb (s hsv) 0.4 &&
     geb (v hsv) 0.45) in
  let isWhiteGold :=
    geb (h hsv) 0 && (h hsv <=? 360) &&
    (s hsv <=? 0.15) &&
    geb (v hsv) 0.75 in
  isYellowGold || isRoseGold || isWhiteGold.

(** The colour of the pixel at byte offset [i], in HSV. *)
Definition hsvAt (data : list Z) (i : nat) : Hsv :=
  rgbToHsv (get data i) (get data (i + 1)) (get data (i + 2)).

Record Counts := mkCounts {
  yellowCount : nat;
  roseCount : nat;
  totalMetalPixels : nat
}.

Record ColorAnalysis := mkColorAnalysis {
  isYellowDominant : bool;
  isRoseDominant : bool
}.

(** One round of the sampling loop of [preAnalyzeMetalColors]. *)
Definition countSample (sampleData : list Z) (i : nat) (counts : Counts)
  : Counts :=
  let hsv := hsvAt sampleData i in
  if isGoldColor hsv then
    if geb (h hsv) 30 && (h hsv <=? 55) && geb (s hsv) 0.3 then
      mkCounts (S (yellowCount counts)) (roseCount counts)
               (S (totalMetalPixels counts))
    else if (geb (h hsv) 345 || (h hsv <=? 20)) ||
            (geb (h hsv) 15 && (h hsv <=? 30) && geb (s hsv) 0.4) then
      mkCounts (yellowCount counts) (S (roseCount counts))
               (S (totalMetalPixels counts))
    else
      mkCounts (yellowCount counts) (roseCount counts)
               (S (totalMetalPixels counts))
  else counts.

(** The indices [for (let i = 0; i < n; i += 16)] visits. *)
Definition steps16 (n : nat) : list nat :=
  map (fun p => (16 * p)%nat) (seq 0 ((n + 15) / 16)%nat).

(** [preAnalyzeMetalColors], on the pixels of the downscaled canvas. *)
Definition preAnalyzeMetalColors (sampleData : list Z) : ColorAnalysis :=
  let counts :=
    fold_left (fun counts i => countSample sampleData i counts)
              (steps16 (length sampleData)) (mkCounts 0 0 0) in
  mkColorAnalysis (roseCount counts <? yellowCount counts)%nat
                  (yellowCount counts <? roseCount counts)%nat.

(** The intensity the transformation is applied with. *)
Definition transformIntensity (colorAnalysis : ColorAnalysis)
    (targetColor : MetalColor) : float :=
  let sourceIsTargetColor :=
    (MetalColor_eqb targetColor yellow && isYellowDominant colorAnalysis) ||
    (MetalColor_eqb targetColor rose && isRoseDominant colorAnalysis) in
  if sourceIsTargetColor then 0.5 else 1.0.

(** One round of the pixel loop of [transformMetalColor], at byte offset
    [i].  The state is the buffer and the number of calls of
    [Math.random()] so far; [random n] is the number call [n] returns. *)
Definition transferPixel (random : nat -> float) (targetColor : MetalColor)
    (transformIntensity : float) (i : nat) (st : list Z * nat)
  : list Z * nat :=
  let data := fst st in
  let draws := snd st in
  let r := get data i in
  let g := get data (i + 1) in
  let b := get data (i + 2) in
  let hsv := rgbToHsv r g b in
  if isGoldColor hsv then
    let '(mkRgbColor newR newG newB) :=
      transformGoldColor (random draws) r g b targetColor in
    let draws := if drawsRandom r g b targetColor then S draws else draws in
    if transformIntensity <? 1.0 then
      (set3 i
         (toUint8Clamp (Math_round (r * (1 - transformIntensity)
                                    + newR * transformIntensity)))
         (toUint8Clamp (Math_round (g * (1 - transformIntensity)
                                    + newG * transformIntensity)))
         (toUint8Clamp (Math_round (b * (1 - transformIntensity)
                                    + newB * transformIntensity)))
         data, draws)
    else
      (set3 i (toUint8Clamp newR) (toUint8Clamp newG) (toUint8Clamp newB)
            data, draws)
  else st.

(** The sum of channel [c] over the 3x3 neighbourhood of [(x, y)] in
    [tempData], with [dy] and [dx] counted from 0 instead of -1. *)
Definition neighborSum (tempData : list Z) (width x y c : nat) : float :=
  fold_left
    (fun sum neighborIdx => sum + get tempData neighborIdx)
    (flat_map
       (fun dy =>
          map (fun dx => (((y + dy - 1) * width + (x + dx - 1)) * 4 + c)%nat)
              (seq 0 3))
       (seq 0 3))
    0.

(** One round of the smoothing loops, at [(x, y)]. *)
Definition smoothPixel (tempData : list Z) (width y x : nat) (data : list Z)
  : list Z :=
  let idx := offset width x y in
  if isGoldColor (hsvAt data idx) then
    for_range 0 3
      (fun c data =>
         <[(idx + c)%nat :=
             toUint8Clamp
               (Math_round (0.7 * get data (idx + c)
                            + 0.3 * (neighborSum tempData width x y c / 9)))]>
           data)
      data
  else data.

(** [transformMetalColor] of imageProcessing.ts on the decoded image.
    [sampleData] holds the pixels of the canvas [preAnalyzeMetalColors]
    scales the image to. *)
Definition transformMetalColor (random : nat -> float) (sampleData : list Z)
    (imageData : ImageData) (targetColor : MetalColor) : ImageData :=
  let colorAnalysis := preAnalyzeMetalColors sampleData in
  let transformIntensity := transformIntensity colorAnalysis targetColor in
  let data :=
    fst (fold_left
           (fun st i => transferPixel random targetColor transformIntensity i st)
           (steps4 (length (data imageData))) (data imageData, 0%nat)) in
  let data :=
    if (1000 <? width imageData)%nat || (1000 <? height imageData)%nat then
      let tempData := data in
      for_interior (width imageData) (height imageData)
        (smoothPixel tempData (width imageData)) data
    else data in
  mkImageData data (width imageData) (height imageData).

End HsvTransfer.

(** ** imageProcessingAI.ts: the Lab-profile transfer *)

Module ImageProcessingAI.

Import JS Loop TypedArray.
Local Open Scope float_scope.

Record LabColor := mkLabColor { L : float; a : float; b : float }.
Record RgbColor := mkRgbColor { r : float; g : float; bl : float }.

(** [rgbToLab] of this file: XYZ scaled to [0,1]. *)
Definition rgbToLab (r g b : float) : LabColor :=
  let rLinear := r / 255 in
  let gLinear := g / 255 in
  let bLinear := b / 255 in
  let rLinear := if gtb rLinear 0.04045
                 then Math_pow ((rLinear + 0.055) / 1.055) 2.4
                 else rLinear / 12.92 in
  let gLinear := if gtb gLinear 0.04045
                 then Math_pow ((gLinear + 0.055) / 1.055) 2.4
                 else gLinear / 12.92 in
  let bLinear := if gtb bLinear 0.04045
                 then Math_pow ((bLinear + 0.055) / 1.055) 2.4
                 else bLinear / 12.92 in
  let x := rLinear * 0.4124 + gLinear * 0.3576 + bLinear * 0.1805 in
  let y := rLinear * 0.2126 + gLinear * 0.7152 + bLinear * 0.0722 in
  let z := rLinear * 0.0193 + gLinear * 0.1192 + bLinear * 0.9505 in
  let xr := x / 0.95047 in
  let yr := y / 1.0 in
  let zr := z / 1.08883 in
  let fx := if gtb xr 0.008856 then Math_pow xr (1 / 3)
            else (7.787 * xr) + (16 / 116) in
  let fy := if gtb yr 0.008856 then Math_pow yr (1 / 3)
            else (7.787 * yr) + (16 / 116) in
  let fz := if gtb zr 0.008856 then Math_pow zr (1 / 3)
            else (7.787 * zr) + (16 / 116) in
  mkLabColor ((116 * fy) - 16) (500 * (fx - fy)) (200 * (fy - fz)).

(** [labToRgb] of this file. *)
Definition labToRgb (L a b : float) : RgbColor :=
  let fy := (L + 16) / 116 in
  let fx := a / 500 + fy in
  let fz := fy - b / 200 in
  let xr := if gtb fx 0.206893 then Math_pow fx 3
            else (fx - 16 / 116) / 7.787 in
  let yr := if gtb fy 0.206893 then Math_pow fy 3
            else (fy - 16 / 116) / 7.787 in
  let zr := if gtb fz 0.206893 then Math_pow fz 3
            else (fz - 16 / 116) / 7.787 in
  let x := xr * 0.95047 in
  let y := yr * 1.0 in
  let z := zr * 1.08883 in
  let rLinear := x * 3.2406 + y * -1.5372 + z * -0.4986 in
  let gLinear := x * -0.9689 + y * 1.8758 + z * 0.0415 in
  let bLinear := x * 0.0557 + y * -0.2040 + z * 1.0570 in
  let gamma (linear : float) : float :=
    Math_round
      (255 * (if gtb linear 0.0031308
              then 1.055 * Math_pow linear (1 / 2.4) - 0.055
              else 12.92 * linear)) in
  mkRgbColor (Math_max 0 (Math_min 255 (gamma rLinear)))
             (Math_max 0 (Math_min 255 (gamma gLinear)))
             (Math_max 0 (Math_min 255 (gamma bLinear))).

(** [isMetalInLab]. *)
Definition isMetalInLab (lab : LabColor) : bool :=
  let isYellowGold :=
    gtb (L lab) 65 && (L lab <? 95) &&
    gtb (b lab) 15 && (b lab <? 45) &&
    gtb (a lab) (-5) && (a lab <? 25) in
  let isRoseGold :=
    gtb (L lab) 55 && (L lab <? 85) &&
    gtb (a lab) 10 && (a lab <? 40) &&
    gtb (b lab) 5 && (b lab <? 35) in
  let isWhiteGold :=
    gtb (L lab) 75 && (L lab <? 98) &&
    (Math_abs (a lab) <? 5) &&
    (Math_abs (b lab) <? 10) in
  isYellowGold || isRoseGold || isWhiteGold.

(** [transformGoldWithTexture]. *)
Definition transformGoldWithTexture (r g b : float) (lab : LabColor)
    (targetColor : MetalColor) : RgbColor :=
  let textureDeviation := L lab - 75 in
  let '(newL, newA, newB) :=
    match targetColor with
    | yellow => (85 + textureDeviation * 0.7, 5, 35)
    | rose => (75 + textureDeviation * 0.7, 25, 20)
    end in
  let newL := Math_max 50 (Math_min 95 newL) in
  labToRgb newL newA newB.

(** One round of the pixel loop of [processJewelryImage], at byte offset
    [i]. *)
Definition processPixel (targetColor : MetalColor) (i : nat) (data : list Z)
  : list Z :=
  let r := get data i in
  let g := get data (i + 1) in
  let b := get data (i + 2) in
  let lab := rgbToLab r g b in
  if isMetalInLab lab then
    let newColor := transformGoldWithTexture r g b lab targetColor in
    set3 i (toUint8Clamp (ImageProcessingAI.r newColor))
           (toUint8Clamp (ImageProcessingAI.g newColor))
           (toUint8Clamp (bl newColor)) data
  else data.

(** The value the unsharp mask stores in channel [c] of the pixel at byte
    offset [idx], read from the buffer as it is at that moment. *)
Definition unsharp (data : list Z) (width idx c : nat) : Z :=
  let center := get data (idx + c) in
  let top := get data (idx - width * 4 + c) in
  let bottom := get data (idx + width * 4 + c) in
  let left := get data (idx - 4 + c) in
  let right := get data (idx + 4 + c) in
  let blur := (top + bottom + left + right) / 4 in
  let sharpen := center - blur in
  toUint8Clamp (Math_max 0 (Math_min 255 (center + sharpen * 0.5))).

(** One round of the loops of [enhanceImageQuality], at [(x, y)]:
    transparent pixels are skipped, the others are sharpened in place. *)
Definition enhancePixel (width y x : nat) (data : list Z) : list Z :=
  let idx := offset width x y in
  if get data (idx + 3) <? 128 then data
  else
    for_range 0 3
      (fun c data => <[(idx + c)%nat := unsharp data width idx c]> data)
      data.

(** [enhanceImageQuality], which mutates the buffer it is given. *)
Definition enhanceImageQuality (imageData : ImageData) : ImageData :=
  mkImageData
    (for_interior (width imageData) (height imageData)
       (enhancePixel (width imageData)) (data imageData))
    (width imageData) (height imageData).

(** The pixel loop of [processJewelryImage]. *)
Definition recolor (targetColor : MetalColor) (data : list Z) : list Z :=
  fold_left (fun data i => processPixel targetColor i data)
            (steps4 (length data)) data.

(** [processJewelryImage] on the decoded image. *)
Definition processJewelryImage (imageData : ImageData)
    (targetColor : MetalColor) : ImageData :=
  enhanceImageQuality
    (mkImageData (recolor targetColor (data imageData))
                 (width imageData) (height imageData)).

End ImageProcessingAI.

(** ** ColorTransformer.tsx: the detection of the component *)

Module ColorTransformer.

Import JS Loop TypedArray ImageProcessing.
Local Open Scope float_scope.

(** What the component gets when it loads the image and asks for a canvas
    context. *)
Inductive Loaded :=
  | loadFailed                     (* img.onerror *)
  | noContext                      (* canvas.getContext('2d') is null *)
  | decoded (imageData : ImageData).

(** One round of the sampling loop of [detectColor], at byte offset [i]:
    the two scores.  The [rgbToHsv] of the component computes, step for
    step, what the one of imageProcessing.ts does. *)
Definition scorePixel (data : list Z) (i : nat) (scores : float * float)
  : float * float :=
  let hsv := rgbToHsv (get data i) (get data (i + 1)) (get data (i + 2)) in
  let yellowScore := fst scores in
  let roseScore := snd scores in
  let yellowScore :=
    if geb (h hsv) 30 && (h hsv <=? 55) && geb (s hsv) 0.3 && geb (v hsv) 0.4
    then yellowScore + 1 else yellowScore in
  let roseScore :=
    if (geb (h hsv) 345 || (h hsv <=? 20)) && geb (s hsv) 0.25
       && geb (v hsv) 0.4
    then roseScore + 1 else roseScore in
  let roseScore :=
    if geb (h hsv) 15 && (h hsv <=? 30) && geb (s hsv) 0.4
       && geb (v hsv) 0.45
    then roseScore + 0.8 else roseScore in
  (yellowScore, roseScore).

(** [Math.max(1, Math.floor(data.length / 40000))]. *)
Definition sampleStep (n : nat) : nat :=
  Nat.max 1 (Z.to_nat (Z.of_nat n / 40000)%Z).

(** The indices [for (let i = 0; i < n; i += 4 * sampleStep)] visits. *)
Definition sampleIndices (n : nat) : list nat :=
  let stride := (4 * sampleStep n)%nat in
  map (fun k => (k * stride)%nat) (seq 0 ((n + stride - 1) / stride)%nat).

Definition scores (data : list Z) : float * float :=
  fold_left (fun scores i => scorePixel data i scores)
            (sampleIndices (length data)) (0, 0).

(** [detectColor]: the promise always resolves. *)
Definition detectColor (loaded : Loaded) : MetalColor :=
  match loaded with
  | loadFailed => yellow
  | noContext => yellow
  | decoded imageData =>
      let '(yellowScore, roseScore) := scores (data imageData) in
      if gtb yellowScore roseScore then yellow else rose
  end.

(** The target [handleTransformClick] asks for. *)
Definition oppositeColor (detectedColor : MetalColor) : MetalColor :=
  match detectedColor with
  | yellow => rose
  | rose => yellow
  end.

End ColorTransformer.

(** ** The vocabulary of the specification *)

Module Spec.

Import JS TypedArray.
Local Open Scope float_scope.

(** Every positive entry of a reflection map lies on a masked pixel. *)
Definition inside_mask (metalMask reflectionMap : list Z) : Prop :=
  forall p v, reflectionMap !! p = Some v -> (0 < v)%Z ->
              exists m, metalMask !! p = Some m /\ (0 < m)%Z.

(** The buffer of an [ImageData] holds four bytes for each of its
    [width * height] pixels; its constructor accepts no other length. *)
Definition wellFormed (imageData : ImageData) : Prop :=
  length (data imageData) = (width imageData * height imageData * 4)%nat.

(** The pixels the loops of the post-processor visit: not on the border. *)
Definition interior (width height x y : nat) : bool :=
  (1 <=? x)%nat && (x <? width - 1)%nat &&
  (1 <=? y)%nat && (y <? height - 1)%nat.

(** The colour distance between the pixels at the byte offsets [i] and
    [j]. *)
Definition colorDistance (data : list Z) (i j : nat) : float :=
  Math_sqrt (Math_pow (get data i - get data j) 2 +
             Math_pow (get data (i + 1) - get data (j + 1)) 2 +
             Math_pow (get data (i + 2) - get data (j + 2)) 2).

(** The "colour-distance variance" of a pixel: the mean of its distances to
    the pixels above, below, left and right of it. *)
Definition variance (data : list Z) (width idx : nat) : float :=
  (0 + colorDistance data idx (idx - width * 4)
     + colorDistance data idx (idx + width * 4)
     + colorDistance data idx (idx - 4)
     + colorDistance data idx (idx + 4)) / 4.

(** Channel [c] of the nine pixels of the 3x3 neighbourhood of [(x, y)]. *)
Definition window3x3 (data : list Z) (width x y c : nat) : list Z :=
  [ at_ data (offset width (x - 1) (y - 1) + c);
    at_ data (offset width x (y - 1) + c);
    at_ data (offset width (x + 1) (y - 1) + c);
    at_ data (offset width (x - 1) y + c);
    at_ data (offset width x y + c);
    at_ data (offset width (x + 1) y + c);
    at_ data (offset width (x - 1) (y + 1) + c);
    at_ data (offset width x (y + 1) + c);
    at_ data (offset width (x + 1) (y + 1) + c) ].

(** [m] is the middle one of nine values put in ascending order. *)
Definition is_median (values : list Z) (m : Z) : Prop :=
  exists sorted,
    Permutation values sorted /\ Sorted Z.le sorted /\
    length sorted = 9%nat /\ sorted !! 4%nat = Some m.

(** The elements of a [Uint8ClampedArray] are bytes. *)
Definition validBytes (arr : list Z) : Prop :=
  Forall (fun v => (0 <= v <= 255)%Z) arr.

Definition clampByte (v : Z) : Z := Z.max 0 (Z.min 255 v).

(** The sharpened channel in exact arithmetic:
    [center + 0.3 * (4 center - top - bottom - left - right)], rounded to
    the nearest integer (halves upwards) and clamped to [0,255]. *)
Definition sharpenFormula (center top bottom left right : Z) : Z :=
  clampByte
    ((10 * center + 3 * (4 * center - top - bottom - left - right) + 5) / 10).

(** [f] holds of the [n] integers from [z] on. *)
Fixpoint forall_from (n : nat) (z : Z) (f : Z -> bool) : bool :=
  match n with
  | O => true
  | S n' => f z && forall_from n' (z + 1) f
  end.

(** The number [ofZ z], but with the negative zero for 0: what negating
    and adding bytes yields. *)
Definition ofZ_minus (z : Z) : float :=
  if (z =? 0)%Z then neg_zero else ofZ z.

(** [labToRgb (rgbToLab r g b)] gives [(r, g, b)] back. *)
Definition roundTrips (r g b : Z) : bool :=
  let lab := ColorSpace.rgbToLab (ofZ r) (ofZ g) (ofZ b) in
  let out :=
    ColorSpace.labToRgb (ColorSpace.l lab) (ColorSpace.a lab)
                        (ColorSpace.b lab) in
  (ColorSpace.r out =? ofZ r) && (ColorSpace.g out =? ofZ g) &&
  (ColorSpace.bl out =? ofZ b).

(** A procedure as the runtime runs it: besides its input, the result may
    depend on the number [Math.random()] hands out during the run. *)
Definition Procedure (A B : Type) : Type := float -> A -> B.

(** Two runs on the same input give the same result, whatever the runtime
    draws. *)
Definition deterministic {A B : Type} (run : Procedure A B) : Prop :=
  forall (random1 random2 : float) (input : A),
    run random1 input = run random2 input.

(** The input of the per-pixel transfer of the anchor-interpolation
    strategy: the palette of the direction, the mask, the reflection map,
    the byte offset of the pixel and the buffer. *)
Record AnchorInput := mkAnchorInput {
  palette : list ColorConverter.ColorReference;
  mask : list Z;
  reflections : list Z;
  position : nat;
  buffer : list Z
}.

(** The per-pixel transfer of the anchor-interpolation strategy; its code
    never calls [Math.random()]. *)
Definition anchorInterpolation : Procedure AnchorInput (option (list Z)) :=
  fun _ input =>
    ColorConverter.transformPixel (palette input) (mask input)
      (reflections input) (position input) (buffer input).

(** The per-pixel transfer of the direct-HSV strategy. *)
Definition directHSV
  : Procedure (float * float * float * MetalColor) ImageProcessing.RgbColor :=
  fun random '(r, g, b, targetColor) =>
    ImageProcessing.transformGoldColor random r g b targetColor.



End Spec.

(** ** Concrete images *)

Module Examples.

(** [n] pixels of one colour, opaque. *)
Definition uniform (n : nat) (r g b : Z) : list Z :=
  concat (replicate n [r; g; b; 255%Z]).

(** A 3x3 image of one colour with an outlier in the middle. *)
Definition outlierImage : ImageData :=
  mkImageData
    (uniform 4 10 20 30 ++ [200; 100; 0; 7]%Z ++ uniform 4 10 20 30) 3 3.

(** One pixel of classic yellow gold. *)
Definition goldSwatch : ImageData := mkImageData (uniform 1 212 175 55) 1 1.

(** Uniform 2x2 images: mid-gray, white, black. *)
Definition grayImage : ImageData := mkImageData (uniform 4 128 128 128) 2 2.
Definition whiteImage : ImageData := mkImageData (uniform 4 255 255 255) 2 2.
Definition blackImage : ImageData := mkImageData (uniform 4 0 0 0) 2 2.

(** A uniform 3x3 mid-gray image: more pixels than clusters. *)
Definition grayImage9 : ImageData := mkImageData (uniform 9 128 128 128) 3 3.

(** A dark 3x3 image with a mid-gray pixel in the middle: no pixel has the
    Lab profile of a metal. *)
Definition grayDot : ImageData :=
  mkImageData
    (uniform 4 10 20 30 ++ [100; 100; 100; 255]%Z ++ uniform 4 10 20 30) 3 3.

End Examples.

(** ** Further vocabulary, for the properties of the code beyond the
    specification *)

Module Terms.

Import JS TypedArray.
Local Open Scope float_scope.

(** The luminance [detectReflections] computes for pixel [p]. *)
Definition luminance (imageData : list Z) (p : nat) : float :=
  0.299 * get imageData (p * 4) + 0.587 * get imageData (p * 4 + 1)
  + 0.114 * get imageData (p * 4 + 2).

(** The three reflection levels and their thresholds. *)
Definition reflectionLevel (luminance : float) : Z :=
  if gtb luminance 200 then 255%Z
  else if gtb luminance 170 then 200%Z
  else if gtb luminance 140 then 150%Z
  else 0%Z.

(** The pixel indices a list of clusters holds, cluster by cluster. *)
Definition memberIndices (clusters : list MetalDetector.Cluster) : list nat :=
  flat_map (fun c => map MetalDetector.index (MetalDetector.points c))
           clusters.

(** Every point of a cluster carries the colour of its pixel. *)
Definition labelled (labColors : list ColorSpace.Lab)
    (clusters : list MetalDetector.Cluster) : Prop :=
  Forall (fun c =>
            Forall (fun point =>
                      labColors !! MetalDetector.index point
                      = Some (MetalDetector.lab point))
                   (MetalDetector.points c))
         clusters.

(** Pixel [p] is a point of one of the classified clusters. *)
Definition inCluster (clusters : list MetalDetector.Classified) (p : nat)
  : Prop :=
  exists cluster point,
    cluster ∈ clusters /\ point ∈ MetalDetector.points (fst cluster) /\
    MetalDetector.index point = p.

(** The pixel [(x, y)] has the colour of the four pixels next to it. *)
Definition flatAt (data : list Z) (width x y : nat) : Prop :=
  forall c, (c < 3)%nat ->
    at_ data (offset width x (y - 1) + c) = at_ data (offset width x y + c) /\
    at_ data (offset width x (y + 1) + c) = at_ data (offset width x y + c) /\
    at_ data (offset width (x - 1) y + c) = at_ data (offset width x y + c) /\
    at_ data (offset width (x + 1) y + c) = at_ data (offset width x y + c).

(** What the loops of the direct HSV transfer preserve in a buffer [d]
    that started as [data]: the alpha byte of pixel [p], and its colour
    bytes when its input colour is not a gold. *)
Definition kept (data : list Z) (p : nat) (d : list Z) : Prop :=
  d !! (4 * p + 3)%nat = data !! (4 * p + 3)%nat /\
  (HsvTransfer.isGoldColor (HsvTransfer.hsvAt data (4 * p)) = false ->
   forall c, (c < 3)%nat -> d !! (4 * p + c)%nat = data !! (4 * p + c)%nat).

(** For the neutral colour [(v, v, v)]: [isGoldColor] accepts it, the
    transfer to rose draws no random number, and the colour it yields
    (computed here with the draw 0) has more red than green and blue. *)
Definition neutralTurnsPink (v : Z) : bool :=
  let c := ofZ v in
  let out := ImageProcessing.transformGoldColor 0 c c c rose in
  HsvTransfer.isGoldColor (ImageProcessing.rgbToHsv c c c) &&
  negb (ImageProcessing.drawsRandom c c c rose) &&
  (ImageProcessing.g out <? ImageProcessing.r out) &&
  (ImageProcessing.b out <? ImageProcessing.r out).

(** The Lab colour [processJewelryImage] computes for the pixel at byte
    offset [i]. *)
Definition labAt (data : list Z) (i : nat) : ImageProcessingAI.LabColor :=
  ImageProcessingAI.rgbToLab (get data i) (get data (i + 1))
                             (get data (i + 2)).

(** What the loops of [processJewelryImage] preserve in a buffer [d] that
    started as [data], for the pixel at byte offset [i]: its alpha byte
    and its colour bytes. *)
Definition samePixel (data : list Z) (i : nat) (d : list Z) : Prop :=
  forall c, (c < 4)%nat -> d !! (i + c)%nat = data !! (i + c)%nat.

(** The pixel at byte offset [i] passes none of the three tests by which
    [detectColor] of the component scores a pixel. *)
Definition scoresNothing (data : list Z) (i : nat) : bool :=
  let hsv :=
    ImageProcessing.rgbToHsv (get data i) (get data (i + 1))
                             (get data (i + 2)) in
  let h := ImageProcessing.h hsv in
  let s := ImageProcessing.s hsv in
  let v := ImageProcessing.v hsv in
  negb (geb h 30 && (h <=? 55) && geb s 0.3 && geb v 0.4) &&
  negb ((geb h 345 || (h <=? 20)) && geb s 0.25 && geb v 0.4) &&
  negb (geb h 15 && (h <=? 30) && geb s 0.4 && geb v 0.45).

(** The byte the pixel loop of the direct HSV transfer stores for a channel
    whose input value is [original] and whose transformed value is
    [transformed]: a rounded blend below full intensity, the transformed
    value otherwise. *)
Definition blended (intensity original transformed : float) : Z :=
  if intensity <? 1.0 then
    toUint8Clamp (Math_round (original * (1 - intensity)
                              + transformed * intensity))
  else toUint8Clamp transformed.

(** [hsvToRgb (rgbToHsv r g b)] gives [(r, g, b)] back. *)
Definition hsvRoundTrips (r g b : Z) : bool :=
  let hsv := ImageProcessing.rgbToHsv (ofZ r) (ofZ g) (ofZ b) in
  let out :=
    ImageProcessing.hsvToRgb (ImageProcessing.h hsv) (ImageProcessing.s hsv)
                             (ImageProcessing.v hsv) in
  (ImageProcessing.r out =? ofZ r) && (ImageProcessing.g out =? ofZ g) &&
  (ImageProcessing.b out =? ofZ b).




End Terms.

(** * Properties *)

(** ** Facts about the loops *)

Section LoopFacts.

Import Loop.

Context {S : Type}.

Lemma fold_left_invariant {A : Type} (P : S -> Prop) (f : S -> A -> S)
    (l : list A) (s : S) :
  P s -> (forall a s, a ∈ l -> P s -> P (f s a)) -> P (fold_left f l s).
Proof.
  revert s. induction l as [|a l IH]; intros s Hs Hstep; simpl.
  - exact Hs.
  - apply IH.
    + apply Hstep; [left | exact Hs].
    + intros b s' Hb. apply Hstep. right. exact Hb.
Qed.

Lemma for_range_invariant (P : S -> Prop) (lo hi : nat)
    (body : nat -> S -> S) (s : S) :
  P s -> (forall i s, lo <= i < hi -> P s -> P (body i s)) ->
  P (for_range lo hi body s).
Proof.
  intros Hs Hstep. unfold for_range.
  apply fold_left_invariant; [exact Hs|].
  intros i s' Hi. apply Hstep. apply elem_of_seq in Hi. lia.
Qed.

Lemma for_range_split (lo mid hi : nat) (body : nat -> S -> S) (s : S) :
  lo <= mid <= hi ->
  for_range lo hi body s = for_range mid hi body (for_range lo mid body s).
Proof.
  intros H. unfold for_range.
  replace (hi - lo) with ((mid - lo) + (hi - mid)) by lia.
  rewrite seq_app, fold_left_app.
  replace (lo + (mid - lo)) with mid by lia. reflexivity.
Qed.

Lemma for_range_first (lo hi : nat) (body : nat -> S -> S) (s : S) :
  lo < hi ->
  for_range lo hi body s = for_range (Datatypes.S lo) hi body (body lo s).
Proof.
  intros H. unfold for_range.
  replace (hi - lo) with (Datatypes.S (hi - Datatypes.S lo)) by lia.
  reflexivity.
Qed.

Lemma forM_invariant {K : Type} (P : S -> Prop) (ks : list K)
    (body : K -> S -> option S) (s s' : S) :
  P s ->
  (forall k s s', k ∈ ks -> P s -> body k s = Some s' -> P s') ->
  forM ks body s = Some s' -> P s'.
Proof.
  revert s. induction ks as [|k ks IH]; intros s Hs Hstep; simpl.
  - intros [= <-]. exact Hs.
  - destruct (body k s) as [s1|] eqn:Hk; [|discriminate].
    apply IH.
    + apply (Hstep k s s1); [left | exact Hs | exact Hk].
    + intros k' t t' Hk'. apply Hstep. right. exact Hk'.
Qed.

Lemma forM_total {K : Type} (ks : list K) (body : K -> S -> option S) (s : S) :
  (forall k s, k ∈ ks -> is_Some (body k s)) -> is_Some (forM ks body s).
Proof.
  revert s. induction ks as [|k ks IH]; intros s Hstep; simpl.
  - eexists. reflexivity.
  - destruct (Hstep k s) as [s1 Hk]; [left|]. rewrite Hk.
    apply IH. intros k' t Hk'. apply Hstep. right. exact Hk'.
Qed.

End LoopFacts.

Lemma elem_of_steps4 (n i : nat) :
  i ∈ Loop.steps4 n -> exists p, i = 4 * p.
Proof.
  unfold Loop.steps4. intros H. apply list_elem_of_fmap in H.
  destruct H as (p & -> & _). exists p. reflexivity.
Qed.

(** Loops over a typed array that preserve its length and leave an index
    alone at every round. *)
Section ArrayLoops.

Import Loop.

Lemma for_range_length (lo hi : nat) (body : nat -> list Z -> list Z)
    (init : list Z) :
  (forall i out, lo <= i < hi -> length (body i out) = length out) ->
  length (for_range lo hi body init) = length init.
Proof.
  intros H.
  apply (for_range_invariant (fun out => length out = length init));
    [reflexivity|].
  intros i out Hi Hout. rewrite H; assumption.
Qed.

Lemma for_range_lookup_frame (lo hi : nat) (body : nat -> list Z -> list Z)
    (init : list Z) (j : nat) :
  (forall i out, lo <= i < hi -> body i out !! j = out !! j) ->
  for_range lo hi body init !! j = init !! j.
Proof.
  intros H.
  apply (for_range_invariant (fun out => out !! j = init !! j));
    [reflexivity|].
  intros i out Hi Hout. rewrite H; assumption.
Qed.

Lemma for_range_lookup_at (lo hi : nat) (body : nat -> list Z -> list Z)
    (init : list Z) (j i : nat) (v : Z) :
  lo <= i < hi ->
  (forall k out, lo <= k < hi -> length (body k out) = length out) ->
  j < length init ->
  (forall out, j < length out -> body i out !! j = Some v) ->
  (forall k out, i < k < hi -> body k out !! j = out !! j) ->
  for_range lo hi body init !! j = Some v.
Proof.
  intros Hi Hlen Hj Hat Hframe.
  rewrite (for_range_split lo i hi) by lia.
  rewrite (for_range_first i hi) by lia.
  rewrite for_range_lookup_frame.
  - apply Hat. rewrite for_range_length; [exact Hj|].
    intros k out Hk. apply Hlen. lia.
  - intros k out Hk. apply Hframe. lia.
Qed.

End ArrayLoops.

(** ** The anchor-interpolation transfer: what the pixel loop writes *)

Section TransferFrame.

Import Loop TypedArray ColorConverter.

Lemma set3_length (i : nat) (r g b : Z) (arr : list Z) :
  length (set3 i r g b arr) = length arr.
Proof. unfold set3. rewrite !length_insert. reflexivity. Qed.

Lemma set3_lookup_ne (i j : nat) (r g b : Z) (arr : list Z) :
  j <> i -> j <> i + 1 -> j <> i + 2 -> set3 i r g b arr !! j = arr !! j.
Proof.
  intros H0 H1 H2. unfold set3.
  rewrite !list_lookup_insert_ne by lia. reflexivity.
Qed.

Lemma positive_zero (mask : list Z) (p : nat) :
  mask !! p = Some 0%Z -> positive (mask !! p) = false.
Proof. intros ->. reflexivity. Qed.

Lemma positive_inv (mask : list Z) (p : nat) :
  positive (mask !! p) = true -> exists m, mask !! p = Some m /\ (0 < m)%Z.
Proof.
  unfold positive. destruct (mask !! p) as [m|]; [|discriminate].
  intros H. exists m. split; [reflexivity|]. apply Z.ltb_lt. exact H.
Qed.

Lemma transformLabColor_total (lab : ColorSpace.Lab)
    (refs : list ColorReference) (strength : float) :
  refs <> [] -> is_Some (transformLabColor lab refs strength).
Proof.
  intros Hne. unfold transformLabColor.
  destruct (JS.strict_eq _ _).
  - destruct refs as [|ref0 refs]; [contradiction|]. eexists. reflexivity.
  - eexists. reflexivity.
Qed.

Lemma colorRefs_nonempty (sourceColor targetColor : MetalColor) :
  colorRefs sourceColor targetColor <> [].
Proof. destruct sourceColor, targetColor; discriminate. Qed.

Lemma transformPixel_total (refs : list ColorReference)
    (metalMask reflectionMap : list Z) (i : nat) (data : list Z) :
  refs <> [] -> is_Some (transformPixel refs metalMask reflectionMap i data).
Proof.
  intros Hne. unfold transformPixel.
  destruct (positive _); [|eexists; reflexivity].
  destruct (transformLabColor_total
              (ColorSpace.rgbToLab (get data i) (get data (i + 1))
                                   (get data (i + 2)))
              refs (get reflectionMap (i / 4)) Hne) as [t Ht].
  rewrite Ht. eexists. reflexivity.
Qed.

(** A round of the loop keeps the length, writes nothing when the pixel is
    not masked, and otherwise writes only at [i], [i+1], [i+2]. *)
Lemma transformPixel_frame (refs : list ColorReference)
    (metalMask reflectionMap : list Z) (i : nat) (data data' : list Z) :
  transformPixel refs metalMask reflectionMap i data = Some data' ->
  length data' = length data /\
  (positive (metalMask !! (i / 4)) = false -> data' = data) /\
  (forall j, j <> i -> j <> i + 1 -> j <> i + 2 -> data' !! j = data !! j).
Proof.
  unfold transformPixel.
  destruct (positive (metalMask !! (i / 4))) eqn:Hm.
  - destruct (transformLabColor _ _ _) as [t|]; [|discriminate].
    intros [= <-]. split; [apply set3_length|]. split; [discriminate|].
    intros j H0 H1 H2. apply set3_lookup_ne; assumption.
  - intros [= <-]. auto.
Qed.

Lemma transformMetalColor_total (data : list Z)
    (sourceColor targetColor : MetalColor) (metalMask reflectionMap : list Z) :
  is_Some (transformMetalColor data sourceColor targetColor metalMask
                               reflectionMap).
Proof.
  unfold transformMetalColor. apply forM_total.
  intros k s _. apply transformPixel_total, colorRefs_nonempty.
Qed.

Lemma transformMetalColor_length (data out : list Z)
    (sourceColor targetColor : MetalColor) (metalMask reflectionMap : list Z) :
  transformMetalColor data sourceColor targetColor metalMask reflectionMap
    = Some out ->
  length out = length data.
Proof.
  unfold transformMetalColor.
  apply (forM_invariant (fun d => length d = length data)); [reflexivity|].
  intros k s s' _ Hs Hk.
  apply transformPixel_frame in Hk. destruct Hk as (Hl & _). congruence.
Qed.

Lemma transformMetalColor_unmasked (data out : list Z)
    (sourceColor targetColor : MetalColor) (metalMask reflectionMap : list Z)
    (p c : nat) :
  transformMetalColor data sourceColor targetColor metalMask reflectionMap
    = Some out ->
  metalMask !! p = Some 0%Z -> c < 4 ->
  out !! (4 * p + c) = data !! (4 * p + c).
Proof.
  intros Hrun Hp Hc. revert Hrun. unfold transformMetalColor.
  apply (forM_invariant (fun d => d !! (4 * p + c) = data !! (4 * p + c)));
    [reflexivity|].
  intros k s s' Hk Hs Hstep.
  apply elem_of_steps4 in Hk. destruct Hk as [q ->].
  apply transformPixel_frame in Hstep. destruct Hstep as (_ & Hskip & Hframe).
  replace (4 * q / 4) with q in Hskip
    by (rewrite Nat.mul_comm, Nat.div_mul; lia).
  destruct (decide (q = p)) as [->|Hne].
  - rewrite Hskip; [exact Hs|]. apply positive_zero. exact Hp.
  - rewrite Hframe by lia. exact Hs.
Qed.

Lemma transformMetalColor_alpha (data out : list Z)
    (sourceColor targetColor : MetalColor) (metalMask reflectionMap : list Z)
    (p : nat) :
  transformMetalColor data sourceColor targetColor metalMask reflectionMap
    = Some out ->
  out !! (4 * p + 3) = data !! (4 * p + 3).
Proof.
  unfold transformMetalColor.
  apply (forM_invariant (fun d => d !! (4 * p + 3) = data !! (4 * p + 3)));
    [reflexivity|].
  intros k s s' Hk Hs Hstep.
  apply elem_of_steps4 in Hk. destruct Hk as [q ->].
  apply transformPixel_frame in Hstep. destruct Hstep as (_ & _ & Hframe).
  rewrite Hframe by lia. exact Hs.
Qed.

End TransferFrame.

(** C3.  Whatever the pixel buffer, the metal mask, the reflection map and
    the direction, [transformMetalColor] returns a buffer of the same length
    in which every channel of every pixel whose mask entry is 0 holds the
    value it held in the input. *)
Theorem transformMetalColor_preserves_unmasked (data : list Z)
    (sourceColor targetColor : MetalColor) (metalMask reflectionMap : list Z) :
  exists out,
    ColorConverter.transformMetalColor data sourceColor targetColor metalMask
                                       reflectionMap = Some out /\
    length out = length data /\
    forall p c, metalMask !! p = Some 0%Z -> c < 4 ->
                out !! (4 * p + c) = data !! (4 * p + c).
Proof.
  destruct (transformMetalColor_total data sourceColor targetColor metalMask
                                      reflectionMap) as [out Hout].
  exists out. split; [exact Hout|]. split.
  - eapply transformMetalColor_length; exact Hout.
  - intros p c Hp Hc. eapply transformMetalColor_unmasked; eassumption.
Qed.

(** ** The reflection map stays inside the mask *)

Section Reflections.

Import Loop TypedArray MetalDetector Spec.

Lemma zeros_inside_mask (metalMask : list Z) (n : nat) :
  inside_mask metalMask (zeros n).
Proof.
  intros p v Hp Hv. unfold zeros in Hp.
  apply lookup_replicate in Hp. destruct Hp as [-> _]. lia.
Qed.

Lemma insert_inside_mask (metalMask reflectionMap : list Z) (p : nat) (v : Z) :
  TypedArray.positive (metalMask !! p) = true ->
  inside_mask metalMask reflectionMap ->
  inside_mask metalMask (<[p := v]> reflectionMap).
Proof.
  intros Hm Hin q w Hq Hw.
  destruct (decide (p = q)) as [<-|Hne].
  - apply positive_inv. exact Hm.
  - rewrite list_lookup_insert_ne in Hq by exact Hne. eapply Hin; eassumption.
Qed.

Lemma reflectionAt_inside_mask (imageData : list Z) (width : nat)
    (metalMask : list Z) (i j : nat) (reflectionMap : list Z) :
  inside_mask metalMask reflectionMap ->
  inside_mask metalMask
    (reflectionAt imageData width metalMask i j reflectionMap).
Proof.
  intros Hin. unfold reflectionAt.
  destruct (TypedArray.positive (metalMask !! (i * width + j))) eqn:Hm;
    [|exact Hin].
  repeat match goal with
         | |- context [if ?c then _ else _] => destruct c
         end;
    apply insert_inside_mask; assumption.
Qed.

Lemma detectReflections_inside_mask (imageData : list Z) (width height : nat)
    (metalMask : list Z) :
  inside_mask metalMask (detectReflections imageData width height metalMask).
Proof.
  unfold detectReflections.
  apply for_range_invariant; [apply zeros_inside_mask|].
  intros i out _ Hout.
  apply for_range_invariant; [exact Hout|].
  intros j out' _ Hout'. apply reflectionAt_inside_mask. exact Hout'.
Qed.

Lemma detectMetalType_reflectionMap (imageData : ImageData)
    (result : DetectionResult) :
  detectMetalType imageData = resolve result ->
  reflectionMap result =
    detectReflections (data imageData) (width imageData) (height imageData)
                      (metalMask result).
Proof.
  unfold detectMetalType.
  destruct (metalClusters imageData) as [|dominant rest]; [discriminate|].
  intros [= <-]. reflexivity.
Qed.

End Reflections.

(** C6.  For every image on which detection succeeds and every pixel index,
    a reflection strength above 0 implies that the metal mask is set there:
    the reflection map is zero at every unmasked pixel. *)
Theorem reflection_implies_mask (imageData : ImageData)
    (result : MetalDetector.DetectionResult) (p : nat) (v : Z) :
  MetalDetector.detectMetalType imageData = resolve result ->
  MetalDetector.reflectionMap result !! p = Some v ->
  (0 < v)%Z ->
  exists m, MetalDetector.metalMask result !! p = Some m /\ (0 < m)%Z.
Proof.
  intros Hrun Hp Hv.
  rewrite (detectMetalType_reflectionMap _ _ Hrun) in Hp.
  eapply detectReflections_inside_mask; eassumption.
Qed.

(** The theorem at one pixel of yellow gold: the pixel is masked and its
    reflection strength is 200. *)
Lemma reflection_implies_mask_witness :
  exists result,
    MetalDetector.detectMetalType Examples.goldSwatch = resolve result /\
    MetalDetector.reflectionMap result !! 0 = Some 200%Z /\
    exists m, MetalDetector.metalMask result !! 0 = Some m /\ (0 < m)%Z.
Proof.
  eexists. split; [vm_compute; reflexivity|]. split; [reflexivity|].
  apply (reflection_implies_mask Examples.goldSwatch _ 0 200%Z).
  - vm_compute. reflexivity.
  - reflexivity.
  - lia.
Defined.

(** ** Loops that write the colour channels of interior pixels *)

Section InteriorWrites.

Import Loop TypedArray Spec.

Lemma setChannels_unfold (idx : nat) (value : nat -> Z) (output : list Z) :
  setChannels idx value output =
  <[idx + 2 := value 2]> (<[idx + 1 := value 1]> (<[idx + 0 := value 0]> output)).
Proof. reflexivity. Qed.

Lemma setChannels_length (idx : nat) (value : nat -> Z) (output : list Z) :
  length (setChannels idx value output) = length output.
Proof. rewrite setChannels_unfold, !length_insert. reflexivity. Qed.

Lemma setChannels_lookup_ne (idx j : nat) (value : nat -> Z) (output : list Z) :
  j < idx \/ idx + 3 <= j ->
  setChannels idx value output !! j = output !! j.
Proof.
  intros H. rewrite setChannels_unfold.
  rewrite !list_lookup_insert_ne by lia. reflexivity.
Qed.

Lemma setChannels_lookup (idx c : nat) (value : nat -> Z) (output : list Z) :
  c < 3 -> idx + c < length output ->
  setChannels idx value output !! (idx + c) = Some (value c).
Proof.
  intros Hc Hlen. rewrite setChannels_unfold.
  destruct c as [|[|[|c]]]; [| | |lia].
  - rewrite !list_lookup_insert_ne by lia.
    apply list_lookup_insert_eq. lia.
  - rewrite list_lookup_insert_ne by lia.
    apply list_lookup_insert_eq. rewrite length_insert. lia.
  - apply list_lookup_insert_eq. rewrite !length_insert. lia.
Qed.

(** Two pixels of one image have offsets four bytes apart or more. *)
Lemma offset_apart (width x y x' y' : nat) :
  x < width -> x' < width -> (x, y) <> (x', y') ->
  offset width x y + 4 <= offset width x' y' \/
  offset width x' y' + 4 <= offset width x y.
Proof.
  intros Hx Hx' Hne. unfold offset.
  destruct (lt_eq_lt_dec y y') as [[Hlt|Heq]|Hgt].
  - left. assert (y * width + width <= y' * width) by nia. lia.
  - subst y'. assert (x <> x') by congruence. lia.
  - right. assert (y' * width + width <= y * width) by nia. lia.
Qed.

Lemma interior_bounds (width height x y : nat) :
  interior width height x y = true <->
  1 <= x < width - 1 /\ 1 <= y < height - 1.
Proof.
  unfold interior. rewrite !andb_true_iff.
  rewrite !Nat.leb_le, !Nat.ltb_lt. lia.
Qed.

Variable width height : nat.
Variable writes : nat -> nat -> bool.
Variable value : nat -> nat -> nat -> Z.

(** The shape of the loop bodies of the post-processor. *)
Let step (y x : nat) (output : list Z) : list Z :=
  if writes y x then setChannels (offset width x y) (value y x) output
  else output.

Lemma step_length (y x : nat) (output : list Z) :
  length (step y x output) = length output.
Proof.
  unfold step. destruct (writes y x); [apply setChannels_length|reflexivity].
Qed.

Lemma step_other_pixel (y x y' x' c : nat) (output : list Z) :
  x < width -> x' < width -> c < 4 -> (x, y) <> (x', y') ->
  step y' x' output !! (offset width x y + c) = output !! (offset width x y + c).
Proof.
  intros Hx Hx' Hc Hne. unfold step. destruct (writes y' x'); [|reflexivity].
  apply setChannels_lookup_ne.
  destruct (offset_apart width x y x' y' Hx Hx' Hne); lia.
Qed.

Lemma row_length (y : nat) (output : list Z) :
  length (for_range 1 (width - 1) (step y) output) = length output.
Proof. apply for_range_length. intros x out _. apply step_length. Qed.

Lemma for_interior_length (init : list Z) :
  length (for_interior width height step init) = length init.
Proof.
  unfold for_interior. apply for_range_length.
  intros y out _. apply row_length.
Qed.

(** A channel that no round writes keeps its value. *)
Lemma for_interior_untouched (init : list Z) (x y c : nat) :
  x < width -> c < 4 ->
  interior width height x y && (c <? 3) && writes y x = false ->
  for_interior width height step init !! (offset width x y + c)
  = init !! (offset width x y + c).
Proof.
  intros Hx Hc Hno. unfold for_interior.
  apply for_range_lookup_frame. intros y' out Hy'.
  apply for_range_lookup_frame. intros x' out' Hx'.
  destruct (decide ((x, y) = (x', y'))) as [Heq|Hne].
  - assert (x' = x) as -> by congruence.
    assert (y' = y) as -> by congruence.
    assert (interior width height x y = true) as Hint
        by (apply interior_bounds; lia).
    rewrite Hint in Hno. simpl in Hno.
    unfold step. destruct (writes y x) eqn:Hw; [|reflexivity].
    rewrite andb_true_r in Hno. apply Nat.ltb_ge in Hno.
    apply setChannels_lookup_ne. lia.
  - apply step_other_pixel; [lia | lia | lia | exact Hne].
Qed.

(** A channel that a round writes holds the value of that round. *)
Lemma for_interior_written (init : list Z) (x y c : nat) :
  offset width x y + c < length init -> c < 3 ->
  interior width height x y = true -> writes y x = true ->
  for_interior width height step init !! (offset width x y + c)
  = Some (value y x c).
Proof.
  intros Hlen Hc Hint Hw. apply interior_bounds in Hint.
  unfold for_interior.
  apply (for_range_lookup_at _ _ _ _ _ y); [lia | | exact Hlen | | ].
  - intros y' out _. apply row_length.
  - intros out Hout.
    apply (for_range_lookup_at _ _ _ _ _ x); [lia | | exact Hout | | ].
    + intros x' out' _. apply step_length.
    + intros out' Hout'. unfold step. rewrite Hw.
      apply setChannels_lookup; assumption.
    + intros x' out' Hx'. apply step_other_pixel; [lia | lia | lia |].
      intros Heq. injection Heq. intros. lia.
  - intros y' out Hy'. apply for_range_lookup_frame. intros x' out' Hx'.
    apply step_other_pixel; [lia | lia | lia |].
    intros Heq. injection Heq. intros. lia.
Qed.

(** The buffer after the loops, channel by channel. *)
Lemma for_interior_lookup (init : list Z) (x y c : nat) :
  x < width -> c < 4 -> offset width x y + c < length init ->
  for_interior width height step init !! (offset width x y + c)
  = Some (if interior width height x y && (c <? 3) && writes y x
          then value y x c
          else TypedArray.at_ init (offset width x y + c)).
Proof.
  intros Hx Hc Hlen.
  destruct (interior width height x y && (c <? 3) && writes y x) eqn:Hcase.
  - apply andb_true_iff in Hcase. destruct Hcase as [Hcase Hw].
    apply andb_true_iff in Hcase. destruct Hcase as [Hint Hc3].
    apply Nat.ltb_lt in Hc3. apply for_interior_written; assumption.
  - rewrite for_interior_untouched by assumption.
    unfold at_. destruct (init !! (offset width x y + c)) as [v|] eqn:Hv;
      [reflexivity|].
    apply lookup_ge_None in Hv. lia.
Qed.

(** The fourth channel of every pixel is never written. *)
Lemma for_interior_alpha (init : list Z) (p : nat) :
  for_interior width height step init !! (4 * p + 3) = init !! (4 * p + 3).
Proof.
  unfold for_interior.
  apply for_range_lookup_frame. intros y' out Hy'.
  apply for_range_lookup_frame. intros x' out' Hx'.
  unfold step. destruct (writes y' x'); [|reflexivity].
  apply setChannels_lookup_ne. unfold offset. lia.
Qed.

End InteriorWrites.

(** ** Artifact suppression *)

Section Artifacts.

Import JS Loop TypedArray ImageEnhancer Spec.

Lemma insertSorted_perm (v : Z) (sorted : list Z) :
  Permutation (v :: sorted) (insertSorted v sorted).
Proof.
  induction sorted as [|w rest IH]; simpl.
  - reflexivity.
  - destruct (v <=? w)%Z.
    + reflexivity.
    + rewrite perm_swap. apply perm_skip. exact IH.
Qed.

Lemma insertSorted_sorted (v : Z) (sorted : list Z) :
  Sorted Z.le sorted -> Sorted Z.le (insertSorted v sorted).
Proof.
  induction sorted as [|w rest IH]; intros Hs; simpl.
  - repeat constructor.
  - destruct (v <=? w)%Z eqn:Hvw.
    + constructor; [exact Hs|]. constructor. apply Z.leb_le. exact Hvw.
    + apply Z.leb_gt in Hvw. apply Sorted_inv in Hs. destruct Hs as [Hs Hhd].
      constructor; [apply IH; exact Hs|].
      destruct rest as [|u rest]; simpl.
      * constructor. lia.
      * destruct (v <=? u)%Z; constructor; [lia|].
        apply HdRel_inv in Hhd. exact Hhd.
Qed.

Lemma sortNumeric_perm (values : list Z) :
  Permutation values (sortNumeric values).
Proof.
  induction values as [|v values IH]; simpl.
  - reflexivity.
  - rewrite <- insertSorted_perm. apply perm_skip. exact IH.
Qed.

Lemma sortNumeric_sorted (values : list Z) : Sorted Z.le (sortNumeric values).
Proof.
  induction values as [|v values IH]; simpl.
  - constructor.
  - apply insertSorted_sorted. exact IH.
Qed.

Lemma neighborhood_length (data : list Z) (width x y c : nat) :
  length (neighborhood data width x y c) = 9.
Proof. reflexivity. Qed.

(** The value the filter writes is the middle one of the nine values of the
    neighbourhood in ascending order. *)
Lemma median_is_median (data : list Z) (width x y c : nat) :
  is_median (neighborhood data width x y c) (median data width x y c).
Proof.
  exists (sortNumeric (neighborhood data width x y c)).
  assert (length (sortNumeric (neighborhood data width x y c)) = 9) as Hlen.
  { rewrite <- (Permutation_length (sortNumeric_perm _)).
    apply neighborhood_length. }
  split; [apply sortNumeric_perm|]. split; [apply sortNumeric_sorted|].
  split; [exact Hlen|].
  unfold median, at_.
  destruct (sortNumeric (neighborhood data width x y c) !! 4) as [m|] eqn:Hm;
    [reflexivity|].
  apply lookup_ge_None in Hm. lia.
Qed.

(** Away from the first row and column, the values the filter gathers are
    the 3x3 neighbourhood. *)
Lemma neighborhood_window (data : list Z) (width x y c : nat) :
  1 <= x -> 1 <= y ->
  neighborhood data width x y c = window3x3 data width x y c.
Proof.
  intros Hx Hy. unfold neighborhood, window3x3, offset. simpl.
  replace (y + 0 - 1) with (y - 1) by lia.
  replace (y + 1 - 1) with y by lia.
  replace (y + 2 - 1) with (y + 1) by lia.
  replace (x + 0 - 1) with (x - 1) by lia.
  replace (x + 1 - 1) with x by lia.
  replace (x + 2 - 1) with (x + 1) by lia.
  reflexivity.
Qed.

Lemma neighborDistance_inside (data : list Z) (idx : nat) (neighborIdx : Z) :
  (0 <= neighborIdx < Z.of_nat (length data))%Z ->
  neighborDistance data idx neighborIdx
  = Some (colorDistance data idx (Z.to_nat neighborIdx)).
Proof.
  intros H. unfold neighborDistance.
  replace (0 <=? neighborIdx)%Z with true by (symmetry; apply Z.leb_le; lia).
  replace (neighborIdx <? Z.of_nat (length data))%Z with true
    by (symmetry; apply Z.ltb_lt; lia).
  reflexivity.
Qed.

(** On an interior pixel all four neighbours exist, and [isArtifact] tests
    the mean of the four distances against 40. *)
Lemma isArtifact_variance (imageData : ImageData) (x y : nat) :
  wellFormed imageData ->
  interior (width imageData) (height imageData) x y = true ->
  isArtifact (data imageData) (offset (width imageData) x y) (width imageData)
  = gtb (variance (data imageData) (width imageData)
                  (offset (width imageData) x y)) 40.
Proof.
  intros Hwf Hint. apply interior_bounds in Hint.
  unfold wellFormed in Hwf.
  set (w := width imageData) in *. set (h := height imageData) in *.
  set (d := data imageData) in *.
  assert (offset w x y + w * 4 + 4 <= length d) as Hbelow.
  { unfold offset. rewrite Hwf.
    assert ((y + 1) * w + x + 1 <= w * h) by nia. lia. }
  assert (w * 4 + 4 <= offset w x y) as Habove.
  { unfold offset. assert (w <= y * w) by nia. lia. }
  unfold isArtifact. simpl fold_left.
  rewrite !neighborDistance_inside by lia.
  replace (Z.to_nat (Z.of_nat (offset w x y) - Z.of_nat w * 4))
    with (offset w x y - w * 4) by lia.
  replace (Z.to_nat (Z.of_nat (offset w x y) + Z.of_nat w * 4))
    with (offset w x y + w * 4) by lia.
  replace (Z.to_nat (Z.of_nat (offset w x y) - 4))
    with (offset w x y - 4) by lia.
  replace (Z.to_nat (Z.of_nat (offset w x y) + 4))
    with (offset w x y + 4) by lia.
  reflexivity.
Qed.

Lemma removeArtifacts_lookup (imageData : ImageData) (x y c : nat) :
  x < width imageData -> c < 4 ->
  offset (width imageData) x y + c < length (data imageData) ->
  data (removeArtifacts imageData) !! (offset (width imageData) x y + c)
  = Some (if interior (width imageData) (height imageData) x y && (c <? 3)
             && isArtifact (data imageData) (offset (width imageData) x y)
                           (width imageData)
          then median (data imageData) (width imageData) x y c
          else at_ (data imageData) (offset (width imageData) x y + c)).
Proof.
  intros Hx Hc Hlen.
  exact (for_interior_lookup (width imageData) (height imageData)
           (fun y x => isArtifact (data imageData)
                         (offset (width imageData) x y) (width imageData))
           (fun y x => median (data imageData) (width imageData) x y)
           (data imageData) x y c Hx Hc Hlen).
Qed.

Lemma removeArtifacts_length (imageData : ImageData) :
  length (data (removeArtifacts imageData)) = length (data imageData).
Proof.
  exact (for_interior_length (width imageData) (height imageData)
           (fun y x => isArtifact (data imageData)
                         (offset (width imageData) x y) (width imageData))
           (fun y x => median (data imageData) (width imageData) x y)
           (data imageData)).
Qed.

Lemma removeArtifacts_alpha (imageData : ImageData) (p : nat) :
  data (removeArtifacts imageData) !! (4 * p + 3)
  = data imageData !! (4 * p + 3).
Proof.
  exact (for_interior_alpha (width imageData) (height imageData)
           (fun y x => isArtifact (data imageData)
                         (offset (width imageData) x y) (width imageData))
           (fun y x => median (data imageData) (width imageData) x y)
           (data imageData) p).
Qed.

Lemma pixel_inside (imageData : ImageData) (x y c : nat) :
  wellFormed imageData ->
  x < width imageData -> y < height imageData -> c < 4 ->
  offset (width imageData) x y + c < length (data imageData).
Proof.
  unfold wellFormed, offset. intros -> Hx Hy Hc.
  assert (y * width imageData + x + 1 <= width imageData * height imageData)
    by nia.
  lia.
Qed.

End Artifacts.

(** C7.  In a well-formed image, [removeArtifacts] keeps the dimensions and,
    for every pixel and channel: an interior pixel whose colour-distance
    variance against its four neighbours exceeds 40 gets, in each of the
    channels R, G, B, the median of the 3x3 neighbourhood of the input (the
    middle of the nine sorted values); every other interior pixel, every
    border pixel, and every alpha channel keeps its input value. *)
Theorem removeArtifacts_median (imageData : ImageData) :
  Spec.wellFormed imageData ->
  let w := width imageData in
  let h := height imageData in
  let input := data imageData in
  let out := ImageEnhancer.removeArtifacts imageData in
  width out = w /\ height out = h /\ length (data out) = length input /\
  forall x y c, x < w -> y < h -> c < 4 ->
    data out !! (TypedArray.offset w x y + c)
    = Some (if Spec.interior w h x y && (c <? 3)
               && JS.gtb (Spec.variance input w (TypedArray.offset w x y)) 40
            then ImageEnhancer.median input w x y c
            else TypedArray.at_ input (TypedArray.offset w x y + c)) /\
    (Spec.interior w h x y = true ->
     Spec.is_median (Spec.window3x3 input w x y c)
                    (ImageEnhancer.median input w x y c)).
Proof.
  intros Hwf w h input out.
  split; [reflexivity|]. split; [reflexivity|].
  split; [apply removeArtifacts_length|].
  intros x y c Hx Hy Hc. split.
  - subst out w h input.
    rewrite removeArtifacts_lookup
      by (try apply pixel_inside; assumption).
    destruct (Spec.interior (width imageData) (height imageData) x y)
      eqn:Hint; [|reflexivity].
    rewrite isArtifact_variance by assumption. reflexivity.
  - intros Hint. apply interior_bounds in Hint.
    rewrite <- neighborhood_window by lia. apply median_is_median.
Qed.

(** The theorem at the 3x3 image with an outlier in the middle. *)
Lemma removeArtifacts_median_witness :
  data (ImageEnhancer.removeArtifacts Examples.outlierImage) !! 16
  = Some 10%Z.
Proof.
  pose proof (removeArtifacts_median Examples.outlierImage eq_refl) as H.
  destruct H as (_ & _ & _ & H).
  destruct (H 1 1 0 ltac:(simpl; lia) ltac:(simpl; lia) ltac:(lia)) as [H0 _].
  exact H0.
Defined.

(** ** The sharpening fallback *)

Section Fallback.

Import JS Loop TypedArray ImageEnhancer Spec.

Lemma enhanceImageStandard_lookup (imageData : ImageData) (x y c : nat) :
  x < width imageData -> c < 4 ->
  offset (width imageData) x y + c < length (data imageData) ->
  data (enhanceImageStandard imageData) !! (offset (width imageData) x y + c)
  = Some (if interior (width imageData) (height imageData) x y && (c <? 3)
          then sharpened (data imageData) (width imageData) x y c
          else at_ (data imageData) (offset (width imageData) x y + c)).
Proof.
  intros Hx Hc Hlen.
  rewrite <- (andb_true_r (interior _ _ x y && (c <? 3))).
  exact (for_interior_lookup (width imageData) (height imageData)
           (fun _ _ => true)
           (fun y x => sharpened (data imageData) (width imageData) x y)
           (data imageData) x y c Hx Hc Hlen).
Qed.

Lemma enhanceImageStandard_length (imageData : ImageData) :
  length (data (enhanceImageStandard imageData)) = length (data imageData).
Proof.
  exact (for_interior_length (width imageData) (height imageData)
           (fun _ _ => true)
           (fun y x => sharpened (data imageData) (width imageData) x y)
           (data imageData)).
Qed.

Lemma enhanceImageStandard_alpha (imageData : ImageData) (p : nat) :
  data (enhanceImageStandard imageData) !! (4 * p + 3)
  = data imageData !! (4 * p + 3).
Proof.
  exact (for_interior_alpha (width imageData) (height imageData)
           (fun _ _ => true)
           (fun y x => sharpened (data imageData) (width imageData) x y)
           (data imageData) p).
Qed.

Lemma removeArtifacts_wellFormed (imageData : ImageData) :
  wellFormed imageData -> wellFormed (removeArtifacts imageData).
Proof.
  unfold wellFormed. intros H. rewrite removeArtifacts_length. exact H.
Qed.

Lemma enhanceImageStandard_wellFormed (imageData : ImageData) :
  wellFormed imageData -> wellFormed (enhanceImageStandard imageData).
Proof.
  unfold wellFormed. intros H. rewrite enhanceImageStandard_length. exact H.
Qed.

(** Reading an array four bytes at a time gives the array back. *)
Lemma chunks_rebuild (n : nat) (l : list Z) :
  length l = n * 4 ->
  flat_map (fun p => map (fun c => at_ l (p * 4 + c)) (seq 0 4)) (seq 0 n) = l.
Proof.
  revert l. induction n as [|n IH]; intros l Hl.
  - destruct l; [reflexivity|discriminate].
  - destruct l as [|b0 [|b1 [|b2 [|b3 l]]]]; try discriminate.
    simpl in Hl. injection Hl as Hl.
    change (seq 0 (S n)) with (0 :: seq 1 n). cbn [flat_map].
    rewrite <- seq_shift.
    rewrite flat_map_concat_map, map_map, <- flat_map_concat_map.
    change (map (fun c => at_ (b0 :: b1 :: b2 :: b3 :: l) (0 * 4 + c)) (seq 0 4))
      with [b0; b1; b2; b3].
    cbn [app]. do 4 f_equal.
    etransitivity; [|exact (IH l Hl)].
    apply flat_map_ext. intros p. reflexivity.
Qed.

(** Putting an image on a canvas of its own size gives the image. *)
Lemma putImageData_same_size (canvas imageData : ImageData) :
  wellFormed imageData ->
  width canvas = width imageData -> height canvas = height imageData ->
  putImageData canvas imageData = imageData.
Proof.
  intros Hwf Hw Hh. unfold putImageData. rewrite Hw, Hh.
  destruct imageData as [d w h]. simpl in *. f_equal.
  unfold wellFormed in Hwf. simpl in Hwf.
  etransitivity; [|exact (chunks_rebuild (w * h) d Hwf)].
  rewrite !flat_map_concat_map. f_equal.
  apply map_ext_in. intros p Hp.
  apply list_elem_of_In, elem_of_seq in Hp.
  assert (w <> 0) as Hw0 by (intros ->; lia).
  assert (p `mod` w < w) as Hx by (apply Nat.mod_upper_bound; exact Hw0).
  assert (p / w < h) as Hy
      by (apply Nat.Div0.div_lt_upper_bound; lia).
  replace (p `mod` w <? w)%nat with true by (symmetry; apply Nat.ltb_lt; lia).
  replace (p / w <? h)%nat with true by (symmetry; apply Nat.ltb_lt; lia).
  simpl.
  replace (p / w * w + p `mod` w) with p; [reflexivity|].
  rewrite (Nat.div_mod_eq p w) at 1. lia.
Qed.

End Fallback.


(** ** The alpha channel *)

(** C10.  Every pixel-processing stage leaves the alpha channel of every
    pixel as it was: the colour transfer, the median artifact filter and the
    sharpening fallback write only the channels 0 to 2. *)
Theorem alpha_channel_unchanged (imageData : ImageData)
    (sourceColor targetColor : MetalColor) (metalMask reflectionMap : list Z)
    (p : nat) :
  (exists out,
     ColorConverter.transformMetalColor (data imageData) sourceColor
       targetColor metalMask reflectionMap = Some out /\
     out !! (4 * p + 3) = data imageData !! (4 * p + 3)) /\
  data (ImageEnhancer.removeArtifacts imageData) !! (4 * p + 3)
  = data imageData !! (4 * p + 3) /\
  data (ImageEnhancer.enhanceImageStandard imageData) !! (4 * p + 3)
  = data imageData !! (4 * p + 3).
Proof.
  split; [|split].
  - destruct (transformMetalColor_total (data imageData) sourceColor
                targetColor metalMask reflectionMap) as [out Hout].
    exists out. split; [exact Hout|].
    eapply transformMetalColor_alpha. exact Hout.
  - apply removeArtifacts_alpha.
  - apply enhanceImageStandard_alpha.
Qed.

(** ** Determinism of the colour transfer *)

Section Determinism.

Import JS ImageProcessing Spec.
Local Open Scope float_scope.

Lemma transformGoldColor_without_draw (random1 random2 r g b : float)
    (targetColor : MetalColor) :
  drawsRandom r g b targetColor = false ->
  transformGoldColor random1 r g b targetColor
  = transformGoldColor random2 r g b targetColor.
Proof.
  intros H. unfold transformGoldColor, drawsRandom in *. cbv zeta.
  destruct targetColor; rewrite H; reflexivity.
Qed.

(** The two colours of the runs below differ in their green channel. *)
Lemma distinct_colours :
  mkRgbColor 255 77 69 = mkRgbColor 255 91 69 -> False.
Proof.
  intros H. apply (f_equal (fun c => g c =? 77)) in H.
  vm_compute in H. discriminate H.
Qed.

End Determinism.

(** C1, as the code has it.  The per-pixel transfer of the
    anchor-interpolation strategy is deterministic.  The per-pixel transfer
    of the direct-HSV strategy, [transformGoldColor], returns the same colour
    in every run on the same arguments provided the run does not reach
    [Math.random()], that is, provided the pixel is not detected as the
    opposite finish. *)
Theorem transfer_deterministic_without_jitter :
  Spec.deterministic Spec.anchorInterpolation /\
  forall (random1 random2 r g b : float) (targetColor : MetalColor),
    ImageProcessing.drawsRandom r g b targetColor = false ->
    Spec.directHSV random1 (r, g, b, targetColor)
    = Spec.directHSV random2 (r, g, b, targetColor).
Proof.
  split.
  - intros random1 random2 input. reflexivity.
  - intros random1 random2 r g b targetColor H.
    apply transformGoldColor_without_draw. exact H.
Qed.

(** C1 fails on the code as stated: on the yellow-gold pixel (212,175,55)
    with target rose, a run in which [Math.random()] returns 0 and a run in
    which it returns 0.9 give different colours. *)
Lemma transformGoldColor_depends_on_random :
  ImageProcessing.transformGoldColor 0 212 175 55 rose
  = ImageProcessing.mkRgbColor 255 77 69 /\
  ImageProcessing.transformGoldColor 0.9 212 175 55 rose
  = ImageProcessing.mkRgbColor 255 91 69 /\
  ~ Spec.deterministic Spec.directHSV.
Proof.
  assert (ImageProcessing.transformGoldColor 0 212 175 55 rose
          = ImageProcessing.mkRgbColor 255 77 69) as H0
      by (vm_compute; reflexivity).
  assert (ImageProcessing.transformGoldColor 0.9 212 175 55 rose
          = ImageProcessing.mkRgbColor 255 91 69) as H9
      by (vm_compute; reflexivity).
  split; [exact H0|]. split; [exact H9|].
  intros Hdet.
  specialize (Hdet 0%float 0.9%float (212, 175, 55, rose)%float).
  unfold Spec.directHSV in Hdet. rewrite H0, H9 in Hdet.
  exact (distinct_colours Hdet).
Qed.

(** ** The exact-match branch of [transformLabColor] *)


(** ** What [transformLabColor] returns at an exact match *)

Section ExactMatch.

Import JS ColorSpace ColorConverter Terms.
Local Open Scope float_scope.




End ExactMatch.



(** ** When detection fails *)

Section DetectionFailure.

Import MetalDetector.

Lemma insertBySize_not_nil (c : Classified) (sorted : list Classified) :
  insertBySize c sorted <> [].
Proof.
  destruct sorted as [|d rest]; simpl; [discriminate|].
  destruct (_ <=? _)%nat; discriminate.
Qed.

Lemma sortBySize_nil (cs : list Classified) : sortBySize cs = [] <-> cs = [].
Proof.
  split.
  - destruct cs as [|c cs]; [reflexivity|]. simpl. intros H.
    destruct (insertBySize_not_nil _ _ H).
  - intros ->. reflexivity.
Qed.

Lemma filter_metal_nil (cs : list Classified) :
  filter (fun c => isMetalCluster c = true) cs = [] <->
  forall c, c ∈ cs -> isMetalCluster c = false.
Proof.
  split.
  - intros H c Hc. destruct (isMetalCluster c) eqn:Hm; [|reflexivity].
    destruct (filter_nil_not_elem_of _ _ c H Hm Hc).
  - intros H. induction cs as [|c cs IH]; [reflexivity|].
    rewrite filter_cons_False.
    + apply IH. intros d Hd. apply H. right. exact Hd.
    + rewrite (H c) by left. discriminate.
Qed.

Lemma metalClusters_nil (imageData : ImageData) :
  metalClusters imageData = [] <->
  forall c, c ∈ classifiedClusters imageData -> isMetalCluster c = false.
Proof.
  unfold metalClusters. rewrite sortBySize_nil. apply filter_metal_nil.
Qed.

Lemma detectMetalType_reject (imageData : ImageData) :
  detectMetalType imageData = reject NoMetalDetected <->
  metalClusters imageData = [].
Proof.
  unfold detectMetalType.
  destruct (metalClusters imageData) as [|dominant rest].
  - split; reflexivity.
  - split; discriminate.
Qed.

Lemma detectMetalType_resolve (imageData : ImageData) :
  (exists result, detectMetalType imageData = resolve result) <->
  metalClusters imageData <> [].
Proof.
  unfold detectMetalType.
  destruct (metalClusters imageData) as [|dominant rest].
  - split; [intros [result H]; discriminate | intros H; destruct (H eq_refl)].
  - split; [discriminate | intros _; eexists; reflexivity].
Qed.

Lemma isMetalCluster_spec (c : Classified) :
  isMetalCluster c = true <->
  exists color, type (snd c) = metal color /\
                JS.gtb (confidence (snd c)) 0.5 = true.
Proof.
  unfold isMetalCluster. destruct (type (snd c)) as [color|].
  - split.
    + intros H. exists color. split; [reflexivity | exact H].
    + intros (color' & _ & H). exact H.
  - split; [discriminate | intros (color & H & _); discriminate].
Qed.

Lemma elem_of_insertBySize (c d : Classified) (sorted : list Classified) :
  c ∈ insertBySize d sorted <-> c = d \/ c ∈ sorted.
Proof.
  induction sorted as [|e sorted IH]; simpl.
  - rewrite list_elem_of_singleton. rewrite elem_of_nil. tauto.
  - destruct (_ <=? _)%nat.
    + rewrite elem_of_cons. tauto.
    + rewrite !elem_of_cons, IH. tauto.
Qed.

Lemma elem_of_sortBySize (c : Classified) (cs : list Classified) :
  c ∈ sortBySize cs <-> c ∈ cs.
Proof.
  induction cs as [|d cs IH]; simpl; [tauto|].
  rewrite elem_of_insertBySize, elem_of_cons, IH. tauto.
Qed.

(** The head of the sorted list is a largest cluster. *)
Lemma sortBySize_head (cs : list Classified) (c : Classified)
    (rest : list Classified) :
  sortBySize cs = c :: rest ->
  forall d, d ∈ cs -> length (points (fst d)) <= length (points (fst c)).
Proof.
  revert c rest. induction cs as [|x cs IH]; intros c rest Hs d Hd.
  - apply elem_of_nil in Hd. destruct Hd.
  - simpl in Hs. destruct (sortBySize cs) as [|e sorted] eqn:He.
    + apply (proj1 (sortBySize_nil cs)) in He. subst cs. simpl in Hs.
      injection Hs as <- _. apply list_elem_of_singleton in Hd. subst d. lia.
    + simpl in Hs.
      destruct (length (points (fst e)) <=? length (points (fst x)))%nat
        eqn:Hle.
      * injection Hs as <- _. apply Nat.leb_le in Hle.
        apply elem_of_cons in Hd. destruct Hd as [->|Hd]; [lia|].
        specialize (IH e sorted eq_refl d Hd). lia.
      * injection Hs as <- _. apply Nat.leb_gt in Hle.
        apply elem_of_cons in Hd. destruct Hd as [->|Hd]; [lia|].
        exact (IH e sorted eq_refl d Hd).
Qed.

Lemma elem_of_metalClusters (imageData : ImageData) (c : Classified) :
  c ∈ metalClusters imageData <->
  isMetalCluster c = true /\ c ∈ classifiedClusters imageData.
Proof.
  unfold metalClusters. rewrite elem_of_sortBySize, list_elem_of_filter.
  reflexivity.
Qed.

(** A resolved detection reports the finish of a largest metal cluster. *)
Lemma detectMetalType_dominant (imageData : ImageData)
    (result : DetectionResult) :
  detectMetalType imageData = resolve result ->
  exists c,
    c ∈ classifiedClusters imageData /\ isMetalCluster c = true /\
    type (snd c) = metal (detectedColor result) /\
    forall d, d ∈ classifiedClusters imageData -> isMetalCluster d = true ->
              length (points (fst d)) <= length (points (fst c)).
Proof.
  unfold detectMetalType.
  destruct (metalClusters imageData) as [|c rest] eqn:Hmc; [discriminate|].
  intros [= <-]. simpl.
  assert (c ∈ metalClusters imageData) as Hc by (rewrite Hmc; left).
  apply elem_of_metalClusters in Hc. destruct Hc as [Hm Hc].
  exists c. split; [exact Hc|]. split; [exact Hm|]. split.
  - apply isMetalCluster_spec in Hm. destruct Hm as (color & Ht & _).
    rewrite Ht. reflexivity.
  - intros d Hd Hdm.
    apply (sortBySize_head _ c rest Hmc).
    apply list_elem_of_filter. split; assumption.
Qed.

End DetectionFailure.

(** C5, as the code has it.  [detectMetalType] rejects with "No metal
    detected" exactly when no cluster is classified as a metal with a
    confidence above 0.5, and resolves exactly when there is one; what it
    then reports is the finish of a largest such cluster, never a default.
    A uniform black image and a uniform white image fail this way. *)
Theorem detectMetalType_fails_iff_no_metal_cluster (imageData : ImageData) :
  (MetalDetector.detectMetalType imageData = reject NoMetalDetected <->
   forall c, c ∈ MetalDetector.classifiedClusters imageData ->
             MetalDetector.isMetalCluster c = false) /\
  ((exists result, MetalDetector.detectMetalType imageData = resolve result) <->
   exists c, c ∈ MetalDetector.classifiedClusters imageData /\
             MetalDetector.isMetalCluster c = true) /\
  (forall c, MetalDetector.isMetalCluster c = true <->
     exists color,
       MetalDetector.type (snd c) = MetalDetector.metal color /\
       JS.gtb (MetalDetector.confidence (snd c)) 0.5 = true) /\
  (forall result,
     MetalDetector.detectMetalType imageData = resolve result ->
     exists c,
       c ∈ MetalDetector.classifiedClusters imageData /\
       MetalDetector.isMetalCluster c = true /\
       MetalDetector.type (snd c)
       = MetalDetector.metal (MetalDetector.detectedColor result) /\
       forall d, d ∈ MetalDetector.classifiedClusters imageData ->
                 MetalDetector.isMetalCluster d = true ->
                 length (MetalDetector.points (fst d))
                 <= length (MetalDetector.points (fst c))) /\
  MetalDetector.detectMetalType Examples.blackImage = reject NoMetalDetected /\
  MetalDetector.detectMetalType Examples.whiteImage = reject NoMetalDetected.
Proof.
  split; [|split; [|split; [|split; [|split]]]].
  - rewrite detectMetalType_reject. apply metalClusters_nil.
  - rewrite detectMetalType_resolve. split.
    + intros Hne.
      destruct (MetalDetector.metalClusters imageData) as [|c rest] eqn:Hmc;
        [destruct (Hne eq_refl)|].
      assert (c ∈ MetalDetector.metalClusters imageData) as Hc
          by (rewrite Hmc; left).
      apply elem_of_metalClusters in Hc. destruct Hc as [Hm Hc].
      exists c. split; assumption.
    + intros (c & Hc & Hm) Hnil.
      rewrite metalClusters_nil in Hnil. rewrite (Hnil c Hc) in Hm.
      discriminate.
  - apply isMetalCluster_spec.
  - apply detectMetalType_dominant.
  - vm_compute. reflexivity.
  - vm_compute. reflexivity.
Qed.

(** C5 fails on the code as stated: on a uniform mid-gray image (2x2 or
    3x3) [detectMetalType] does not fail.  The Lab colour of (128,128,128)
    is within 30 of the darkest rose-gold reference, so the image is
    detected as rose gold and all of it is put in the mask. *)
Lemma gray_image_is_detected_as_rose :
  (exists result,
     MetalDetector.detectMetalType Examples.grayImage = resolve result /\
     MetalDetector.detectedColor result = rose /\
     MetalDetector.metalMask result = [255; 255; 255; 255]%Z) /\
  (exists result,
     MetalDetector.detectMetalType Examples.grayImage9 = resolve result /\
     MetalDetector.detectedColor result = rose /\
     MetalDetector.metalMask result = replicate 9 255%Z) /\
  (let gray := ColorSpace.rgbToLab 128 128 128 in
   (MetalDetector.minDistance gray MetalDetector.ROSE_GOLD_LAB_REFS <? 25)%float
   = true /\
   (39 <? MetalDetector.minDistance gray MetalDetector.YELLOW_GOLD_LAB_REFS)%float
   = true).
Proof.
  split; [|split].
  - eexists. split; [vm_compute; reflexivity|]. split; reflexivity.
  - eexists. split; [vm_compute; reflexivity|]. split; reflexivity.
  - split; vm_compute; reflexivity.
Qed.

(** ** The sharpening arithmetic is exact on bytes *)

(** A boolean check over a finite domain holds by evaluation. *)
Ltac by_evaluation := vm_cast_no_check (eq_refl true).

Section SharpeningArithmetic.

Import JS Loop TypedArray ImageEnhancer Spec.
Local Open Scope Z_scope.

Lemma forall_from_spec (n : nat) (z : Z) (f : Z -> bool) :
  forall_from n z f = true ->
  forall k, z <= k < z + Z.of_nat n -> f k = true.
Proof.
  revert z. induction n as [|n IH]; intros z H k Hk; [lia|].
  simpl in H. apply andb_true_iff in H. destruct H as [Hz Hrest].
  destruct (Z.eq_dec k z) as [->|Hne]; [exact Hz|].
  apply (IH (z + 1) Hrest). lia.
Qed.

Lemma forall_from_2 (n m : nat) (z y : Z) (f : Z -> Z -> bool) :
  forall_from n z (fun i => forall_from m y (f i)) = true ->
  forall i j, z <= i < z + Z.of_nat n -> y <= j < y + Z.of_nat m ->
              f i j = true.
Proof.
  intros H i j Hi Hj.
  apply (forall_from_spec m y (f i)); [|exact Hj].
  apply (forall_from_spec n z (fun i => forall_from m y (f i)) H i Hi).
Qed.

Lemma negated_pair (t l : Z) :
  0 <= t <= 255 -> 0 <= l <= 255 ->
  (- ofZ t + - ofZ l)%float = ofZ_minus (- (t + l)).
Proof.
  intros Ht Hl. apply FloatAxioms.Leibniz.eqb_spec.
  apply (forall_from_2 256 256 0 0
           (fun t l => PrimFloat.Leibniz.eqb (- ofZ t + - ofZ l)%float
                         (ofZ_minus (- (t + l))))); [|lia|lia].
  by_evaluation.
Qed.

Lemma add_center (s c : Z) :
  -510 <= s <= 0 -> 0 <= c <= 255 ->
  (ofZ_minus s + 4 * ofZ c)%float = ofZ (s + 4 * c).
Proof.
  intros Hs Hc. apply FloatAxioms.Leibniz.eqb_spec.
  apply (forall_from_2 511 256 (-510) 0
           (fun s c => PrimFloat.Leibniz.eqb (ofZ_minus s + 4 * ofZ c)%float
                         (ofZ (s + 4 * c)))); [|lia|lia].
  by_evaluation.
Qed.

Lemma subtract_byte (s r : Z) :
  -765 <= s <= 1020 -> 0 <= r <= 255 ->
  (ofZ s + - ofZ r)%float = ofZ (s - r).
Proof.
  intros Hs Hr. apply FloatAxioms.Leibniz.eqb_spec.
  apply (forall_from_2 1786 256 (-765) 0
           (fun s r => PrimFloat.Leibniz.eqb (ofZ s + - ofZ r)%float
                         (ofZ (s - r)))); [|lia|lia].
  by_evaluation.
Qed.

Lemma round_clamp (c s : Z) :
  0 <= c <= 255 -> -1020 <= s <= 1020 ->
  toUint8Clamp
    (Math_max 0 (Math_min 255 (Math_round (ofZ c + ofZ s * 0.3)%float)))
  = clampByte ((10 * c + 3 * s + 5) / 10).
Proof.
  intros Hc Hs. apply Z.eqb_eq.
  apply (forall_from_2 256 2041 0 (-1020)
           (fun c s =>
              toUint8Clamp
                (Math_max 0
                   (Math_min 255 (Math_round (ofZ c + ofZ s * 0.3)%float)))
              =? clampByte ((10 * c + 3 * s + 5) / 10))); [|lia|lia].
  by_evaluation.
Qed.

(** The five reads of the sharpening filter, on bytes. *)
Lemma sharpen_bytes (center top left right bottom : Z) :
  0 <= center <= 255 -> 0 <= top <= 255 -> 0 <= left <= 255 ->
  0 <= right <= 255 -> 0 <= bottom <= 255 ->
  toUint8Clamp
    (Math_max 0
       (Math_min 255
          (Math_round
             (ofZ center +
              (- ofZ top + - ofZ left + 4 * ofZ center + - ofZ right
               + - ofZ bottom) * 0.3)%float)))
  = sharpenFormula center top bottom left right.
Proof.
  intros Hc Ht Hl Hr Hb.
  rewrite negated_pair by assumption.
  rewrite add_center by lia.
  rewrite subtract_byte by lia.
  rewrite subtract_byte by lia.
  rewrite round_clamp by lia.
  unfold sharpenFormula. do 2 f_equal. lia.
Qed.

Lemma get_inside (arr : list Z) (i : nat) :
  (i < length arr)%nat -> get arr i = ofZ (at_ arr i).
Proof.
  intros H. unfold get, at_.
  apply lookup_lt_is_Some in H. destruct H as [v ->]. reflexivity.
Qed.

Lemma at_valid (arr : list Z) (i : nat) :
  validBytes arr -> 0 <= at_ arr i <= 255.
Proof.
  intros H. unfold at_. destruct (arr !! i) as [v|] eqn:Hv; simpl; [|lia].
  unfold validBytes in H. rewrite Forall_forall in H.
  apply H. eapply list_elem_of_lookup_2. exact Hv.
Qed.

(** On bytes, the value [enhanceImageStandard] writes at an interior pixel
    is the sharpening formula in exact arithmetic. *)
Lemma sharpened_formula (imageData : ImageData) (x y c : nat) :
  wellFormed imageData -> validBytes (data imageData) ->
  interior (width imageData) (height imageData) x y = true -> (c < 3)%nat ->
  let w := width imageData in
  let d := data imageData in
  sharpened d w x y c
  = sharpenFormula (at_ d (offset w x y + c))
                   (at_ d (offset w x (y - 1) + c))
                   (at_ d (offset w x (y + 1) + c))
                   (at_ d (offset w (x - 1) y + c))
                   (at_ d (offset w (x + 1) y + c)).
Proof.
  intros Hwf Hbytes Hint Hc w d. apply interior_bounds in Hint.
  assert (forall x' y', (x' < w)%nat -> (y' < height imageData)%nat ->
            (offset w x' y' + c < length d)%nat) as Hin.
  { intros x' y' Hx' Hy'. apply pixel_inside; [exact Hwf| | |]; lia. }
  unfold sharpened. fold w d. unfold offset in *.
  rewrite !get_inside by (apply Hin; lia).
  apply sharpen_bytes; apply at_valid; exact Hbytes.
Qed.

Lemma insert_validBytes (arr : list Z) (i : nat) (v : Z) :
  validBytes arr -> 0 <= v <= 255 -> validBytes (<[i := v]> arr).
Proof. intros Harr Hv. apply Forall_insert; assumption. Qed.

Lemma setChannels_validBytes (idx : nat) (value : nat -> Z) (arr : list Z) :
  validBytes arr -> (forall c, 0 <= value c <= 255) ->
  validBytes (setChannels idx value arr).
Proof.
  intros Harr Hv. rewrite setChannels_unfold.
  repeat apply insert_validBytes; auto.
Qed.

Lemma median_valid (d : list Z) (w x y c : nat) :
  validBytes d -> 0 <= median d w x y c <= 255.
Proof.
  intros Hd. unfold median. apply at_valid.
  unfold validBytes.
  rewrite <- (sortNumeric_perm (neighborhood d w x y c)).
  unfold neighborhood. apply Forall_forall. intros v Hv.
  apply list_elem_of_In, in_flat_map in Hv. destruct Hv as (dy & _ & Hv).
  apply in_map_iff in Hv. destruct Hv as (dx & <- & _).
  apply at_valid. exact Hd.
Qed.

Lemma removeArtifacts_validBytes (imageData : ImageData) :
  validBytes (data imageData) ->
  validBytes (data (removeArtifacts imageData)).
Proof.
  intros Hd. unfold removeArtifacts, for_interior. simpl.
  apply for_range_invariant; [exact Hd|]. intros y out _ Hout.
  apply for_range_invariant; [exact Hout|]. intros x out' _ Hout'.
  unfold filterPixel. destruct (isArtifact _ _ _); [|exact Hout'].
  apply setChannels_validBytes; [exact Hout'|].
  intros c. apply median_valid. exact Hd.
Qed.

End SharpeningArithmetic.

(** ** Post-processing when the enhancement model fails *)

(** C8.  When the ESRGAN model fails on the artifact-suppressed image (it is
    not available, does not load, or throws), [enhanceImage] still resolves,
    whether or not the second canvas yields a context: with the sharpening
    fallback applied to the artifact-suppressed buffer.  That image has the
    dimensions of the input; in it each channel R, G, B of each interior
    pixel is [center + 0.3 * (4 center - top - bottom - left - right)],
    rounded to the nearest integer and clamped to [0,255], and the border
    pixels and the alpha channel hold the values of the artifact-suppressed
    buffer. *)
Theorem enhancement_failure_falls_back (env : ImageEnhancer.Environment)
    (original : ImageData) :
  Spec.wellFormed original ->
  Spec.validBytes (data original) ->
  ImageEnhancer.esrgan env (ImageEnhancer.removeArtifacts original) = None ->
  let w := width original in
  let h := height original in
  let cleaned := data (ImageEnhancer.removeArtifacts original) in
  let fallback :=
    ImageEnhancer.enhanceImageStandard
      (ImageEnhancer.removeArtifacts original) in
  ImageEnhancer.enhanceImage env original = resolve fallback /\
  width fallback = w /\ height fallback = h /\
  length (data fallback) = length (data original) /\
  forall x y c, x < w -> y < h -> c < 4 ->
    data fallback !! (TypedArray.offset w x y + c)
    = Some (if Spec.interior w h x y && (c <? 3)
            then Spec.sharpenFormula
                   (TypedArray.at_ cleaned (TypedArray.offset w x y + c))
                   (TypedArray.at_ cleaned (TypedArray.offset w x (y - 1) + c))
                   (TypedArray.at_ cleaned (TypedArray.offset w x (y + 1) + c))
                   (TypedArray.at_ cleaned (TypedArray.offset w (x - 1) y + c))
                   (TypedArray.at_ cleaned (TypedArray.offset w (x + 1) y + c))
            else TypedArray.at_ cleaned (TypedArray.offset w x y + c)).
Proof.
  intros Hwf Hbytes Hfail w h cleaned fallback.
  assert (Spec.wellFormed (ImageEnhancer.removeArtifacts original)) as Hwf1
      by (apply removeArtifacts_wellFormed; exact Hwf).
  assert (Spec.wellFormed fallback) as Hwf2
      by (apply enhanceImageStandard_wellFormed; exact Hwf1).
  split.
  - unfold ImageEnhancer.enhanceImage, ImageEnhancer.applySuperResolution.
    rewrite Hfail.
    destruct (ImageEnhancer.enhancedContext env); [reflexivity|].
    rewrite putImageData_same_size; [reflexivity | exact Hwf2 | | ];
      reflexivity.
  - split; [reflexivity|]. split; [reflexivity|]. split.
    + subst fallback. rewrite enhanceImageStandard_length.
      apply removeArtifacts_length.
    + intros x y c Hx Hy Hc.
      assert (TypedArray.offset w x y + c
              < length (data (ImageEnhancer.removeArtifacts original))) as Hin
          by (apply (pixel_inside _ x y c Hwf1); assumption).
      etransitivity;
        [exact (enhanceImageStandard_lookup
                  (ImageEnhancer.removeArtifacts original) x y c Hx Hc Hin)|].
      change (width (ImageEnhancer.removeArtifacts original)) with w.
      change (height (ImageEnhancer.removeArtifacts original)) with h.
      destruct (Spec.interior w h x y) eqn:Hint; [|reflexivity].
      destruct (c <? 3) eqn:Hc3; [|reflexivity].
      apply Nat.ltb_lt in Hc3. simpl andb. cbv iota. f_equal.
      apply (sharpened_formula (ImageEnhancer.removeArtifacts original));
        [exact Hwf1 | | exact Hint | exact Hc3].
      apply removeArtifacts_validBytes. exact Hbytes.
Qed.

(** The theorem at the 3x3 image with an outlier, the model failing on every
    input and the second canvas giving no context. *)
Lemma enhancement_failure_falls_back_witness :
  ImageEnhancer.enhanceImage
    (ImageEnhancer.mkEnvironment (fun _ => None) false) Examples.outlierImage
  = resolve (ImageEnhancer.enhanceImageStandard
               (ImageEnhancer.removeArtifacts Examples.outlierImage)).
Proof.
  refine (proj1 (enhancement_failure_falls_back
                   (ImageEnhancer.mkEnvironment (fun _ => None) false)
                   Examples.outlierImage eq_refl _ eq_refl)).
  unfold Spec.validBytes. repeat (constructor; [lia|]). constructor.
Defined.

(** ** The Lab round trip on samples *)

(** X18.  Every gray, and every colour whose channels are multiples of 17,
    comes back unchanged from [labToRgb (rgbToLab r g b)]. *)
Lemma roundTrips_on_samples :
  (forall v, (0 <= v <= 255)%Z -> Spec.roundTrips v v v = true) /\
  (forall i j k, (0 <= i <= 15)%Z -> (0 <= j <= 15)%Z -> (0 <= k <= 15)%Z ->
     Spec.roundTrips (17 * i) (17 * j) (17 * k) = true).
Proof.
  split.
  - intros v Hv.
    apply (forall_from_spec 256 0 (fun v => Spec.roundTrips v v v)); [|lia].
    by_evaluation.
  - intros i j k Hi Hj Hk.
    apply (forall_from_spec 16 0
             (fun k => Spec.roundTrips (17 * i) (17 * j) (17 * k))); [|lia].
    apply (forall_from_2 16 16 0 0
             (fun i j =>
                Spec.forall_from 16 0
                  (fun k => Spec.roundTrips (17 * i) (17 * j) (17 * k))));
      [|lia|lia].
    by_evaluation.
Qed.

(** * Further properties of the code *)

(** ** The anchor-interpolation transfer: what a masked pixel becomes *)

Section TransferEffect.

Import Loop TypedArray ColorConverter ColorSpace.

Lemma forM_app {K S : Type} (ks1 ks2 : list K) (body : K -> S -> option S)
    (s : S) :
  forM (ks1 ++ ks2) body s =
  match forM ks1 body s with
  | Some s' => forM ks2 body s'
  | None => None
  end.
Proof.
  revert s. induction ks1 as [|k ks1 IH]; intros s; simpl; [reflexivity|].
  destruct (body k s); [apply IH | reflexivity].
Qed.

Lemma steps4_split (n p : nat) :
  4 * p < n ->
  steps4 n =
  map (fun q => 4 * q) (seq 0 p)
  ++ 4 * p :: map (fun q => 4 * q) (seq (S p) ((n + 3) / 4 - S p)).
Proof.
  intros H. unfold steps4.
  assert (p < (n + 3) / 4) as Hp.
  { apply Nat.div_le_lower_bound; lia. }
  replace ((n + 3) / 4) with (p + S ((n + 3) / 4 - S p)) at 1 by lia.
  rewrite seq_app, map_app. reflexivity.
Qed.

Lemma get_lookup (arr arr' : list Z) (i j : nat) :
  arr !! i = arr' !! j -> get arr i = get arr' j.
Proof. unfold get. intros ->. reflexivity. Qed.

Lemma set3_lookup (i : nat) (r g b : Z) (arr : list Z) :
  i + 2 < length arr ->
  set3 i r g b arr !! i = Some r /\
  set3 i r g b arr !! (i + 1) = Some g /\
  set3 i r g b arr !! (i + 2) = Some b.
Proof.
  intros Hi. unfold set3. repeat split.
  - rewrite !list_lookup_insert_ne by lia.
    apply list_lookup_insert_eq. lia.
  - rewrite list_lookup_insert_ne by lia.
    apply list_lookup_insert_eq. rewrite length_insert. lia.
  - apply list_lookup_insert_eq. rewrite !length_insert. lia.
Qed.

(** The round of a masked pixel that lies inside the buffer. *)
Lemma transformPixel_masked (refs : list ColorReference)
    (metalMask reflectionMap : list Z) (p : nat) (data data' : list Z) :
  positive (metalMask !! p) = true ->
  4 * p + 2 < length data ->
  transformPixel refs metalMask reflectionMap (4 * p) data = Some data' ->
  exists t,
    transformLabColor
      (rgbToLab (get data (4 * p)) (get data (4 * p + 1))
                (get data (4 * p + 2)))
      refs (get reflectionMap p) = Some t /\
    data' !! (4 * p)
      = Some (JS.toUint8Clamp (r (labToRgb (l t) (a t) (b t)))) /\
    data' !! (4 * p + 1)
      = Some (JS.toUint8Clamp (g (labToRgb (l t) (a t) (b t)))) /\
    data' !! (4 * p + 2)
      = Some (JS.toUint8Clamp (bl (labToRgb (l t) (a t) (b t)))).
Proof.
  intros Hm Hlen. unfold transformPixel.
  replace (4 * p / 4) with p by (rewrite Nat.mul_comm, Nat.div_mul; lia).
  rewrite Hm.
  destruct (transformLabColor _ _ _) as [t|]; [|discriminate].
  intros Hstep. exists t. split; [reflexivity|].
  assert (data' =
          set3 (4 * p)
            (JS.toUint8Clamp (r (labToRgb (l t) (a t) (b t))))
            (JS.toUint8Clamp (g (labToRgb (l t) (a t) (b t))))
            (JS.toUint8Clamp (bl (labToRgb (l t) (a t) (b t)))) data) as ->
    by congruence.
  apply set3_lookup. exact Hlen.
Qed.

End TransferEffect.

(** X1.  The anchor-interpolation transfer replaces the three colour bytes
    of every masked pixel that lies inside the buffer by the bytes of
    [labToRgb (transformLabColor (rgbToLab r g b) refs strength)], where
    [r], [g], [b] are the bytes the pixel had in the input and [strength]
    is its entry of the reflection map: the loop works in place, but no
    round reads what another round wrote. *)
Theorem transformMetalColor_masked_pixel (data out : list Z)
    (sourceColor targetColor : MetalColor) (metalMask reflectionMap : list Z)
    (p : nat) :
  ColorConverter.transformMetalColor data sourceColor targetColor metalMask
                                     reflectionMap = Some out ->
  TypedArray.positive (metalMask !! p) = true ->
  4 * p + 2 < length data ->
  exists transformedLab,
    ColorConverter.transformLabColor
      (ColorSpace.rgbToLab (TypedArray.get data (4 * p))
                           (TypedArray.get data (4 * p + 1))
                           (TypedArray.get data (4 * p + 2)))
      (ColorConverter.colorRefs sourceColor targetColor)
      (TypedArray.get reflectionMap p) = Some transformedLab /\
    let transformedRgb :=
      ColorSpace.labToRgb (ColorSpace.l transformedLab)
                          (ColorSpace.a transformedLab)
                          (ColorSpace.b transformedLab) in
    out !! (4 * p) = Some (JS.toUint8Clamp (ColorSpace.r transformedRgb)) /\
    out !! (4 * p + 1) = Some (JS.toUint8Clamp (ColorSpace.g transformedRgb)) /\
    out !! (4 * p + 2) = Some (JS.toUint8Clamp (ColorSpace.bl transformedRgb)).
Proof.
  intros Hrun Hm Hlen. unfold ColorConverter.transformMetalColor in Hrun.
  rewrite (steps4_split _ p) in Hrun by lia.
  rewrite forM_app in Hrun.
  set (body := ColorConverter.transformPixel _ _ _) in Hrun.
  destruct (Loop.forM (map _ (seq 0 p)) body data) as [d1|] eqn:H1;
    [|discriminate].
  cbn [Loop.forM] in Hrun.
  destruct (body (4 * p) d1) as [d2|] eqn:H2; [|discriminate].
  assert (length d1 = length data /\
          forall c, c < 3 -> d1 !! (4 * p + c) = data !! (4 * p + c))
    as [Hl1 Hpre].
  { revert H1.
    apply (forM_invariant
             (fun d => length d = length data /\
                       forall c, c < 3 ->
                                 d !! (4 * p + c) = data !! (4 * p + c)));
      [split; reflexivity|].
    intros k s s' Hk [Hl Hs] Hstep.
    apply list_elem_of_fmap in Hk. destruct Hk as (q & -> & Hq).
    apply elem_of_seq in Hq.
    apply transformPixel_frame in Hstep. destruct Hstep as (Hl' & _ & Hframe).
    split; [congruence|].
    intros c Hc. rewrite Hframe by lia. apply Hs. exact Hc. }
  assert (forall c, c < 3 -> out !! (4 * p + c) = d2 !! (4 * p + c)) as Hpost.
  { revert Hrun.
    apply (forM_invariant
             (fun d => forall c, c < 3 ->
                                 d !! (4 * p + c) = d2 !! (4 * p + c)));
      [reflexivity|].
    intros k s s' Hk Hs Hstep.
    apply list_elem_of_fmap in Hk. destruct Hk as (q & -> & Hq).
    apply elem_of_seq in Hq.
    apply transformPixel_frame in Hstep. destruct Hstep as (_ & _ & Hframe).
    intros c Hc. rewrite Hframe by lia. apply Hs. exact Hc. }
  subst body.
  assert (ColorConverter.transformPixel
            (ColorConverter.colorRefs sourceColor targetColor)
            metalMask reflectionMap (4 * p) d1 = Some d2) as Hstep
    by exact H2.
  apply transformPixel_masked in Hstep; [|exact Hm|lia].
  destruct Hstep as (t & Ht & H0' & H1' & H2').
  rewrite (get_lookup d1 data (4 * p) (4 * p)) in Ht
    by (replace (4 * p) with (4 * p + 0) by lia; apply Hpre; lia).
  rewrite (get_lookup d1 data (4 * p + 1) (4 * p + 1)) in Ht
    by (apply Hpre; lia).
  rewrite (get_lookup d1 data (4 * p + 2) (4 * p + 2)) in Ht
    by (apply Hpre; lia).
  exists t. split; [exact Ht|]. cbv zeta.
  repeat split.
  - replace (4 * p) with (4 * p + 0) by lia.
    rewrite (Hpost 0) by lia.
    replace (4 * p + 0) with (4 * p) by lia. exact H0'.
  - rewrite (Hpost 1) by lia. exact H1'.
  - rewrite (Hpost 2) by lia. exact H2'.
Qed.

(** On a one-pixel image of the gold (212, 175, 55) the transfer to rose
    writes the colour the theorem names. *)
Lemma transformMetalColor_masked_pixel_witness :
  exists transformedLab,
    ColorConverter.transformLabColor
      (ColorSpace.rgbToLab (TypedArray.get [212; 175; 55; 255]%Z (4 * 0))
                           (TypedArray.get [212; 175; 55; 255]%Z (4 * 0 + 1))
                           (TypedArray.get [212; 175; 55; 255]%Z (4 * 0 + 2)))
      (ColorConverter.colorRefs yellow rose)
      (TypedArray.get [0%Z] 0) = Some transformedLab /\
    let transformedRgb :=
      ColorSpace.labToRgb (ColorSpace.l transformedLab)
                          (ColorSpace.a transformedLab)
                          (ColorSpace.b transformedLab) in
    [218; 161; 135; 255]%Z !! (4 * 0)
      = Some (JS.toUint8Clamp (ColorSpace.r transformedRgb)) /\
    [218; 161; 135; 255]%Z !! (4 * 0 + 1)
      = Some (JS.toUint8Clamp (ColorSpace.g transformedRgb)) /\
    [218; 161; 135; 255]%Z !! (4 * 0 + 2)
      = Some (JS.toUint8Clamp (ColorSpace.bl transformedRgb)).
Proof.
  apply (transformMetalColor_masked_pixel
           [212; 175; 55; 255]%Z [218; 161; 135; 255]%Z yellow rose
           [255%Z] [0%Z] 0).
  - vm_compute. reflexivity.
  - reflexivity.
  - simpl. lia.
Defined.

(** ** The anchor interpolation of one colour *)

(** X2.  [transformLabColor] throws (the TypeError of
    [references[0].target]) exactly when it is given no reference at all;
    with at least one reference it returns a colour, whatever the input
    colour and the reflection strength. *)
Theorem transformLabColor_throws_iff_no_reference (lab : ColorSpace.Lab)
    (references : list ColorConverter.ColorReference)
    (reflectionStrength : float) :
  ColorConverter.transformLabColor lab references reflectionStrength = None
  <-> references = [].
Proof.
  split.
  - intros Hnone. destruct references as [|ref0 refs]; [reflexivity|].
    destruct (transformLabColor_total lab (ref0 :: refs) reflectionStrength)
      as [t Ht]; [discriminate|].
    rewrite Ht in Hnone. discriminate.
  - intros ->. reflexivity.
Qed.

(** X3.  The reflection strength of a pixel changes the lightness of the
    transferred colour only: the [a] and [b] of the result are the same
    for any two strengths, and every strength that is not above zero (0,
    a negative number, or the NaN of a reflection map that is too short)
    gives the same colour. *)
Theorem reflection_changes_only_lightness (lab : ColorSpace.Lab)
    (references : list ColorConverter.ColorReference)
    (strength1 strength2 : float) :
  ColorSpace.a <$> ColorConverter.transformLabColor lab references strength1
  = ColorSpace.a <$> ColorConverter.transformLabColor lab references strength2
  /\
  ColorSpace.b <$> ColorConverter.transformLabColor lab references strength1
  = ColorSpace.b <$> ColorConverter.transformLabColor lab references strength2
  /\
  (JS.gtb strength1 0 = false -> JS.gtb strength2 0 = false ->
   ColorConverter.transformLabColor lab references strength1
   = ColorConverter.transformLabColor lab references strength2).
Proof.
  unfold ColorConverter.transformLabColor.
  destruct (JS.strict_eq _ _).
  - destruct (references !! 0); repeat split; reflexivity.
  - repeat split; try reflexivity.
    intros -> ->. reflexivity.
Qed.

(** ** The reflection map, pixel by pixel *)

Section ReflectionLevels.

Import Loop TypedArray MetalDetector Terms.

Lemma reflectionAt_length (imageData : list Z) (width : nat)
    (metalMask : list Z) (i j : nat) (reflectionMap : list Z) :
  length (reflectionAt imageData width metalMask i j reflectionMap)
  = length reflectionMap.
Proof.
  unfold reflectionAt.
  repeat match goal with
         | |- context [if ?c then _ else _] => destruct c
         end;
    rewrite ?length_insert; reflexivity.
Qed.

Lemma reflectionAt_other (imageData : list Z) (width : nat)
    (metalMask : list Z) (i j p : nat) (reflectionMap : list Z) :
  p <> i * width + j ->
  reflectionAt imageData width metalMask i j reflectionMap !! p
  = reflectionMap !! p.
Proof.
  intros Hp. unfold reflectionAt.
  repeat match goal with
         | |- context [if ?c then _ else _] => destruct c
         end;
    rewrite ?list_lookup_insert_ne by lia; reflexivity.
Qed.

Lemma reflectionAt_unmasked (imageData : list Z) (width : nat)
    (metalMask : list Z) (i j : nat) (reflectionMap : list Z) :
  positive (metalMask !! (i * width + j)) = false ->
  reflectionAt imageData width metalMask i j reflectionMap = reflectionMap.
Proof. intros H. unfold reflectionAt. rewrite H. reflexivity. Qed.

Lemma reflectionAt_masked (imageData : list Z) (width : nat)
    (metalMask : list Z) (i j : nat) (reflectionMap : list Z) :
  positive (metalMask !! (i * width + j)) = true ->
  i * width + j < length reflectionMap ->
  reflectionAt imageData width metalMask i j reflectionMap
    !! (i * width + j)
  = Some (reflectionLevel (luminance imageData (i * width + j))).
Proof.
  intros H Hlen. unfold reflectionAt, reflectionLevel, luminance.
  rewrite H.
  repeat match goal with
         | |- context [if ?c then _ else _] => destruct c
         end;
    apply list_lookup_insert_eq; exact Hlen.
Qed.

Lemma row_column (width p : nat) :
  0 < width -> p = p / width * width + p mod width /\ p mod width < width.
Proof.
  intros Hw. split.
  - rewrite (Nat.div_mod_eq p width) at 1. lia.
  - apply Nat.mod_upper_bound. lia.
Qed.

Lemma cell_apart (width i j i' j' : nat) :
  j < width -> j' < width -> (i, j) <> (i', j') ->
  i * width + j <> i' * width + j'.
Proof.
  intros Hj Hj' Hne Heq. apply Hne.
  assert (i = i') as -> by nia.
  f_equal. lia.
Qed.

End ReflectionLevels.

(** X4.  [detectReflections] returns one entry per pixel, and the entry
    of each pixel depends on that pixel alone: 0 when the mask does not
    mark it, and otherwise the level of its luminance
    [0.299 r + 0.587 g + 0.114 b], which is 255 above 200, 200 above 170,
    150 above 140 and 0 below.  So a masked pixel that is dark has the
    same entry as an unmasked one. *)
Theorem detectReflections_levels (imageData : list Z) (width height : nat)
    (metalMask : list Z) :
  length (MetalDetector.detectReflections imageData width height metalMask)
  = width * height /\
  forall p, p < width * height ->
    MetalDetector.detectReflections imageData width height metalMask !! p
    = Some (if TypedArray.positive (metalMask !! p)
            then Terms.reflectionLevel (Terms.luminance imageData p)
            else 0%Z).
Proof.
  unfold MetalDetector.detectReflections.
  assert (forall i lo out,
            length (Loop.for_range lo width
                      (MetalDetector.reflectionAt imageData width metalMask i)
                      out) = length out) as Hrow.
  { intros i lo out. apply for_range_length.
    intros j o _. apply reflectionAt_length. }
  split.
  { rewrite for_range_length.
    - unfold TypedArray.zeros. apply length_replicate.
    - intros i out _. apply Hrow. }
  intros p Hp.
  assert (0 < width) as Hw by nia.
  destruct (row_column width p Hw) as [Hdec Hcol].
  set (i := p / width) in *. set (j := p mod width) in *.
  assert (i < height) as Hi by nia.
  assert (TypedArray.zeros (width * height) !! p = Some 0%Z) as Hzero.
  { unfold TypedArray.zeros. apply lookup_replicate. split; [reflexivity|].
    exact Hp. }
  destruct (TypedArray.positive (metalMask !! p)) eqn:Hm.
  - apply (for_range_lookup_at 0 height _ _ p i).
    + lia.
    + intros k out _. apply Hrow.
    + unfold TypedArray.zeros. rewrite length_replicate. exact Hp.
    + intros out Hout.
      apply (for_range_lookup_at 0 width _ _ p j).
      * lia.
      * intros k o _. apply reflectionAt_length.
      * exact Hout.
      * intros o Ho. rewrite Hdec.
        apply reflectionAt_masked; rewrite <- Hdec; assumption.
      * intros k o Hk. apply reflectionAt_other.
        rewrite Hdec. apply cell_apart; [lia|lia|].
        intros Heq. injection Heq. lia.
    + intros k out Hk. apply for_range_lookup_frame.
      intros j' o Hj'. apply reflectionAt_other.
      rewrite Hdec. apply cell_apart; [lia|lia|].
      intros Heq. injection Heq. lia.
  - rewrite <- Hzero. apply for_range_lookup_frame.
    intros k out Hk. apply for_range_lookup_frame.
    intros j' o Hj'.
    destruct (decide (p = k * width + j')) as [Heq|Hne].
    + rewrite reflectionAt_unmasked; [reflexivity|].
      rewrite <- Heq. exact Hm.
    + apply reflectionAt_other. exact Hne.
Qed.

(** ** k-means: every pixel ends in exactly one cluster *)

Section Partition.

Import Loop MetalDetector Terms.

Lemma for_range_last {S : Type} (lo hi : nat) (body : nat -> S -> S) (s : S) :
  lo <= hi ->
  for_range lo (Datatypes.S hi) body s = body hi (for_range lo hi body s).
Proof.
  intros H. unfold for_range.
  replace (Datatypes.S hi - lo) with (Datatypes.S (hi - lo)) by lia.
  rewrite seq_S, fold_left_app. simpl.
  replace (lo + (hi - lo)) with hi by lia. reflexivity.
Qed.

Lemma nearestCluster_bound (lab : ColorSpace.Lab) (clusters : list Cluster) :
  clusters <> [] -> nearestCluster lab clusters < length clusters.
Proof.
  intros Hne. unfold nearestCluster.
  apply (fold_left_invariant (fun st => snd st < length clusters)).
  - simpl. destruct clusters; [contradiction | simpl; lia].
  - intros ic st Hic Hst.
    apply elem_of_lookup_imap in Hic. destruct Hic as (i & c & -> & Hi).
    apply lookup_lt_Some in Hi.
    destruct (_ <? _)%float; simpl; assumption.
Qed.

Lemma memberIndices_cons (c : Cluster) (clusters : list Cluster) :
  memberIndices (c :: clusters)
  = map index (points c) ++ memberIndices clusters.
Proof. reflexivity. Qed.

Lemma memberIndices_push (point : Point) (i : nat) (clusters : list Cluster) :
  i < length clusters ->
  memberIndices
    (alter (fun c => mkCluster (center c) (points c ++ [point])) i clusters)
  ≡ₚ memberIndices clusters ++ [index point].
Proof.
  revert i. induction clusters as [|c clusters IH]; intros i Hi;
    [simpl in Hi; lia|].
  destruct i as [|i]; cbn [alter list_alter]; rewrite !memberIndices_cons.
  - cbn [points]. rewrite map_app. cbn [map].
    rewrite <- !app_assoc. apply Permutation_app_head.
    apply Permutation_app_comm.
  - rewrite <- app_assoc. apply Permutation_app_head.
    apply IH. simpl in Hi. lia.
Qed.

Lemma assignPoint_length (clusters : list Cluster) (il : nat * ColorSpace.Lab) :
  length (assignPoint clusters il) = length clusters.
Proof. unfold assignPoint. apply length_alter. Qed.

Lemma assign_all (colors : list (nat * ColorSpace.Lab))
    (clusters : list Cluster) :
  clusters <> [] ->
  length (fold_left assignPoint colors clusters) = length clusters /\
  memberIndices (fold_left assignPoint colors clusters)
  ≡ₚ memberIndices clusters ++ map fst colors.
Proof.
  revert clusters. induction colors as [|il colors IH]; intros clusters Hne.
  - simpl. rewrite app_nil_r. split; reflexivity.
  - cbn [fold_left map].
    assert (assignPoint clusters il <> []) as Hne'.
    { intros Hnil. apply (f_equal length) in Hnil.
      rewrite assignPoint_length in Hnil.
      destruct clusters; [contradiction | discriminate]. }
    destruct (IH _ Hne') as [Hlen Hperm]. split.
    + rewrite Hlen. apply assignPoint_length.
    + rewrite Hperm. unfold assignPoint at 1.
      rewrite memberIndices_push by (apply nearestCluster_bound; exact Hne).
      cbn [index]. rewrite <- app_assoc. reflexivity.
Qed.

Lemma assignPoint_labelled (labColors : list ColorSpace.Lab)
    (clusters : list Cluster) (i : nat) (c : ColorSpace.Lab) :
  labColors !! i = Some c -> labelled labColors clusters ->
  labelled labColors (assignPoint clusters (i, c)).
Proof.
  intros Hi Hall. unfold assignPoint, labelled. cbn [fst snd].
  apply Forall_alter; [exact Hall|].
  intros cl _ Hcl. cbn [points].
  apply Forall_app. split; [exact Hcl|].
  constructor; [exact Hi | constructor].
Qed.

Lemma updateCenter_points (cluster : Cluster) :
  points (updateCenter cluster) = points cluster.
Proof.
  unfold updateCenter. destruct (points cluster) eqn:H; [exact H|].
  reflexivity.
Qed.

Lemma memberIndices_updateCenter (clusters : list Cluster) :
  memberIndices (map updateCenter clusters) = memberIndices clusters.
Proof.
  unfold memberIndices. rewrite flat_map_concat_map, map_map.
  rewrite flat_map_concat_map. f_equal. apply map_ext.
  intros c. rewrite updateCenter_points. reflexivity.
Qed.

Lemma memberIndices_reset (clusters : list Cluster) :
  memberIndices (map (fun c => mkCluster (center c) []) clusters) = [].
Proof. induction clusters as [|c cs IH]; [reflexivity | exact IH]. Qed.

Lemma kMeansIteration_partition (labColors : list ColorSpace.Lab)
    (clusters : list Cluster) :
  clusters <> [] ->
  length (kMeansIteration labColors clusters) = length clusters /\
  memberIndices (kMeansIteration labColors clusters)
  ≡ₚ seq 0 (length labColors) /\
  labelled labColors (kMeansIteration labColors clusters).
Proof.
  intros Hne. unfold kMeansIteration.
  set (reset := map (fun c => mkCluster (center c) []) clusters).
  assert (reset <> []) as Hreset.
  { subst reset. destruct clusters; [contradiction | discriminate]. }
  destruct (assign_all (imap (fun i c => (i, c)) labColors) reset Hreset)
    as [Hlen Hperm].
  repeat split.
  - rewrite length_map, Hlen. subst reset. apply length_map.
  - rewrite memberIndices_updateCenter, Hperm.
    subst reset. rewrite memberIndices_reset. cbn [app].
    change (map fst (imap (fun i c => (i, c)) labColors))
      with (fst <$> imap (fun i c => (i, c)) labColors).
    rewrite fmap_imap.
    rewrite (imap_ext _ (fun i _ => i)) by reflexivity.
    rewrite imap_seq_0, list_fmap_id. reflexivity.
  - unfold labelled. apply Forall_map.
    eapply Forall_impl;
      [|intros c Hc; rewrite updateCenter_points; exact Hc].
    apply (fold_left_invariant (labelled labColors)).
    + subst reset. unfold labelled. apply Forall_map.
      apply Forall_forall. intros c _. constructor.
    + intros [i c] cs Hic Hcs.
      apply elem_of_lookup_imap in Hic.
      destruct Hic as (i' & c' & Heq & Hi).
      assert (i' = i /\ c' = c) as [-> ->] by (split; congruence).
      apply assignPoint_labelled; assumption.
Qed.

Lemma kMeansLabClustering_last (labColors : list ColorSpace.Lab)
    (k iterations : nat) :
  exists before,
    length before = S k /\
    kMeansLabClustering labColors (S k) (S iterations)
    = kMeansIteration labColors before.
Proof.
  unfold kMeansLabClustering. rewrite for_range_last by lia.
  eexists. split; [|reflexivity].
  apply (for_range_invariant (fun cs => length cs = S k)).
  - rewrite length_map. unfold initialCenters.
    rewrite length_map, length_seq. reflexivity.
  - intros i cs _ Hcs.
    destruct (kMeansIteration_partition labColors cs) as (Hl & _).
    + destruct cs; [discriminate Hcs | discriminate].
    + rewrite Hl. exact Hcs.
Qed.

Lemma kMeansLabClustering_labelled (labColors : list ColorSpace.Lab)
    (k iterations : nat) :
  labelled labColors (kMeansLabClustering labColors (S k) (S iterations)).
Proof.
  destruct (kMeansLabClustering_last labColors k iterations)
    as (before & Hlen & ->).
  apply kMeansIteration_partition.
  destruct before; [discriminate Hlen | discriminate].
Qed.

End Partition.

(** X5.  With at least one cluster and one iteration, [kMeansLabClustering]
    returns as many clusters as it was asked for, and they partition the
    pixels: listing the pixel indices of the clusters one after the other
    gives every index below the number of colours exactly once, and each
    point carries the Lab colour of its pixel.  Clusters may be empty. *)
Theorem kMeans_partitions_the_pixels (labColors : list ColorSpace.Lab)
    (k iterations : nat) :
  let clusters :=
    MetalDetector.kMeansLabClustering labColors (S k) (S iterations) in
  length clusters = S k /\
  Terms.memberIndices clusters ≡ₚ seq 0 (length labColors) /\
  Forall (fun cluster =>
            Forall (fun point =>
                      labColors !! MetalDetector.index point
                      = Some (MetalDetector.lab point))
                   (MetalDetector.points cluster))
         clusters.
Proof.
  cbv zeta.
  destruct (kMeansLabClustering_last labColors k iterations)
    as (before & Hlen & ->).
  destruct (kMeansIteration_partition labColors before) as (Hl & Hp & Hlab).
  { destruct before; [discriminate Hlen | discriminate]. }
  split; [rewrite Hl; exact Hlen|]. split; [exact Hp | exact Hlab].
Qed.

(** ** The metal mask *)

Section Mask.

Import TypedArray MetalDetector Terms.

Lemma markCluster_spec (cluster : Classified) (mask : list Z) (p : nat) :
  length (markCluster mask cluster) = length mask /\
  (markCluster mask cluster !! p = Some 255%Z <->
   mask !! p = Some 255%Z \/
   (p < length mask /\
    exists point, point ∈ points (fst cluster) /\ index point = p)) /\
  (forall v, markCluster mask cluster !! p = Some v ->
             v = 255%Z \/ mask !! p = Some v).
Proof.
  unfold markCluster. revert mask.
  induction (points (fst cluster)) as [|point pts IH]; intros mask.
  - simpl. split; [reflexivity|]. split; [|auto].
    split; [auto|]. intros [H | (_ & pt & Hpt & _)]; [exact H|].
    inversion Hpt.
  - cbn [fold_left].
    destruct (IH (<[index point := 255%Z]> mask)) as (Hlen & Hiff & Hval).
    rewrite length_insert in Hlen, Hiff.
    split; [exact Hlen|]. split.
    + rewrite Hiff. split.
      * intros [H | (Hp & pt & Hpt & Hi)].
        -- destruct (decide (p = index point)) as [->|Hne].
           ++ right. split.
              ** apply lookup_lt_Some in H. rewrite length_insert in H.
                 exact H.
              ** exists point. split; [left | reflexivity].
           ++ left. rewrite list_lookup_insert_ne in H by auto. exact H.
        -- right. split; [exact Hp|]. exists pt. split; [right; exact Hpt|].
           exact Hi.
      * intros [H | (Hp & pt & Hpt & Hi)].
        -- left. destruct (decide (p = index point)) as [->|Hne].
           ++ apply list_lookup_insert_eq. apply lookup_lt_Some in H. exact H.
           ++ rewrite list_lookup_insert_ne by auto. exact H.
        -- apply elem_of_cons in Hpt. destruct Hpt as [-> | Hpt].
           ++ left. rewrite <- Hi. apply list_lookup_insert_eq.
              rewrite Hi. exact Hp.
           ++ right. split; [exact Hp|]. exists pt. auto.
    + intros v Hv. apply Hval in Hv. destruct Hv as [Hv | Hv]; [auto|].
      destruct (decide (p = index point)) as [->|Hne].
      * rewrite list_lookup_insert_eq in Hv
          by (apply lookup_lt_Some in Hv; rewrite length_insert in Hv;
              exact Hv).
        left. congruence.
      * rewrite list_lookup_insert_ne in Hv by auto. auto.
Qed.

Lemma markClusters_spec (clusters : list Classified) (mask : list Z)
    (p : nat) :
  length (fold_left markCluster clusters mask) = length mask /\
  (fold_left markCluster clusters mask !! p = Some 255%Z <->
   mask !! p = Some 255%Z \/ (p < length mask /\ inCluster clusters p)) /\
  (forall v, fold_left markCluster clusters mask !! p = Some v ->
             v = 255%Z \/ mask !! p = Some v).
Proof.
  revert mask. induction clusters as [|c clusters IH]; intros mask.
  - simpl. split; [reflexivity|]. split; [|auto].
    split; [auto|]. intros [H | (_ & c & pt & Hc & _)]; [exact H|].
    inversion Hc.
  - cbn [fold_left].
    destruct (IH (markCluster mask c)) as (Hlen & Hiff & Hval).
    destruct (markCluster_spec c mask p) as (Hlen1 & Hiff1 & Hval1).
    rewrite Hlen1 in Hlen, Hiff.
    split; [exact Hlen|]. split.
    + rewrite Hiff, Hiff1. unfold inCluster. split.
      * intros [[H | (Hp & pt & Hpt & Hi)] | (Hp & c' & pt & Hc' & Hpt & Hi)].
        -- auto.
        -- right. split; [exact Hp|]. exists c, pt.
           split; [left | auto].
        -- right. split; [exact Hp|]. exists c', pt.
           split; [right; exact Hc' | auto].
      * intros [H | (Hp & c' & pt & Hc' & Hpt & Hi)]; [auto|].
        apply elem_of_cons in Hc'. destruct Hc' as [-> | Hc'].
        -- left. right. split; [exact Hp|]. exists pt. auto.
        -- right. split; [exact Hp|]. exists c', pt. auto.
    + intros v Hv. apply Hval in Hv. destruct Hv as [Hv | Hv]; [auto|].
      apply Hval1. exact Hv.
Qed.

Lemma detectMetalType_metalMask (imageData : ImageData)
    (result : DetectionResult) :
  detectMetalType imageData = resolve result ->
  metalMask result
  = fold_left markCluster (metalClusters imageData)
              (zeros (width imageData * height imageData)).
Proof.
  unfold detectMetalType.
  destruct (metalClusters imageData) as [|dominant rest]; [discriminate|].
  intros H. assert (forall A (x y : A), resolve x = resolve y -> x = y) as Hinj
    by (intros A x y Hxy; congruence).
  apply Hinj in H. rewrite <- H. reflexivity.
Qed.

End Mask.

(** X6.  When detection succeeds, the metal mask has one entry per pixel,
    every entry is 0 or 255, and the entries that are 255 are exactly the
    pixels of the clusters that were classified as metal with a
    confidence above 0.5: of all of them, not only of the dominant
    cluster that decides the colour. *)
Theorem metalMask_marks_metal_clusters (imageData : ImageData)
    (result : MetalDetector.DetectionResult) :
  MetalDetector.detectMetalType imageData = resolve result ->
  length (MetalDetector.metalMask result)
  = width imageData * height imageData /\
  (forall p v, MetalDetector.metalMask result !! p = Some v ->
               v = 0%Z \/ v = 255%Z) /\
  (forall p, MetalDetector.metalMask result !! p = Some 255%Z <->
             p < width imageData * height imageData /\
             Terms.inCluster (MetalDetector.metalClusters imageData) p).
Proof.
  intros Hrun. rewrite (detectMetalType_metalMask _ _ Hrun).
  set (n := width imageData * height imageData).
  assert (forall p v, TypedArray.zeros n !! p = Some v -> v = 0%Z) as Hzero.
  { intros p v Hv. unfold TypedArray.zeros in Hv.
    apply lookup_replicate in Hv. tauto. }
  assert (length (TypedArray.zeros n) = n) as Hn
    by (unfold TypedArray.zeros; apply length_replicate).
  split; [|split].
  - destruct (markClusters_spec (MetalDetector.metalClusters imageData)
                                (TypedArray.zeros n) 0) as (Hlen & _).
    rewrite Hlen. exact Hn.
  - intros p v Hv.
    destruct (markClusters_spec (MetalDetector.metalClusters imageData)
                                (TypedArray.zeros n) p) as (_ & _ & Hval).
    destruct (Hval v Hv) as [-> | H0]; [auto|].
    left. exact (Hzero p v H0).
  - intros p.
    destruct (markClusters_spec (MetalDetector.metalClusters imageData)
                                (TypedArray.zeros n) p) as (_ & Hiff & _).
    rewrite Hiff, Hn. split; [|auto].
    intros [H0 | H]; [|exact H].
    apply Hzero in H0. discriminate.
Qed.

(** The theorem at one pixel of yellow gold: the mask is [255]. *)
Lemma metalMask_marks_metal_clusters_witness :
  exists result,
    MetalDetector.detectMetalType Examples.goldSwatch = resolve result /\
    MetalDetector.metalMask result = [255%Z] /\
    length (MetalDetector.metalMask result)
    = width Examples.goldSwatch * height Examples.goldSwatch /\
    (forall p v, MetalDetector.metalMask result !! p = Some v ->
                 v = 0%Z \/ v = 255%Z) /\
    (forall p, MetalDetector.metalMask result !! p = Some 255%Z <->
               p < width Examples.goldSwatch * height Examples.goldSwatch /\
               Terms.inCluster
                 (MetalDetector.metalClusters Examples.goldSwatch) p).
Proof.
  eexists. split; [vm_compute; reflexivity|]. split; [reflexivity|].
  apply (metalMask_marks_metal_clusters Examples.goldSwatch).
  vm_compute. reflexivity.
Defined.

(** ** The post-processor on flat areas *)

Section FlatAreas.

Import JS Loop TypedArray ImageEnhancer Spec Terms.

Lemma byte_minus_itself (v : Z) :
  (0 <= v <= 255)%Z -> (ofZ v - ofZ v)%float = 0%float.
Proof.
  intros Hv. apply FloatAxioms.Leibniz.eqb_spec.
  apply (forall_from_spec 256 0
           (fun v => PrimFloat.Leibniz.eqb (ofZ v - ofZ v)%float 0%float));
    [|lia].
  by_evaluation.
Qed.

Lemma neighbour_offsets (width x y : nat) :
  1 <= x -> 1 <= y ->
  offset width x y - width * 4 = offset width x (y - 1) /\
  offset width x y + width * 4 = offset width x (y + 1) /\
  offset width x y - 4 = offset width (x - 1) y /\
  offset width x y + 4 = offset width (x + 1) y.
Proof.
  intros Hx Hy. unfold offset.
  destruct x as [|x]; [lia|]. destruct y as [|y]; [lia|].
  replace (S x - 1) with x by lia. replace (S y - 1) with y by lia.
  repeat split; nia.
Qed.

Lemma same_colour_distance (data : list Z) (i j : nat) :
  validBytes data -> i + 2 < length data -> j + 2 < length data ->
  (forall c, c < 3 -> at_ data (j + c) = at_ data (i + c)) ->
  colorDistance data i j = 0%float.
Proof.
  intros Hbytes Hi Hj Hsame. unfold colorDistance.
  pose proof (Hsame 0) as H0. pose proof (Hsame 1) as H1.
  pose proof (Hsame 2) as H2.
  rewrite !Nat.add_0_r in H0.
  rewrite !get_inside by lia.
  rewrite H0, H1, H2 by lia.
  rewrite !byte_minus_itself by (apply at_valid; exact Hbytes).
  reflexivity.
Qed.

Lemma flat_is_no_artifact (imageData : ImageData) (x y : nat) :
  wellFormed imageData -> validBytes (data imageData) ->
  interior (width imageData) (height imageData) x y = true ->
  flatAt (data imageData) (width imageData) x y ->
  isArtifact (data imageData) (offset (width imageData) x y) (width imageData)
  = false.
Proof.
  intros Hwf Hbytes Hin Hflat.
  rewrite isArtifact_variance by assumption.
  apply interior_bounds in Hin. destruct Hin as [Hx Hy].
  destruct (neighbour_offsets (width imageData) x y) as (Ht & Hb & Hl & Hr);
    [lia|lia|].
  unfold variance. rewrite Ht, Hb, Hl, Hr.
  assert (forall x' y', x' < width imageData -> y' < height imageData ->
            offset (width imageData) x' y' + 2 < length (data imageData))
    as Hinside.
  { intros x' y' Hx' Hy'.
    pose proof (pixel_inside imageData x' y' 2 Hwf Hx' Hy'). lia. }
  rewrite !same_colour_distance;
    try (apply Hinside; lia); try exact Hbytes;
    try (intros c Hc; apply Hflat; exact Hc).
  reflexivity.
Qed.

Lemma sharpenFormula_flat (v : Z) :
  (0 <= v <= 255)%Z -> sharpenFormula v v v v v = v.
Proof.
  intros Hv. unfold sharpenFormula, clampByte.
  replace (10 * v + 3 * (4 * v - v - v - v - v) + 5)%Z with (5 + v * 10)%Z
    by lia.
  rewrite Z.div_add by lia. change (5 / 10)%Z with 0%Z. lia.
Qed.

End FlatAreas.

(** X7.  Both filters of the post-processor leave flat areas alone: an
    interior pixel whose four neighbours have its colour keeps its three
    colour bytes under [removeArtifacts] (its colour distance is 0, not
    above 40) and under [enhanceImageStandard] (the Laplacian is 0). *)
Theorem flat_pixels_are_kept (imageData : ImageData) (x y c : nat) :
  Spec.wellFormed imageData ->
  Spec.validBytes (data imageData) ->
  Spec.interior (width imageData) (height imageData) x y = true ->
  Terms.flatAt (data imageData) (width imageData) x y ->
  c < 3 ->
  let i := TypedArray.offset (width imageData) x y + c in
  data (ImageEnhancer.removeArtifacts imageData) !! i = data imageData !! i /\
  data (ImageEnhancer.enhanceImageStandard imageData) !! i
  = data imageData !! i.
Proof.
  intros Hwf Hbytes Hin Hflat Hc i.
  pose proof (proj1 (interior_bounds _ _ _ _) Hin) as [Hx Hy].
  assert (i < length (data imageData)) as Hi
    by (apply pixel_inside; [exact Hwf|lia|lia|lia]).
  assert (data imageData !! i = Some (TypedArray.at_ (data imageData) i))
    as Hat.
  { unfold TypedArray.at_.
    destruct (lookup_lt_is_Some_2 (data imageData) i Hi) as [v ->].
    reflexivity. }
  split.
  - subst i. rewrite removeArtifacts_lookup by (try exact Hi; lia).
    rewrite flat_is_no_artifact by assumption.
    rewrite andb_false_r. symmetry. exact Hat.
  - subst i. rewrite enhanceImageStandard_lookup by (try exact Hi; lia).
    rewrite Hin. replace (c <? 3) with true by (symmetry; apply Nat.ltb_lt; lia).
    cbn [andb].
    rewrite (sharpened_formula imageData x y c Hwf Hbytes Hin Hc).
    cbv zeta. destruct (Hflat c Hc) as (-> & -> & -> & ->).
    rewrite sharpenFormula_flat by (apply at_valid; exact Hbytes).
    symmetry. exact Hat.
Qed.

(** The theorem at the middle pixel of a uniform 3x3 gray image. *)
Lemma flat_pixels_are_kept_witness :
  let i := TypedArray.offset (width Examples.grayImage9) 1 1 + 0 in
  data (ImageEnhancer.removeArtifacts Examples.grayImage9) !! i
  = data Examples.grayImage9 !! i /\
  data (ImageEnhancer.enhanceImageStandard Examples.grayImage9) !! i
  = data Examples.grayImage9 !! i.
Proof.
  apply (flat_pixels_are_kept Examples.grayImage9 1 1 0).
  - reflexivity.
  - unfold Spec.validBytes. simpl. repeat (constructor; [lia|]). constructor.
  - reflexivity.
  - intros c Hc.
    assert (c = 0 \/ c = 1 \/ c = 2) as [-> | [-> | ->]] by lia;
      repeat split; reflexivity.
  - lia.
Defined.

(** ** The result when the second canvas gives no context *)

Section Crop.

Import TypedArray ImageEnhancer.

Lemma flat_map_chunks_length (f : nat -> list Z) (n : nat) :
  (forall q, length (f q) = 4) -> length (flat_map f (seq 0 n)) = n * 4.
Proof.
  intros Hf. induction n as [|n IH]; [reflexivity|].
  rewrite seq_S, flat_map_app, length_app, IH. simpl.
  rewrite app_nil_r, Hf. lia.
Qed.

Lemma flat_map_chunks_lookup (f : nat -> list Z) (n p c : nat) :
  (forall q, length (f q) = 4) -> p < n -> c < 4 ->
  flat_map f (seq 0 n) !! (p * 4 + c) = f p !! c.
Proof.
  intros Hf Hp Hc. induction n as [|n IH]; [lia|].
  rewrite seq_S, flat_map_app. simpl. rewrite app_nil_r.
  destruct (decide (p = n)) as [->|Hne].
  - rewrite lookup_app_r by (rewrite flat_map_chunks_length by exact Hf; lia).
    rewrite flat_map_chunks_length by exact Hf. f_equal. lia.
  - rewrite lookup_app_l by (rewrite flat_map_chunks_length by exact Hf; lia).
    apply IH. lia.
Qed.

Lemma putImageData_lookup (canvas imageData : ImageData) (x y c : nat) :
  x < width canvas -> y < height canvas -> c < 4 ->
  data (putImageData canvas imageData) !! (offset (width canvas) x y + c)
  = Some (if (x <? width imageData) && (y <? height imageData)
          then at_ (data imageData) (offset (width imageData) x y + c)
          else at_ (data canvas) (offset (width canvas) x y + c)).
Proof.
  intros Hx Hy Hc. unfold putImageData. cbn [data]. unfold offset.
  rewrite flat_map_chunks_lookup; [| |nia|exact Hc].
  - rewrite Nat.add_comm, Nat.Div0.mod_add, Nat.mod_small by lia.
    rewrite Nat.div_add by lia. rewrite Nat.div_small by lia. cbn [Nat.add].
    rewrite list_lookup_fmap, lookup_seq_lt by lia.
    cbn [fmap option_fmap option_map Nat.add].
    destruct ((x <? width imageData) && (y <? height imageData));
      reflexivity.
  - intros q. rewrite length_map, length_seq. reflexivity.
Qed.

End Crop.

(** X8.  When the second canvas yields no context, [enhanceImage] resolves
    with an image of the size of the input, whatever the size of the
    enhanced image: the enhanced image is drawn at the origin of the first
    canvas, so only the part of it that fits is kept, and where it is
    smaller the pixels of the original image, as it was loaded, remain. *)
Theorem enhanceImage_without_second_context (env : ImageEnhancer.Environment)
    (original : ImageData) :
  ImageEnhancer.enhancedContext env = false ->
  let enhanced :=
    ImageEnhancer.applySuperResolution env
      (ImageEnhancer.removeArtifacts original) in
  exists out,
    ImageEnhancer.enhanceImage env original = resolve out /\
    width out = width original /\ height out = height original /\
    length (data out) = width original * height original * 4 /\
    forall x y c, x < width original -> y < height original -> c < 4 ->
      data out !! (TypedArray.offset (width original) x y + c)
      = Some (if (x <? width enhanced) && (y <? height enhanced)
              then TypedArray.at_ (data enhanced)
                     (TypedArray.offset (width enhanced) x y + c)
              else TypedArray.at_ (data original)
                     (TypedArray.offset (width original) x y + c)).
Proof.
  intros Hctx enhanced. unfold ImageEnhancer.enhanceImage. rewrite Hctx.
  fold enhanced. eexists. split; [reflexivity|].
  split; [reflexivity|]. split; [reflexivity|]. split.
  - unfold ImageEnhancer.putImageData. cbn [data].
    apply flat_map_chunks_length.
    intros q. rewrite length_map, length_seq. reflexivity.
  - intros x y c Hx Hy Hc. apply putImageData_lookup; assumption.
Qed.

(** The theorem for a model that doubles a 1x1 image to 2x2 white: the
    result is the one pixel at the top left of the enlarged image. *)
Lemma enhanceImage_without_second_context_witness :
  let env :=
    ImageEnhancer.mkEnvironment (fun _ => Some Examples.whiteImage) false in
  let enhanced :=
    ImageEnhancer.applySuperResolution env
      (ImageEnhancer.removeArtifacts Examples.goldSwatch) in
  exists out,
    ImageEnhancer.enhanceImage env Examples.goldSwatch = resolve out /\
    width out = width Examples.goldSwatch /\
    height out = height Examples.goldSwatch /\
    length (data out)
    = width Examples.goldSwatch * height Examples.goldSwatch * 4 /\
    forall x y c, x < width Examples.goldSwatch ->
                  y < height Examples.goldSwatch -> c < 4 ->
      data out !! (TypedArray.offset (width Examples.goldSwatch) x y + c)
      = Some (if (x <? width enhanced) && (y <? height enhanced)
              then TypedArray.at_ (data enhanced)
                     (TypedArray.offset (width enhanced) x y + c)
              else TypedArray.at_ (data Examples.goldSwatch)
                     (TypedArray.offset (width Examples.goldSwatch) x y + c)).
Proof.
  apply (enhanceImage_without_second_context
           (ImageEnhancer.mkEnvironment (fun _ => Some Examples.whiteImage)
                                        false)
           Examples.goldSwatch).
  reflexivity.
Defined.

(** ** The direct HSV transfer: what the loops leave alone *)

Section HsvFrame.

Import Loop TypedArray ImageProcessing HsvTransfer Terms.

Lemma hsvAt_lookup (d d' : list Z) (i : nat) :
  (forall c, c < 3 -> d !! (i + c) = d' !! (i + c)) ->
  hsvAt d i = hsvAt d' i.
Proof.
  intros H. unfold hsvAt.
  rewrite (get_lookup d d' i i)
    by (replace i with (i + 0) by lia; apply H; lia).
  rewrite (get_lookup d d' (i + 1) (i + 1)) by (apply H; lia).
  rewrite (get_lookup d d' (i + 2) (i + 2)) by (apply H; lia).
  reflexivity.
Qed.

Lemma transferPixel_kept (random : nat -> float) (targetColor : MetalColor)
    (intensity : float) (data : list Z) (p q : nat) (st : list Z * nat) :
  kept data p (fst st) ->
  kept data p (fst (transferPixel random targetColor intensity (4 * q) st)).
Proof.
  intros [Halpha Hcolour]. unfold transferPixel.
  fold (hsvAt (fst st) (4 * q)).
  destruct (isGoldColor (hsvAt (fst st) (4 * q))) eqn:Hgold;
    [|split; assumption].
  destruct (transformGoldColor _ _ _ _ _) as [newR newG newB].
  assert (q <> p \/ isGoldColor (hsvAt data (4 * p)) = true) as Hcase.
  { destruct (decide (q = p)) as [->|Hne]; [right | left; exact Hne].
    destruct (isGoldColor (hsvAt data (4 * p))) eqn:Hp; [reflexivity|].
    rewrite (hsvAt_lookup (fst st) data (4 * p)) in Hgold
      by (apply Hcolour; reflexivity).
    congruence. }
  destruct (_ <? _)%float; cbn [fst]; split;
    try (rewrite set3_lookup_ne by lia; exact Halpha);
    intros Hp c Hc;
    (destruct Hcase as [Hne | Hq]; [|congruence]);
    rewrite set3_lookup_ne by lia; apply Hcolour; assumption.
Qed.

Lemma smoothPixel_kept (tempData data : list Z) (width y x p : nat)
    (d : list Z) :
  kept data p d -> kept data p (smoothPixel tempData width y x d).
Proof.
  intros [Halpha Hcolour]. unfold smoothPixel, offset.
  set (q := y * width + x).
  destruct (isGoldColor (hsvAt d (q * 4))) eqn:Hgold; [|split; assumption].
  assert (q <> p \/ isGoldColor (hsvAt data (4 * p)) = true) as Hcase.
  { destruct (decide (q = p)) as [Heq|Hne]; [right | left; exact Hne].
    destruct (isGoldColor (hsvAt data (4 * p))) eqn:Hp; [reflexivity|].
    rewrite Heq, (Nat.mul_comm p 4) in Hgold.
    rewrite (hsvAt_lookup d data (4 * p)) in Hgold
      by (apply Hcolour; reflexivity).
    congruence. }
  split.
  - rewrite for_range_lookup_frame; [exact Halpha|].
    intros c out Hc. apply list_lookup_insert_ne. lia.
  - intros Hp c Hc.
    destruct Hcase as [Hne | Hq]; [|congruence].
    rewrite for_range_lookup_frame; [apply Hcolour; assumption|].
    intros c' out Hc'. apply list_lookup_insert_ne. lia.
Qed.

End HsvFrame.

(** X9.  The direct HSV transfer of imageProcessing.ts changes only the
    colour bytes of pixels that [isGoldColor] accepts.  Whatever the
    image, the target, the pre-analysis sample and the random numbers,
    and both with and without the smoothing pass of large images, the
    alpha byte of every pixel is the input's, and so are the three colour
    bytes of every pixel whose input colour is not a gold. *)
Theorem hsv_transfer_keeps_other_pixels (random : nat -> float)
    (sampleData : list Z) (imageData : ImageData) (targetColor : MetalColor)
    (p : nat) :
  let out :=
    data (HsvTransfer.transformMetalColor random sampleData imageData
                                          targetColor) in
  out !! (4 * p + 3) = data imageData !! (4 * p + 3) /\
  (HsvTransfer.isGoldColor (HsvTransfer.hsvAt (data imageData) (4 * p))
   = false ->
   forall c, c < 3 -> out !! (4 * p + c) = data imageData !! (4 * p + c)).
Proof.
  cbv zeta. unfold HsvTransfer.transformMetalColor. cbn [data].
  set (intensity := HsvTransfer.transformIntensity _ _).
  set (transferred := fst (fold_left _ _ _)).
  assert (Terms.kept (data imageData) p transferred) as Hloop.
  { subst transferred.
    apply (fold_left_invariant
             (fun st => Terms.kept (data imageData) p (fst st))).
    - split; [reflexivity | intros _ c _; reflexivity].
    - intros i st Hi Hst. apply elem_of_steps4 in Hi. destruct Hi as [q ->].
      apply transferPixel_kept. exact Hst. }
  destruct ((1000 <? width imageData) || (1000 <? height imageData)).
  - apply (for_range_invariant (Terms.kept (data imageData) p)); [exact Hloop|].
    intros y d _ Hd.
    apply (for_range_invariant (Terms.kept (data imageData) p)); [exact Hd|].
    intros x d' _ Hd'. apply smoothPixel_kept. exact Hd'.
  - exact Hloop.
Qed.

(** ** The direct HSV transfer on neutral colours *)

(** X10.  [isGoldColor] takes every light neutral colour for gold: the
    gray [(v, v, v)] is accepted exactly from 192 on, white included.  The
    transfer to rose then recolours it, whatever the random draw: the
    result has more red than green and blue.  So a white background turns
    pink; grays below 192 are left alone. *)
Theorem light_neutral_pixels_are_recoloured (v : Z) (random : float) :
  (0 <= v <= 255)%Z ->
  let c := JS.ofZ v in
  let out := ImageProcessing.transformGoldColor random c c c rose in
  HsvTransfer.isGoldColor (ImageProcessing.rgbToHsv c c c) = (192 <=? v)%Z /\
  ((192 <= v)%Z ->
   (ImageProcessing.g out <? ImageProcessing.r out)%float = true /\
   (ImageProcessing.b out <? ImageProcessing.r out)%float = true).
Proof.
  intros Hv c out. split.
  - apply Bool.eqb_prop.
    apply (forall_from_spec 256 0
             (fun v =>
                Bool.eqb
                  (HsvTransfer.isGoldColor
                     (ImageProcessing.rgbToHsv (JS.ofZ v) (JS.ofZ v)
                                               (JS.ofZ v)))
                  (192 <=? v)%Z)); [|lia].
    by_evaluation.
  - intros Hlight.
    assert (Terms.neutralTurnsPink v = true) as Hpink.
    { apply (forall_from_spec 64 192 Terms.neutralTurnsPink); [|lia].
      by_evaluation. }
    unfold Terms.neutralTurnsPink in Hpink. fold c in Hpink.
    apply andb_true_iff in Hpink. destruct Hpink as [Hpink Hb].
    apply andb_true_iff in Hpink. destruct Hpink as [Hpink Hg].
    apply andb_true_iff in Hpink. destruct Hpink as [_ Hdraw].
    apply negb_true_iff in Hdraw.
    subst out.
    rewrite (transformGoldColor_without_draw random 0 c c c rose Hdraw).
    split; assumption.
Qed.

(** The theorem on white. *)
Lemma light_neutral_pixels_are_recoloured_witness :
  let c := JS.ofZ 255 in
  let out := ImageProcessing.transformGoldColor 0.5 c c c rose in
  HsvTransfer.isGoldColor (ImageProcessing.rgbToHsv c c c) = (192 <=? 255)%Z /\
  ((192 <= 255)%Z ->
   (ImageProcessing.g out <? ImageProcessing.r out)%float = true /\
   (ImageProcessing.b out <? ImageProcessing.r out)%float = true).
Proof.
  apply (light_neutral_pixels_are_recoloured 255 0.5). lia.
Defined.

(** ** The Lab-profile transfer: what the loops leave alone *)

Section ProfileFrame.

Import Loop TypedArray ImageProcessingAI Spec Terms.

Lemma enhancePixel_other (width y x j : nat) (d : list Z) :
  (j < offset width x y \/ offset width x y + 3 <= j) ->
  enhancePixel width y x d !! j = d !! j.
Proof.
  intros Hj. unfold enhancePixel.
  destruct (_ <? _)%float; [reflexivity|].
  apply for_range_lookup_frame.
  intros c out Hc. apply list_lookup_insert_ne. lia.
Qed.

Lemma enhancePixel_samePixel (data : list Z) (width x y x' y' : nat)
    (d : list Z) :
  x < width -> x' < width ->
  ((x', y') <> (x, y) \/
   (get data (offset width x y + 3) <? 128)%float = true) ->
  samePixel data (offset width x y) d ->
  samePixel data (offset width x y) (enhancePixel width y' x' d).
Proof.
  intros Hx Hx' Hcase Hsame c Hc.
  destruct (decide ((x', y') = (x, y))) as [Heq|Hne].
  - destruct Hcase as [Hne | Halpha]; [contradiction|].
    assert (x' = x) as -> by congruence. assert (y' = y) as -> by congruence.
    unfold enhancePixel.
    rewrite (get_lookup d data (offset width x y + 3) (offset width x y + 3))
      by (apply Hsame; lia).
    rewrite Halpha. apply Hsame. exact Hc.
  - rewrite enhancePixel_other; [apply Hsame; exact Hc|].
    destruct (offset_apart width x' y' x y Hx' Hx Hne); lia.
Qed.

Lemma enhanceImageQuality_samePixel (imageData : ImageData) (x y : nat) :
  x < width imageData ->
  (interior (width imageData) (height imageData) x y = false \/
   (get (data imageData) (offset (width imageData) x y + 3) <? 128)%float
   = true) ->
  samePixel (data imageData) (offset (width imageData) x y)
            (data (enhanceImageQuality imageData)).
Proof.
  intros Hx Hcase. unfold enhanceImageQuality, for_interior. cbn [data].
  apply (for_range_invariant
           (samePixel (data imageData) (offset (width imageData) x y)));
    [intros c _; reflexivity|].
  intros y' d Hy' Hd.
  apply (for_range_invariant
           (samePixel (data imageData) (offset (width imageData) x y)));
    [exact Hd|].
  intros x' d' Hx' Hd'.
  apply enhancePixel_samePixel; [exact Hx | lia | | exact Hd'].
  destruct Hcase as [Hborder | Halpha]; [left | right; exact Halpha].
  intros Heq.
  assert (x' = x) as <- by congruence. assert (y' = y) as <- by congruence.
  assert (interior (width imageData) (height imageData) x' y' = true)
    as Hin by (apply interior_bounds; lia).
  congruence.
Qed.

Lemma enhanceImageQuality_alpha (imageData : ImageData) (p : nat) :
  data (enhanceImageQuality imageData) !! (4 * p + 3)
  = data imageData !! (4 * p + 3).
Proof.
  unfold enhanceImageQuality, for_interior. cbn [data].
  apply for_range_lookup_frame. intros y d _.
  apply for_range_lookup_frame. intros x d' _.
  unfold enhancePixel, offset.
  destruct (_ <? _)%float; [reflexivity|].
  apply for_range_lookup_frame.
  intros c out Hc. apply list_lookup_insert_ne. lia.
Qed.

Lemma processPixel_frame (targetColor : MetalColor) (q j : nat) (d : list Z) :
  j <> 4 * q -> j <> 4 * q + 1 -> j <> 4 * q + 2 ->
  processPixel targetColor (4 * q) d !! j = d !! j.
Proof.
  intros H0 H1 H2. unfold processPixel.
  destruct (isMetalInLab _); [|reflexivity].
  apply set3_lookup_ne; assumption.
Qed.

Lemma recolor_alpha (targetColor : MetalColor) (data : list Z) (p : nat) :
  recolor targetColor data !! (4 * p + 3) = data !! (4 * p + 3).
Proof.
  unfold recolor.
  apply (fold_left_invariant
           (fun d => d !! (4 * p + 3) = data !! (4 * p + 3)));
    [reflexivity|].
  intros i d Hi Hd. apply elem_of_steps4 in Hi. destruct Hi as [q ->].
  rewrite processPixel_frame by lia. exact Hd.
Qed.

Lemma recolor_samePixel (targetColor : MetalColor) (data : list Z) (p : nat) :
  isMetalInLab (labAt data (4 * p)) = false ->
  samePixel data (4 * p) (recolor targetColor data).
Proof.
  intros Hp. unfold recolor.
  apply (fold_left_invariant (samePixel data (4 * p)));
    [intros c _; reflexivity|].
  intros i d Hi Hd. apply elem_of_steps4 in Hi. destruct Hi as [q ->].
  destruct (decide (q = p)) as [->|Hne].
  - unfold processPixel.
    rewrite (get_lookup d data (4 * p) (4 * p))
      by (replace (4 * p) with (4 * p + 0) by lia; apply Hd; lia).
    rewrite (get_lookup d data (4 * p + 1) (4 * p + 1)) by (apply Hd; lia).
    rewrite (get_lookup d data (4 * p + 2) (4 * p + 2)) by (apply Hd; lia).
    fold (labAt data (4 * p)). rewrite Hp. exact Hd.
  - intros c Hc. rewrite processPixel_frame by lia. apply Hd. exact Hc.
Qed.

End ProfileFrame.

(** X11.  [enhanceImageQuality] of imageProcessingAI.ts sharpens in place,
    but it never touches the alpha byte of any pixel, nor any byte of a
    pixel on the border of the image or of a pixel that is transparent
    (alpha below 128). *)
Theorem enhanceImageQuality_keeps_border_and_transparent
    (imageData : ImageData) (x y : nat) :
  x < width imageData ->
  let i := TypedArray.offset (width imageData) x y in
  let out := data (ImageProcessingAI.enhanceImageQuality imageData) in
  out !! (i + 3) = data imageData !! (i + 3) /\
  (Spec.interior (width imageData) (height imageData) x y = false \/
   (TypedArray.get (data imageData) (i + 3) <? 128)%float = true ->
   forall c, c < 3 -> out !! (i + c) = data imageData !! (i + c)).
Proof.
  intros Hx i out. split.
  - subst i out. unfold TypedArray.offset.
    rewrite (Nat.mul_comm _ 4). apply enhanceImageQuality_alpha.
  - intros Hcase c Hc.
    apply (enhanceImageQuality_samePixel imageData x y Hx Hcase). lia.
Qed.

(** The theorem at a corner of a 3x3 image. *)
Lemma enhanceImageQuality_keeps_border_and_transparent_witness :
  let i := TypedArray.offset (width Examples.outlierImage) 0 0 in
  let out := data (ImageProcessingAI.enhanceImageQuality
                     Examples.outlierImage) in
  out !! (i + 3) = data Examples.outlierImage !! (i + 3) /\
  (Spec.interior (width Examples.outlierImage)
                 (height Examples.outlierImage) 0 0 = false \/
   (TypedArray.get (data Examples.outlierImage) (i + 3) <? 128)%float = true ->
   forall c, c < 3 -> out !! (i + c) = data Examples.outlierImage !! (i + c)).
Proof.
  apply (enhanceImageQuality_keeps_border_and_transparent
           Examples.outlierImage 0 0).
  simpl. lia.
Defined.

(** X12.  [processJewelryImage] keeps the alpha byte of every pixel, and
    keeps a pixel that [isMetalInLab] rejects as it was when the pixel is
    on the border of the image or transparent.  An opaque interior pixel
    is not protected by being no metal: the sharpening that follows the
    recolouring changes the mid-gray pixel in the middle of a dark 3x3
    image, in which nothing is metal. *)
Theorem processJewelryImage_keeps_some_other_pixels :
  (forall (imageData : ImageData) (targetColor : MetalColor) (x y : nat),
     x < width imageData ->
     let i := TypedArray.offset (width imageData) x y in
     let out :=
       data (ImageProcessingAI.processJewelryImage imageData targetColor) in
     out !! (i + 3) = data imageData !! (i + 3) /\
     (ImageProcessingAI.isMetalInLab (Terms.labAt (data imageData) i)
      = false ->
      Spec.interior (width imageData) (height imageData) x y = false \/
      (TypedArray.get (data imageData) (i + 3) <? 128)%float = true ->
      forall c, c < 3 -> out !! (i + c) = data imageData !! (i + c))) /\
  (forall targetColor : MetalColor,
     let i := TypedArray.offset (width Examples.grayDot) 1 1 in
     let out :=
       data (ImageProcessingAI.processJewelryImage Examples.grayDot
                                                   targetColor) in
     ImageProcessingAI.isMetalInLab (Terms.labAt (data Examples.grayDot) i)
     = false /\
     data Examples.grayDot !! i = Some 100%Z /\ out !! i = Some 145%Z).
Proof.
  split.
  - intros imageData targetColor x y Hx i out.
    set (recolored :=
           mkImageData
             (ImageProcessingAI.recolor targetColor (data imageData))
             (width imageData) (height imageData)).
    assert (forall p, data recolored !! (4 * p + 3)
                      = data imageData !! (4 * p + 3)) as Halpha
      by (intros p; apply recolor_alpha).
    assert (i = 4 * (y * width imageData + x)) as Hi
      by (subst i; unfold TypedArray.offset; lia).
    split.
    + subst out. unfold ImageProcessingAI.processJewelryImage.
      fold recolored. rewrite Hi, enhanceImageQuality_alpha. apply Halpha.
    + intros Hmetal Hcase c Hc.
      pose proof (recolor_samePixel targetColor (data imageData)
                    (y * width imageData + x)) as Hrec.
      rewrite <- Hi in Hrec. specialize (Hrec Hmetal).
      subst out. unfold ImageProcessingAI.processJewelryImage.
      fold recolored.
      rewrite <- (Hrec c) by lia.
      apply (enhanceImageQuality_samePixel recolored x y Hx); [|lia].
      destruct Hcase as [Hborder | Htransparent]; [left; exact Hborder|].
      right. cbn [width data recolored].
      rewrite (get_lookup _ (data imageData) _ (i + 3)); [exact Htransparent|].
      fold i. apply Hrec. lia.
  - intros targetColor. cbv zeta.
    destruct targetColor; repeat split; vm_compute; reflexivity.
Qed.

(** ** The colours detection hands on *)

Section LabValues.

Import Loop TypedArray MetalDetector Spec Terms.

Lemma steps4_length (n : nat) : length (steps4 n) = (n + 3) / 4.
Proof. unfold steps4. rewrite length_map, length_seq. reflexivity. Qed.

Lemma labColorsOf_length (imageData : ImageData) :
  wellFormed imageData ->
  length (labColorsOf (data imageData))
  = width imageData * height imageData.
Proof.
  intros Hwf. unfold labColorsOf. rewrite length_map, steps4_length, Hwf.
  replace (width imageData * height imageData * 4 + 3)
    with (3 + width imageData * height imageData * 4) by lia.
  rewrite Nat.div_add by lia. reflexivity.
Qed.

Lemma labColorsOf_lookup (data : list Z) (p : nat) (c : ColorSpace.Lab) :
  labColorsOf data !! p = Some c ->
  c = ColorSpace.rgbToLab (get data (4 * p)) (get data (4 * p + 1))
                          (get data (4 * p + 2)).
Proof.
  unfold labColorsOf, steps4. intros H.
  change (map ?f ?l) with (f <$> l) in H.
  rewrite !list_lookup_fmap in H.
  destruct (seq 0 ((length data + 3) / 4) !! p) as [q|] eqn:Hq;
    [|discriminate].
  apply lookup_seq in Hq. destruct Hq as [-> _].
  cbn [fmap option_fmap option_map Nat.add] in H. congruence.
Qed.

Lemma detectMetalType_labValues (imageData : ImageData)
    (result : DetectionResult) :
  detectMetalType imageData = resolve result ->
  exists dominant,
    dominant ∈ metalClusters imageData /\
    labValues result = map lab (points (fst dominant)).
Proof.
  unfold detectMetalType.
  destruct (metalClusters imageData) as [|dominant rest]; [discriminate|].
  intros H. exists dominant. split; [left|].
  assert (forall A (x y : A), resolve x = resolve y -> x = y) as Hinj
    by (intros A x y Hxy; congruence).
  apply Hinj in H. rewrite <- H. reflexivity.
Qed.

End LabValues.

(** X13.  When detection succeeds on a well-formed image, every colour of
    the [labValues] it returns is the Lab colour of a pixel of the image,
    and that pixel is marked in the metal mask. *)
Theorem labValues_are_colours_of_masked_pixels (imageData : ImageData)
    (result : MetalDetector.DetectionResult) :
  Spec.wellFormed imageData ->
  MetalDetector.detectMetalType imageData = resolve result ->
  forall v, v ∈ MetalDetector.labValues result ->
    exists p,
      p < width imageData * height imageData /\
      v = ColorSpace.rgbToLab (TypedArray.get (data imageData) (4 * p))
                              (TypedArray.get (data imageData) (4 * p + 1))
                              (TypedArray.get (data imageData) (4 * p + 2)) /\
      MetalDetector.metalMask result !! p = Some 255%Z.
Proof.
  intros Hwf Hrun v Hv.
  destruct (detectMetalType_labValues _ _ Hrun) as (dominant & Hdom & Hlab).
  rewrite Hlab in Hv. apply list_elem_of_fmap in Hv.
  destruct Hv as (point & -> & Hpoint).
  pose proof (proj1 (elem_of_metalClusters _ _) Hdom) as [_ Hclass].
  unfold MetalDetector.classifiedClusters in Hclass.
  apply list_elem_of_fmap in Hclass.
  destruct Hclass as (cluster & Hdominant & Hcluster).
  pose proof (kMeansLabClustering_labelled
                (MetalDetector.labColorsOf (data imageData)) 5 9)
    as Hlabelled.
  unfold Terms.labelled in Hlabelled.
  rewrite Forall_forall in Hlabelled.
  specialize (Hlabelled cluster Hcluster).
  rewrite Forall_forall in Hlabelled.
  assert (point ∈ MetalDetector.points cluster) as Hin
    by (rewrite Hdominant in Hpoint; exact Hpoint).
  specialize (Hlabelled point Hin).
  exists (MetalDetector.index point).
  assert (MetalDetector.index point < width imageData * height imageData)
    as Hp.
  { rewrite <- (labColorsOf_length imageData Hwf).
    apply lookup_lt_Some in Hlabelled. exact Hlabelled. }
  split; [exact Hp|]. split.
  - apply labColorsOf_lookup. exact Hlabelled.
  - rewrite (detectMetalType_metalMask _ _ Hrun).
    destruct (markClusters_spec (MetalDetector.metalClusters imageData)
                (TypedArray.zeros (width imageData * height imageData))
                (MetalDetector.index point)) as (_ & Hiff & _).
    apply Hiff. right. split.
    + unfold TypedArray.zeros. rewrite length_replicate. exact Hp.
    + exists dominant, point. split; [exact Hdom|]. split; [exact Hpoint|].
      reflexivity.
Qed.

(** The theorem at one pixel of yellow gold. *)
Lemma labValues_are_colours_of_masked_pixels_witness :
  exists result v,
    MetalDetector.detectMetalType Examples.goldSwatch = resolve result /\
    MetalDetector.labValues result = [v] /\
    exists p,
      p < width Examples.goldSwatch * height Examples.goldSwatch /\
      v = ColorSpace.rgbToLab
            (TypedArray.get (data Examples.goldSwatch) (4 * p))
            (TypedArray.get (data Examples.goldSwatch) (4 * p + 1))
            (TypedArray.get (data Examples.goldSwatch) (4 * p + 2)) /\
      MetalDetector.metalMask result !! p = Some 255%Z.
Proof.
  eexists. eexists. split; [vm_compute; reflexivity|].
  split; [reflexivity|].
  apply (labValues_are_colours_of_masked_pixels Examples.goldSwatch).
  - reflexivity.
  - vm_compute. reflexivity.
  - cbn [MetalDetector.labValues]. left.
Defined.

(** ** The detection of the component *)

Section ComponentDetection.

Import JS ImageProcessing ColorTransformer Terms.

Lemma scorePixel_nothing (data : list Z) (i : nat) (st : float * float) :
  scoresNothing data i = true -> scorePixel data i st = st.
Proof.
  unfold scoresNothing, scorePixel. intros H.
  apply andb_true_iff in H. destruct H as [H H3].
  apply andb_true_iff in H. destruct H as [H1 H2].
  apply negb_true_iff in H1, H2, H3.
  rewrite H1, H2, H3. destruct st; reflexivity.
Qed.

End ComponentDetection.

(** X14.  [detectColor] of the component always answers, with two
    different defaults.  When the image does not load or the canvas gives
    no context it answers yellow.  When the image loads but no sampled
    pixel passes any of its three gold tests (an empty, black or
    blue image, say), both scores stay 0 and it answers rose, since yellow
    needs the strictly higher score. *)
Theorem detectColor_defaults :
  ColorTransformer.detectColor ColorTransformer.loadFailed = yellow /\
  ColorTransformer.detectColor ColorTransformer.noContext = yellow /\
  forall imageData : ImageData,
    (forall i, i ∈ ColorTransformer.sampleIndices (length (data imageData)) ->
               Terms.scoresNothing (data imageData) i = true) ->
    ColorTransformer.detectColor (ColorTransformer.decoded imageData) = rose.
Proof.
  split; [reflexivity|]. split; [reflexivity|].
  intros imageData Hnone. unfold ColorTransformer.detectColor.
  assert (ColorTransformer.scores (data imageData) = (0, 0)%float) as ->.
  { unfold ColorTransformer.scores.
    apply (fold_left_invariant (fun st => st = (0, 0)%float));
      [reflexivity|].
    intros i st Hi ->. apply scorePixel_nothing. apply Hnone. exact Hi. }
  reflexivity.
Qed.

(** ** k-means: the cluster a colour is assigned to *)

Section FloatOrder.

Local Open Scope float_scope.

Lemma SFltb_irrefl (a : spec_float) : SFltb a a = false.
Proof.
  unfold SFltb.
  destruct a as [s | s | | s m e]; simpl; try reflexivity.
  - destruct s; reflexivity.
  - change (Pos.compare_cont Eq m m) with (Pos.compare m m).
    rewrite Z.compare_refl, Pos.compare_refl. destruct s; reflexivity.
Qed.

Lemma SFltb_trans (a b c : spec_float) :
  SFltb a b = true -> SFltb b c = true -> SFltb a c = true.
Proof.
  unfold SFltb.
  destruct a as [sa | sa | | sa ma ea], b as [sb | sb | | sb mb eb],
           c as [sc | sc | | sc mc ec];
    simpl; try discriminate; try reflexivity;
    repeat match goal with s : bool |- _ => destruct s end;
    simpl; try discriminate; try reflexivity;
    change (Pos.compare_cont Eq ?x ?y) with (Pos.compare x y);
    destruct (Z.compare_spec ea eb), (Z.compare_spec eb ec),
             (Z.compare_spec ea ec);
    subst; try lia; try discriminate; try reflexivity;
    destruct (Pos.compare_spec ma mb), (Pos.compare_spec mb mc),
             (Pos.compare_spec ma mc);
    subst; simpl; try lia; try discriminate; reflexivity.
Qed.

Lemma ltb_irrefl (x : float) : (x <? x) = false.
Proof. rewrite ltb_spec. apply SFltb_irrefl. Qed.

Lemma ltb_trans (x y z : float) :
  (x <? y) = true -> (y <? z) = true -> (x <? z) = true.
Proof. rewrite !ltb_spec. apply SFltb_trans. Qed.

(** Replacing the running minimum [m] by a number [y] below it keeps every
    earlier number [x] not below the minimum. *)
Lemma ltb_keeps_minimum (x y m : float) :
  (x <? m) = false -> (y <? m) = true -> (x <? y) = false.
Proof.
  intros Hx Hy. destruct (x <? y) eqn:Hxy; [|reflexivity].
  rewrite (ltb_trans x y m Hxy Hy) in Hx. discriminate.
Qed.

(** Numbers that are not below infinity (infinity itself and NaN) are not
    below one another. *)
Lemma ltb_above_all (x y : float) :
  (x <? infinity) = false -> (y <? infinity) = false -> (x <? y) = false.
Proof.
  rewrite !ltb_spec.
  change (Prim2SF infinity) with (S754_infinity false).
  unfold SFltb.
  destruct (Prim2SF x) as [sx | sx | | sx mx ex],
           (Prim2SF y) as [sy | sy | | sy my ey];
    simpl; try discriminate; try reflexivity;
    repeat match goal with s : bool |- _ => destruct s end;
    simpl; try discriminate; reflexivity.
Qed.

End FloatOrder.

Section Nearest.

Import MetalDetector.
Local Open Scope float_scope.

Lemma nearest_fold (lab : ColorSpace.Lab) (clusters : list Cluster) :
  let st :=
    fold_left
      (fun (st : float * nat) (ic : nat * Cluster) =>
         let distance := labDistance lab (center (snd ic)) in
         if distance <? fst st then (distance, fst ic) else st)
      (imap (fun i c => (i, c)) clusters) (infinity, 0%nat) in
  (forall c, c ∈ clusters -> (labDistance lab (center c) <? fst st) = false) /\
  ((fst st = infinity /\ snd st = 0%nat) \/
   (exists c, clusters !! snd st = Some c /\
              fst st = labDistance lab (center c))).
Proof.
  induction clusters as [|x l IH] using rev_ind.
  - split; [|left; split; reflexivity].
    intros c Hc. apply elem_of_nil in Hc. destruct Hc.
  - cbv zeta in *. rewrite imap_app, fold_left_app. cbn [imap fold_left].
    set (st := fold_left _ (imap _ l) _) in *.
    destruct IH as [Hmin Hidx]. cbn [fst snd].
    destruct (labDistance lab (center x) <? fst st) eqn:Hx; cbn [fst snd].
    + split.
      * intros c Hc. apply elem_of_app in Hc. destruct Hc as [Hc | Hc].
        -- apply (ltb_keeps_minimum _ _ (fst st)); [apply Hmin; exact Hc|].
           exact Hx.
        -- apply list_elem_of_singleton in Hc. subst c. apply ltb_irrefl.
      * right. exists x. split; [|reflexivity].
        rewrite lookup_app_r by lia.
        replace (length l + 0 - length l)%nat with 0%nat by lia. reflexivity.
    + split.
      * intros c Hc. apply elem_of_app in Hc. destruct Hc as [Hc | Hc].
        -- apply Hmin. exact Hc.
        -- apply list_elem_of_singleton in Hc. subst c. exact Hx.
      * destruct Hidx as [Hinit | (c & Hc & Hd)]; [left; exact Hinit|].
        right. exists c. split; [|exact Hd].
        apply lookup_app_l_Some. exact Hc.
Qed.

End Nearest.

(** X15.  The inner loop of the k-means assignment picks a nearest centre:
    the cluster [nearestCluster] returns exists, and no cluster has a
    centre whose Lab distance to the colour is strictly below the distance
    of the chosen one (distances that are NaN are below nothing). *)
Theorem nearestCluster_is_nearest (lab : ColorSpace.Lab)
    (clusters : list MetalDetector.Cluster) (j : nat)
    (cluster : MetalDetector.Cluster) :
  clusters !! j = Some cluster ->
  exists nearest,
    clusters !! MetalDetector.nearestCluster lab clusters = Some nearest /\
    (MetalDetector.labDistance lab (MetalDetector.center cluster)
     <? MetalDetector.labDistance lab (MetalDetector.center nearest))%float
    = false.
Proof.
  intros Hj. unfold MetalDetector.nearestCluster.
  pose proof (nearest_fold lab clusters) as H. cbv zeta in H.
  set (st := fold_left _ _ _) in *.
  destruct H as [Hmin [[Hinf Hzero] | (c & Hc & Hd)]].
  - destruct clusters as [|first rest]; [discriminate Hj|].
    exists first. split; [rewrite Hzero; reflexivity|].
    apply ltb_above_all; rewrite <- Hinf; apply Hmin.
    + eapply list_elem_of_lookup_2. exact Hj.
    + left.
  - exists c. split; [exact Hc|]. rewrite <- Hd. apply Hmin.
    eapply list_elem_of_lookup_2. exact Hj.
Qed.

(** The theorem for the colour of yellow gold and two centres, white and
    the first yellow reference: the second is chosen. *)
Lemma nearestCluster_is_nearest_witness :
  let lab := ColorSpace.rgbToLab 212 175 55 in
  let clusters :=
    [ MetalDetector.mkCluster (ColorSpace.mkLab 100 0 0) [];
      MetalDetector.mkCluster (ColorSpace.mkLab 83 10 45) [] ] in
  MetalDetector.nearestCluster lab clusters = 1 /\
  exists nearest,
    clusters !! MetalDetector.nearestCluster lab clusters = Some nearest /\
    (MetalDetector.labDistance lab (ColorSpace.mkLab 100 0 0)
     <? MetalDetector.labDistance lab (MetalDetector.center nearest))%float
    = false.
Proof.
  split; [vm_compute; reflexivity|].
  apply (nearestCluster_is_nearest
           (ColorSpace.rgbToLab 212 175 55)
           [ MetalDetector.mkCluster (ColorSpace.mkLab 100 0 0) [];
             MetalDetector.mkCluster (ColorSpace.mkLab 83 10 45) [] ]
           0 (MetalDetector.mkCluster (ColorSpace.mkLab 100 0 0) [])).
  reflexivity.
Defined.

(** ** The direct HSV transfer: what a gold pixel becomes *)

Section HsvEffect.

Import Loop TypedArray ImageProcessing HsvTransfer Terms.

Lemma fold_left_steps4_split {S : Type} (f : S -> nat -> S) (n p : nat)
    (s : S) :
  4 * p < n ->
  fold_left f (steps4 n) s
  = fold_left f (map (fun q => 4 * q) (seq (Datatypes.S p)
                                           ((n + 3) / 4 - Datatypes.S p)))
      (f (fold_left f (map (fun q => 4 * q) (seq 0 p)) s) (4 * p)).
Proof.
  intros Hp. rewrite (steps4_split n p Hp), fold_left_app. reflexivity.
Qed.

Lemma transferPixel_length (random : nat -> float) (targetColor : MetalColor)
    (intensity : float) (i : nat) (st : list Z * nat) :
  length (fst (transferPixel random targetColor intensity i st))
  = length (fst st).
Proof.
  unfold transferPixel.
  destruct (isGoldColor _); [|reflexivity].
  destruct (transformGoldColor _ _ _ _ _) as [newR newG newB].
  destruct (_ <? _)%float; cbn [fst]; apply set3_length.
Qed.

Lemma transferPixel_other (random : nat -> float) (targetColor : MetalColor)
    (intensity : float) (i j : nat) (st : list Z * nat) :
  j <> i -> j <> i + 1 -> j <> i + 2 ->
  fst (transferPixel random targetColor intensity i st) !! j = fst st !! j.
Proof.
  intros H0 H1 H2. unfold transferPixel.
  destruct (isGoldColor _); [|reflexivity].
  destruct (transformGoldColor _ _ _ _ _) as [newR newG newB].
  destruct (_ <? _)%float; cbn [fst]; apply set3_lookup_ne; assumption.
Qed.

Lemma transferPixel_draws (random : nat -> float) (targetColor : MetalColor)
    (intensity : float) (i : nat) (st : list Z * nat) :
  snd (transferPixel random targetColor intensity i st)
  <= Datatypes.S (snd st).
Proof.
  unfold transferPixel.
  destruct (isGoldColor _); [|lia].
  destruct (transformGoldColor _ _ _ _ _) as [newR newG newB].
  destruct (drawsRandom _ _ _ _); destruct (_ <? _)%float; cbn [snd]; lia.
Qed.

(** The round of a gold pixel that lies inside the buffer. *)
Lemma transferPixel_gold (random : nat -> float) (targetColor : MetalColor)
    (intensity : float) (i : nat) (st : list Z * nat) :
  i + 2 < length (fst st) ->
  isGoldColor (hsvAt (fst st) i) = true ->
  let d := fst st in
  let new :=
    transformGoldColor (random (snd st)) (get d i) (get d (i + 1))
                       (get d (i + 2)) targetColor in
  let out := fst (transferPixel random targetColor intensity i st) in
  out !! i = Some (blended intensity (get d i) (r new)) /\
  out !! (i + 1) = Some (blended intensity (get d (i + 1)) (g new)) /\
  out !! (i + 2) = Some (blended intensity (get d (i + 2)) (b new)).
Proof.
  intros Hi Hgold. cbv zeta. unfold transferPixel, blended.
  unfold hsvAt in Hgold. rewrite Hgold.
  destruct (transformGoldColor _ _ _ _ _) as [newR newG newB].
  cbn [r g b].
  destruct (_ <? _)%float; cbn [fst]; apply set3_lookup; exact Hi.
Qed.

End HsvEffect.

(** X16.  On an image that is not large (no side above 1000, so without
    the smoothing pass) the direct HSV transfer writes, for every pixel
    inside the buffer whose input colour [isGoldColor] accepts, the colour
    [transformGoldColor] gives for the input colour of that pixel, blended
    half and half with the input colour when the pre-analysis found the
    image already dominated by the target colour.  The random number the
    pixel gets is one of the first [p + 1] draws, for pixel [p]. *)
Theorem hsv_transfer_gold_pixel (random : nat -> float)
    (sampleData : list Z) (imageData : ImageData) (targetColor : MetalColor)
    (p : nat) :
  width imageData <= 1000 -> height imageData <= 1000 ->
  4 * p + 2 < length (data imageData) ->
  HsvTransfer.isGoldColor (HsvTransfer.hsvAt (data imageData) (4 * p))
  = true ->
  let red := TypedArray.get (data imageData) (4 * p) in
  let green := TypedArray.get (data imageData) (4 * p + 1) in
  let blue := TypedArray.get (data imageData) (4 * p + 2) in
  let intensity :=
    HsvTransfer.transformIntensity
      (HsvTransfer.preAnalyzeMetalColors sampleData) targetColor in
  let out :=
    data (HsvTransfer.transformMetalColor random sampleData imageData
                                          targetColor) in
  exists draw,
    draw <= p /\
    let new :=
      ImageProcessing.transformGoldColor (random draw) red green blue
                                         targetColor in
    out !! (4 * p)
    = Some (Terms.blended intensity red (ImageProcessing.r new)) /\
    out !! (4 * p + 1)
    = Some (Terms.blended intensity green (ImageProcessing.g new)) /\
    out !! (4 * p + 2)
    = Some (Terms.blended intensity blue (ImageProcessing.b new)).
Proof.
  intros Hw Hh Hp Hgold red green blue intensity out.
  subst out. unfold HsvTransfer.transformMetalColor. cbn [data].
  fold intensity.
  replace ((1000 <? width imageData) || (1000 <? height imageData))
    with false
    by (symmetry; apply orb_false_iff; split; apply Nat.ltb_ge; assumption).
  set (step := fun st i =>
                 HsvTransfer.transferPixel random targetColor intensity i st).
  rewrite (fold_left_steps4_split step _ p) by lia.
  set (before := fold_left step (map (fun q => 4 * q) (seq 0 p))
                           (data imageData, 0)).
  assert (length (fst before) = length (data imageData) /\
          snd before <= p /\
          forall c, c < 3 ->
                    fst before !! (4 * p + c) = data imageData !! (4 * p + c))
    as (Hlen & Hdraws & Hsame).
  { subst before.
    assert (forall n, n <= p ->
              let st := fold_left step (map (fun q => 4 * q) (seq 0 n))
                                  (data imageData, 0) in
              length (fst st) = length (data imageData) /\
              snd st <= n /\
              forall c, c < 3 ->
                fst st !! (4 * p + c) = data imageData !! (4 * p + c))
      as Hprefix.
    { induction n as [|n IH]; intros Hn.
      - cbn. split; [reflexivity|]. split; [lia|]. reflexivity.
      - cbv zeta. rewrite seq_S, map_app, fold_left_app. cbn [map fold_left].
        destruct (IH ltac:(lia)) as (Hl & Hk & Hs). cbv zeta in Hl, Hk, Hs.
        subst step. cbv beta. split; [|split].
        + rewrite transferPixel_length. exact Hl.
        + etransitivity; [apply transferPixel_draws|]. lia.
        + intros c Hc. rewrite transferPixel_other by lia. apply Hs.
          exact Hc. }
    apply (Hprefix p). lia. }
  set (at_p := step before (4 * p)).
  assert (forall c, c < 3 ->
            fst (fold_left step
                   (map (fun q => 4 * q)
                      (seq (S p) ((length (data imageData) + 3) / 4 - S p)))
                   at_p) !! (4 * p + c)
            = fst at_p !! (4 * p + c)) as Hafter.
  { intros c Hc.
    apply (fold_left_invariant
             (fun st => fst st !! (4 * p + c) = fst at_p !! (4 * p + c)));
      [reflexivity|].
    intros i st Hi Hst.
    apply list_elem_of_fmap in Hi. destruct Hi as (q & -> & Hq).
    apply elem_of_seq in Hq. subst step. cbv beta.
    rewrite transferPixel_other by lia. exact Hst. }
  assert (HsvTransfer.hsvAt (fst before) (4 * p)
          = HsvTransfer.hsvAt (data imageData) (4 * p)) as Hhsv
    by (apply hsvAt_lookup; exact Hsame).
  pose proof (transferPixel_gold random targetColor intensity (4 * p) before)
    as Hstep.
  cbv zeta in Hstep.
  rewrite (get_lookup (fst before) (data imageData) (4 * p) (4 * p)) in Hstep
    by (replace (4 * p) with (4 * p + 0) by lia; apply Hsame; lia).
  rewrite (get_lookup (fst before) (data imageData) (4 * p + 1) (4 * p + 1))
    in Hstep by (apply Hsame; lia).
  rewrite (get_lookup (fst before) (data imageData) (4 * p + 2) (4 * p + 2))
    in Hstep by (apply Hsame; lia).
  destruct Hstep as (H0 & H1 & H2); [lia | congruence |].
  exists (snd before). split; [exact Hdraws|]. cbv zeta.
  split; [|split].
  - replace (4 * p) with (4 * p + 0) at 1 by lia.
    rewrite Hafter by lia. replace (4 * p + 0) with (4 * p) by lia. exact H0.
  - rewrite Hafter by lia. exact H1.
  - rewrite Hafter by lia. exact H2.
Qed.

(** The theorem on one pixel of yellow gold, towards rose. *)
Lemma hsv_transfer_gold_pixel_witness :
  let imageData := Examples.goldSwatch in
  let random := fun _ : nat => 0.5%float in
  let red := TypedArray.get (data imageData) (4 * 0) in
  let green := TypedArray.get (data imageData) (4 * 0 + 1) in
  let blue := TypedArray.get (data imageData) (4 * 0 + 2) in
  let intensity :=
    HsvTransfer.transformIntensity
      (HsvTransfer.preAnalyzeMetalColors (data imageData)) rose in
  let out :=
    data (HsvTransfer.transformMetalColor random (data imageData) imageData
                                          rose) in
  exists draw,
    draw <= 0 /\
    let new :=
      ImageProcessing.transformGoldColor (random draw) red green blue rose in
    out !! (4 * 0)
    = Some (Terms.blended intensity red (ImageProcessing.r new)) /\
    out !! (4 * 0 + 1)
    = Some (Terms.blended intensity green (ImageProcessing.g new)) /\
    out !! (4 * 0 + 2)
    = Some (Terms.blended intensity blue (ImageProcessing.b new)).
Proof.
  apply (hsv_transfer_gold_pixel (fun _ : nat => 0.5%float)
           (data Examples.goldSwatch) Examples.goldSwatch rose 0).
  - simpl. lia.
  - simpl. lia.
  - simpl. lia.
  - vm_compute. reflexivity.
Defined.

(** ** The unsharp mask of the Lab-profile transfer works in place *)

Section InPlace.

Import JS Loop TypedArray ImageProcessingAI Spec.

Lemma enhancePixel_length (width y x : nat) (d : list Z) :
  length (enhancePixel width y x d) = length d.
Proof.
  unfold enhancePixel. destruct (_ <? _)%float; [reflexivity|].
  apply for_range_length. intros c out _. apply length_insert.
Qed.

(** The rounds of a part of a row, and of whole rows, leave the pixels
    they do not visit alone. *)
Lemma enhance_columns_frame (width y lo hi x0 y0 c : nat) (d : list Z) :
  hi <= width -> x0 < width -> c < 4 ->
  (y0 <> y \/ x0 < lo \/ hi <= x0) ->
  for_range lo hi (enhancePixel width y) d !! (offset width x0 y0 + c)
  = d !! (offset width x0 y0 + c).
Proof.
  intros Hhi Hx0 Hc Hout. apply for_range_lookup_frame.
  intros x out Hx. apply enhancePixel_other.
  assert ((x, y) <> (x0, y0)) as Hne
    by (intros Heq; injection Heq; lia).
  destruct (offset_apart width x y x0 y0 ltac:(lia) Hx0 Hne); lia.
Qed.

Lemma enhance_rows_frame (width lo hi x0 y0 c : nat) (d : list Z) :
  x0 < width -> c < 4 -> (y0 < lo \/ hi <= y0) ->
  for_range lo hi (fun y => for_range 1 (width - 1) (enhancePixel width y)) d
    !! (offset width x0 y0 + c)
  = d !! (offset width x0 y0 + c).
Proof.
  intros Hx0 Hc Hout. apply for_range_lookup_frame.
  intros y out Hy. apply enhance_columns_frame; [lia | exact Hx0 | exact Hc |].
  left. lia.
Qed.

Lemma enhance_rows_length (width lo hi : nat) (d : list Z) :
  length (for_range lo hi
            (fun y => for_range 1 (width - 1) (enhancePixel width y)) d)
  = length d.
Proof.
  apply for_range_length. intros y out _.
  apply for_range_length. intros x out' _. apply enhancePixel_length.
Qed.

Lemma unsharp_ext (d d' : list Z) (width idx c : nat) :
  d !! (idx + c) = d' !! (idx + c) ->
  d !! (idx - width * 4 + c) = d' !! (idx - width * 4 + c) ->
  d !! (idx + width * 4 + c) = d' !! (idx + width * 4 + c) ->
  d !! (idx - 4 + c) = d' !! (idx - 4 + c) ->
  d !! (idx + 4 + c) = d' !! (idx + 4 + c) ->
  unsharp d width idx c = unsharp d' width idx c.
Proof.
  intros Hc Ht Hb Hl Hr. unfold unsharp.
  rewrite (get_lookup d d' _ _ Hc), (get_lookup d d' _ _ Ht),
          (get_lookup d d' _ _ Hb), (get_lookup d d' _ _ Hl),
          (get_lookup d d' _ _ Hr).
  reflexivity.
Qed.

(** The round of an opaque pixel: every channel is computed from the
    buffer as the round found it. *)
Lemma enhancePixel_written (width y x c : nat) (d : list Z) :
  1 <= x -> 1 <= y -> 1 <= width ->
  offset width x y + 2 < length d ->
  (get d (offset width x y + 3) <? 128)%float = false ->
  c < 3 ->
  enhancePixel width y x d !! (offset width x y + c)
  = Some (unsharp d width (offset width x y) c).
Proof.
  intros Hx Hy Hw Hlen Hopaque Hc. unfold enhancePixel. rewrite Hopaque.
  set (idx := offset width x y) in *.
  assert (4 <= idx /\ width * 4 <= idx) as [H4 H4w]
    by (subst idx; unfold offset; nia).
  unfold for_range. cbn [Nat.sub seq fold_left].
  set (d1 := <[idx + 0 := unsharp d width idx 0]> d).
  set (d2 := <[idx + 1 := unsharp d1 width idx 1]> d1).
  assert (unsharp d1 width idx 1 = unsharp d width idx 1) as H1.
  { apply unsharp_ext; subst d1; apply list_lookup_insert_ne; lia. }
  assert (unsharp d2 width idx 2 = unsharp d width idx 2) as H2.
  { etransitivity; [|apply unsharp_ext with (d := d1); subst d1;
                      apply list_lookup_insert_ne; lia].
    apply unsharp_ext; subst d2; apply list_lookup_insert_ne; lia. }
  rewrite H2. subst d2. rewrite H1. subst d1.
  assert (c = 0 \/ c = 1 \/ c = 2) as [-> | [-> | ->]] by lia.
  - rewrite !list_lookup_insert_ne by lia.
    apply list_lookup_insert_eq. lia.
  - rewrite list_lookup_insert_ne by lia.
    apply list_lookup_insert_eq. rewrite length_insert. lia.
  - apply list_lookup_insert_eq. rewrite !length_insert. lia.
Qed.

End InPlace.

(** X17.  [enhanceImageQuality] sharpens the buffer it reads from.  For an
    opaque interior pixel, each colour channel of the result is
    [center + 0.5 * (center - blur)], clamped to [0,255] and stored as a
    byte, where [center] is the input value and [blur] is the mean of four
    neighbours: the pixels above and to the left as they are in the
    result, already sharpened, and the pixels below and to the right as
    they are in the input. *)
Theorem enhanceImageQuality_in_place (imageData : ImageData) (x y c : nat) :
  Spec.wellFormed imageData ->
  Spec.interior (width imageData) (height imageData) x y = true ->
  (TypedArray.get (data imageData)
     (TypedArray.offset (width imageData) x y + 3) <? 128)%float = false ->
  c < 3 ->
  let w := width imageData in
  let input := data imageData in
  let out := data (ImageProcessingAI.enhanceImageQuality imageData) in
  let center := TypedArray.get input (TypedArray.offset w x y + c) in
  let top := TypedArray.get out (TypedArray.offset w x (y - 1) + c) in
  let bottom := TypedArray.get input (TypedArray.offset w x (y + 1) + c) in
  let left := TypedArray.get out (TypedArray.offset w (x - 1) y + c) in
  let right := TypedArray.get input (TypedArray.offset w (x + 1) y + c) in
  let blur := ((top + bottom + left + right) / 4)%float in
  out !! (TypedArray.offset w x y + c)
  = Some (JS.toUint8Clamp
            (JS.Math_max 0
               (JS.Math_min 255 (center + (center - blur) * 0.5)%float))).
Proof.
  intros Hwf Hin Hopaque Hc w input out center top bottom left right blur.
  pose proof (proj1 (interior_bounds _ _ _ _) Hin) as [Hx Hy].
  fold w in Hx, Hopaque.
  set (h := height imageData) in *.
  destruct (neighbour_offsets w x y) as (Ht & Hb & Hl & Hr); [lia|lia|].
  (* the loops, cut at the round of (x, y) *)
  set (rows := fun lo hi =>
                 Loop.for_range lo hi
                   (fun y' => Loop.for_range 1 (w - 1)
                                (ImageProcessingAI.enhancePixel w y'))).
  set (before := Loop.for_range 1 x (ImageProcessingAI.enhancePixel w y)
                   (rows 1 y input)).
  set (after := ImageProcessingAI.enhancePixel w y x before).
  assert (out = rows (S y) (h - 1)
                  (Loop.for_range (S x) (w - 1)
                     (ImageProcessingAI.enhancePixel w y) after)) as Hout.
  { subst out rows after before.
    unfold ImageProcessingAI.enhanceImageQuality, Loop.for_interior.
    cbn [data]. fold w h input.
    rewrite (for_range_split 1 y (h - 1)) by lia.
    rewrite (for_range_first y (h - 1)) by lia.
    rewrite (for_range_split 1 x (w - 1)) by lia.
    rewrite (for_range_first x (w - 1)) by lia.
    reflexivity. }
  (* pixels the later rounds do not visit *)
  assert (forall x0 y0 c0, x0 < w -> c0 < 4 ->
            (y0 < y \/ (y0 = y /\ x0 <= x)) ->
            out !! (TypedArray.offset w x0 y0 + c0)
            = after !! (TypedArray.offset w x0 y0 + c0)) as Hlater.
  { intros x0 y0 c0 Hx0 Hc0 Hpos. rewrite Hout. subst rows. cbv beta.
    rewrite enhance_rows_frame by (try assumption; lia).
    apply enhance_columns_frame; [lia | exact Hx0 | exact Hc0 | lia]. }
  (* pixels the earlier rounds did not visit *)
  assert (forall x0 y0 c0, x0 < w -> c0 < 4 ->
            (y < y0 \/ (y0 = y /\ x <= x0)) ->
            before !! (TypedArray.offset w x0 y0 + c0)
            = input !! (TypedArray.offset w x0 y0 + c0)) as Hearlier.
  { intros x0 y0 c0 Hx0 Hc0 Hpos. subst before rows. cbv beta.
    rewrite enhance_columns_frame by (try assumption; lia).
    apply enhance_rows_frame; [exact Hx0 | exact Hc0 | lia]. }
  assert (forall j, (j < TypedArray.offset w x y \/ TypedArray.offset w x y + 3 <= j) -> after !! j = before !! j)
    as Hstep
    by (intros j Hj; apply enhancePixel_other; exact Hj).
  assert (length before = length input) as Hlen.
  { subst before rows. cbv beta.
    rewrite for_range_length
      by (intros; apply enhancePixel_length).
    apply enhance_rows_length. }
  assert (TypedArray.offset w x y + 3 < length input) as Hinside
    by (apply pixel_inside; [exact Hwf | fold w; lia | fold h; lia | lia]).
  (* the round of (x, y) *)
  rewrite (Hlater x y c) by lia. subst after.
  rewrite enhancePixel_written; try lia.
  2:{ rewrite (get_lookup before input (TypedArray.offset w x y + 3) (TypedArray.offset w x y + 3));
        [exact Hopaque|].
      apply (Hearlier x y 3); lia. }
  f_equal. unfold ImageProcessingAI.unsharp.
  rewrite Ht, Hb, Hl, Hr.
  rewrite (get_lookup before input (TypedArray.offset w x y + c) (TypedArray.offset w x y + c))
    by (apply (Hearlier x y c); lia).
  rewrite (get_lookup before input _ _ (Hearlier x (y + 1) c ltac:(lia)
                                          ltac:(lia) ltac:(lia))).
  rewrite (get_lookup before input _ _ (Hearlier (x + 1) y c ltac:(lia)
                                          ltac:(lia) ltac:(lia))).
  assert (forall x0 y0, x0 < w -> (y0 < y \/ (y0 = y /\ x0 < x)) ->
            before !! (TypedArray.offset w x0 y0 + c)
            = out !! (TypedArray.offset w x0 y0 + c)) as Hdone.
  { intros x0 y0 Hx0 Hpos. rewrite Hlater by lia. symmetry. apply Hstep.
    assert ((x0, y0) <> (x, y)) as Hne by (intros Heq; injection Heq; lia).
    destruct (offset_apart w x0 y0 x y Hx0 ltac:(lia) Hne); lia. }
  rewrite (get_lookup before out _ _ (Hdone x (y - 1) ltac:(lia) ltac:(lia))).
  rewrite (get_lookup before out _ _ (Hdone (x - 1) y ltac:(lia) ltac:(lia))).
  reflexivity.
Qed.

(** The theorem at the middle of the 3x3 image with an opaque gray dot.  *)
Lemma enhanceImageQuality_in_place_witness :
  let imageData := Examples.grayDot in
  let w := width imageData in
  let input := data imageData in
  let out := data (ImageProcessingAI.enhanceImageQuality imageData) in
  let center := TypedArray.get input (TypedArray.offset w 1 1 + 0) in
  let top := TypedArray.get out (TypedArray.offset w 1 (1 - 1) + 0) in
  let bottom := TypedArray.get input (TypedArray.offset w 1 (1 + 1) + 0) in
  let left := TypedArray.get out (TypedArray.offset w (1 - 1) 1 + 0) in
  let right := TypedArray.get input (TypedArray.offset w (1 + 1) 1 + 0) in
  let blur := ((top + bottom + left + right) / 4)%float in
  out !! (TypedArray.offset w 1 1 + 0)
  = Some (JS.toUint8Clamp
            (JS.Math_max 0
               (JS.Math_min 255 (center + (center - blur) * 0.5)%float))).
Proof.
  apply (enhanceImageQuality_in_place Examples.grayDot 1 1 0).
  - reflexivity.
  - reflexivity.
  - reflexivity.
  - lia.
Defined.

(** ** The HSV round trip on samples *)

(** X19.  Every gray, and every colour whose channels are multiples of 17,
    comes back unchanged from [hsvToRgb (rgbToHsv r g b)]. *)
Lemma hsv_round_trip_on_samples :
  (forall v, (0 <= v <= 255)%Z -> Terms.hsvRoundTrips v v v = true) /\
  (forall i j k, (0 <= i <= 15)%Z -> (0 <= j <= 15)%Z -> (0 <= k <= 15)%Z ->
     Terms.hsvRoundTrips (17 * i) (17 * j) (17 * k) = true).
Proof.
  split.
  - intros v Hv.
    apply (forall_from_spec 256 0 (fun v => Terms.hsvRoundTrips v v v)); [|lia].
    by_evaluation.
  - intros i j k Hi Hj Hk.
    apply (forall_from_spec 16 0
             (fun k => Terms.hsvRoundTrips (17 * i) (17 * j) (17 * k))); [|lia].
    apply (forall_from_2 16 16 0 0
             (fun i j =>
                Spec.forall_from 16 0
                  (fun k => Terms.hsvRoundTrips (17 * i) (17 * j) (17 * k))));
      [|lia|lia].
    by_evaluation.
Qed.

(** ** The Lab-profile transfer: what a metal pixel becomes *)

Section ProfileEffect.

Import Loop TypedArray ImageProcessingAI Spec Terms.

Lemma processPixel_length (targetColor : MetalColor) (i : nat) (d : list Z) :
  length (processPixel targetColor i d) = length d.
Proof.
  unfold processPixel. destruct (isMetalInLab _); [|reflexivity].
  apply set3_length.
Qed.

(** The round of a metal pixel that lies inside the buffer. *)
Lemma processPixel_metal (targetColor : MetalColor) (i : nat) (d : list Z) :
  i + 2 < length d ->
  isMetalInLab (labAt d i) = true ->
  let new :=
    transformGoldWithTexture (get d i) (get d (i + 1)) (get d (i + 2))
                             (labAt d i) targetColor in
  processPixel targetColor i d !! i = Some (JS.toUint8Clamp (r new)) /\
  processPixel targetColor i d !! (i + 1) = Some (JS.toUint8Clamp (g new)) /\
  processPixel targetColor i d !! (i + 2) = Some (JS.toUint8Clamp (bl new)).
Proof.
  intros Hi Hmetal. cbv zeta. unfold processPixel.
  unfold labAt in Hmetal. rewrite Hmetal.
  apply set3_lookup. exact Hi.
Qed.

Lemma labAt_lookup (d d' : list Z) (i : nat) :
  (forall c, c < 3 -> d !! (i + c) = d' !! (i + c)) ->
  labAt d i = labAt d' i.
Proof.
  intros H. unfold labAt.
  rewrite (get_lookup d d' i i)
    by (replace i with (i + 0) by lia; apply H; lia).
  rewrite (get_lookup d d' (i + 1) (i + 1)) by (apply H; lia).
  rewrite (get_lookup d d' (i + 2) (i + 2)) by (apply H; lia).
  reflexivity.
Qed.

(** What the pixel loop makes of a metal pixel. *)
Lemma recolor_metal (targetColor : MetalColor) (data : list Z) (p : nat) :
  4 * p + 2 < length data ->
  isMetalInLab (labAt data (4 * p)) = true ->
  let new :=
    transformGoldWithTexture (get data (4 * p)) (get data (4 * p + 1))
                             (get data (4 * p + 2)) (labAt data (4 * p))
                             targetColor in
  recolor targetColor data !! (4 * p) = Some (JS.toUint8Clamp (r new)) /\
  recolor targetColor data !! (4 * p + 1) = Some (JS.toUint8Clamp (g new)) /\
  recolor targetColor data !! (4 * p + 2) = Some (JS.toUint8Clamp (bl new)).
Proof.
  intros Hp Hmetal. cbv zeta. unfold recolor.
  set (step := fun d i => processPixel targetColor i d).
  rewrite (fold_left_steps4_split step _ p) by lia.
  set (before := fold_left step (map (fun q => 4 * q) (seq 0 p)) data).
  assert (length before = length data /\
          forall c, c < 3 -> before !! (4 * p + c) = data !! (4 * p + c))
    as (Hlen & Hsame).
  { subst before.
    apply (fold_left_invariant
             (fun d => length d = length data /\
                       forall c, c < 3 ->
                         d !! (4 * p + c) = data !! (4 * p + c)));
      [split; reflexivity|].
    intros i d Hi [Hl Hs].
    apply list_elem_of_fmap in Hi. destruct Hi as (q & -> & Hq).
    apply elem_of_seq in Hq. subst step. cbv beta. split.
    - rewrite processPixel_length. exact Hl.
    - intros c Hc. rewrite processPixel_frame by lia. apply Hs. exact Hc. }
  set (at_p := step before (4 * p)).
  assert (forall c, c < 3 ->
            fold_left step
              (map (fun q => 4 * q)
                 (seq (S p) ((length data + 3) / 4 - S p)))
              at_p !! (4 * p + c)
            = at_p !! (4 * p + c)) as Hafter.
  { intros c Hc.
    apply (fold_left_invariant
             (fun d => d !! (4 * p + c) = at_p !! (4 * p + c)));
      [reflexivity|].
    intros i d Hi Hd.
    apply list_elem_of_fmap in Hi. destruct Hi as (q & -> & Hq).
    apply elem_of_seq in Hq. subst step. cbv beta.
    rewrite processPixel_frame by lia. exact Hd. }
  pose proof (processPixel_metal targetColor (4 * p) before) as Hstep.
  cbv zeta in Hstep.
  rewrite (labAt_lookup before data (4 * p) Hsame) in Hstep.
  rewrite (get_lookup before data (4 * p) (4 * p)) in Hstep
    by (replace (4 * p) with (4 * p + 0) by lia; apply Hsame; lia).
  rewrite (get_lookup before data (4 * p + 1) (4 * p + 1)) in Hstep
    by (apply Hsame; lia).
  rewrite (get_lookup before data (4 * p + 2) (4 * p + 2)) in Hstep
    by (apply Hsame; lia).
  destruct Hstep as (H0 & H1 & H2); [lia | exact Hmetal |].
  split; [|split].
  - replace (4 * p) with (4 * p + 0) at 1 by lia.
    rewrite Hafter by lia. replace (4 * p + 0) with (4 * p) by lia. exact H0.
  - rewrite Hafter by lia. exact H1.
  - rewrite Hafter by lia. exact H2.
Qed.

End ProfileEffect.

(** X20.  [processJewelryImage] gives a pixel that [isMetalInLab] accepts
    the colour of [transformGoldWithTexture] for the input colour of that
    pixel; the result shows it unchanged where the sharpening does not
    reach, that is on the border of the image and on transparent pixels.
    [transformGoldWithTexture] uses the lightness of the pixel only: its
    [a] and [b] are those of the profile of the target. *)
Theorem processJewelryImage_metal_pixel (imageData : ImageData)
    (targetColor : MetalColor) (x y : nat) :
  x < width imageData ->
  let i := TypedArray.offset (width imageData) x y in
  let input := data imageData in
  i + 2 < length input ->
  ImageProcessingAI.isMetalInLab (Terms.labAt input i) = true ->
  Spec.interior (width imageData) (height imageData) x y = false \/
  (TypedArray.get input (i + 3) <? 128)%float = true ->
  let new :=
    ImageProcessingAI.transformGoldWithTexture
      (TypedArray.get input i) (TypedArray.get input (i + 1))
      (TypedArray.get input (i + 2)) (Terms.labAt input i) targetColor in
  let out :=
    data (ImageProcessingAI.processJewelryImage imageData targetColor) in
  out !! i = Some (JS.toUint8Clamp (ImageProcessingAI.r new)) /\
  out !! (i + 1) = Some (JS.toUint8Clamp (ImageProcessingAI.g new)) /\
  out !! (i + 2) = Some (JS.toUint8Clamp (ImageProcessingAI.bl new)) /\
  forall r' g' b' lab',
    ImageProcessingAI.L lab' = ImageProcessingAI.L (Terms.labAt input i) ->
    ImageProcessingAI.transformGoldWithTexture r' g' b' lab' targetColor
    = new.
Proof.
  intros Hx i input Hi Hmetal Hcase new out.
  set (recolored :=
         mkImageData (ImageProcessingAI.recolor targetColor input)
                     (width imageData) (height imageData)).
  assert (i = 4 * (y * width imageData + x)) as Hp
    by (subst i; unfold TypedArray.offset; lia).
  assert (forall c, c < 4 -> out !! (i + c) = data recolored !! (i + c))
    as Hkept.
  { intros c Hc. subst out. unfold ImageProcessingAI.processJewelryImage.
    fold input recolored.
    apply (enhanceImageQuality_samePixel recolored x y Hx); [|exact Hc].
    destruct Hcase as [Hborder | Htransparent]; [left; exact Hborder|].
    right. cbn [width data recolored]. fold i.
    rewrite (get_lookup _ input _ (i + 3)); [exact Htransparent|].
    rewrite Hp. apply recolor_alpha. }
  pose proof (recolor_metal targetColor input (y * width imageData + x))
    as Hrec.
  rewrite <- Hp in Hrec. cbv zeta in Hrec.
  destruct (Hrec Hi Hmetal) as (H0 & H1 & H2).
  split; [|split; [|split]].
  - replace i with (i + 0) at 1 by lia. rewrite Hkept by lia.
    replace (i + 0) with i by lia. exact H0.
  - rewrite Hkept by lia. exact H1.
  - rewrite Hkept by lia. exact H2.
  - intros r' g' b' lab' HL. subst new.
    unfold ImageProcessingAI.transformGoldWithTexture. rewrite HL.
    reflexivity.
Qed.

(** The theorem at a corner pixel of pale gold, towards rose. *)
Lemma processJewelryImage_metal_pixel_witness :
  let imageData := mkImageData [250; 240; 200; 255]%Z 1 1 in
  let i := TypedArray.offset (width imageData) 0 0 in
  let input := data imageData in
  let new :=
    ImageProcessingAI.transformGoldWithTexture
      (TypedArray.get input i) (TypedArray.get input (i + 1))
      (TypedArray.get input (i + 2)) (Terms.labAt input i) rose in
  let out := data (ImageProcessingAI.processJewelryImage imageData rose) in
  out !! i = Some (JS.toUint8Clamp (ImageProcessingAI.r new)) /\
  out !! (i + 1) = Some (JS.toUint8Clamp (ImageProcessingAI.g new)) /\
  out !! (i + 2) = Some (JS.toUint8Clamp (ImageProcessingAI.bl new)) /\
  forall r' g' b' lab',
    ImageProcessingAI.L lab' = ImageProcessingAI.L (Terms.labAt input i) ->
    ImageProcessingAI.transformGoldWithTexture r' g' b' lab' rose = new.
Proof.
  apply (processJewelryImage_metal_pixel
           (mkImageData [250; 240; 200; 255]%Z 1 1) rose 0 0).
  - simpl. lia.
  - simpl. lia.
  - vm_compute. reflexivity.
  - left. reflexivity.
Defined.
